(** * Circle member app: the credit ledger and its reconciliation

    A shallow embedding of the credit logic of [server.js] and of the
    ledger tables and trigger of [database/schema.sql].

    Conventions of the model:
    - JavaScript numbers and PostgreSQL [INT]/[BIGINT] columns are [Z].
    - Timestamps ([TIMESTAMPTZ], [Date]) are milliseconds since the epoch,
      as [Date.getTime] returns them.  One request reads the clock once
      ([ev_now]); calendar arithmetic is that of [Date] in a UTC time zone.
    - A character of a Rocq string stands for the UTF-16 code unit of the
      same number, so text is taken to lie in Latin-1 (code units below 256).
      Where nothing else is said, text values are assumed to fit their
      [VARCHAR] columns and amounts their [INT] columns; [spend_credits_typed]
      is the spend handler with the column types enforced.
    - The statements of a handler reach the database in the order of the
      code.  Those sent through [pool.query] may each reach another session:
      [settle_purchases] takes the purchase settlement on one session,
      [settle_purchases_pooled] follows it through the sessions of the pool.
    - A table with a [UNIQUE] key is a [gmap] from that key; the append-only
      tables are lists, oldest row first.  Columns no code reads back
      ([created_at], [updated_at], [avatar_url], [circle_user_id], row ids of
      the audit tables) are left out. *)

From Stdlib Require Import ZArith String Ascii List Lia Bool Permutation.
From stdpp Require Import gmap strings list pretty.

Open Scope string_scope.
Open Scope list_scope.
Open Scope Z_scope.

(** ** JavaScript string helpers *)

Module Js.

(** [c] is white space or a line terminator, as [String.prototype.trim]
    strips them and [\s] matches them: TAB, LF, VT, FF, CR, SP and NBSP
    (U+00A0); the others (U+1680, U+2000-U+200A, U+2028, U+2029, U+202F,
    U+205F, U+3000, U+FEFF) lie above Latin-1. *)
Definition is_space (c : ascii) : bool :=
  let n := nat_of_ascii c in
  ((9 <=? n)%nat && (n <=? 13)%nat) || (n =? 32)%nat || (n =? 160)%nat.

(** [\d] of a JavaScript regular expression: an ASCII decimal digit. *)
Definition is_digit (c : ascii) : bool :=
  let n := nat_of_ascii c in (48 <=? n)%nat && (n <=? 57)%nat.

Fixpoint trim_start (s : string) : string :=
  match s with
  | String c r => if is_space c then trim_start r else s
  | EmptyString => EmptyString
  end.

Fixpoint trim_end (s : string) : string :=
  match s with
  | String c r =>
      match trim_end r with
      | EmptyString => if is_space c then EmptyString else String c EmptyString
      | r' => String c r'
      end
  | EmptyString => EmptyString
  end.

(** [s.trim()] *)
Definition trim (s : string) : string := trim_end (trim_start s).

(** The lower-case mapping of a code unit of Latin-1: A-Z, and U+00C0-U+00DE
    but for the multiplication sign U+00D7, move up by 32. *)
Definition lower_char (c : ascii) : ascii :=
  let n := nat_of_ascii c in
  if ((65 <=? n)%nat && (n <=? 90)%nat)
     || ((192 <=? n)%nat && (n <=? 222)%nat && negb (n =? 215)%nat)
  then ascii_of_nat (n + 32) else c.

(** [s.toLowerCase()] *)
Fixpoint toLowerCase (s : string) : string :=
  match s with
  | String c r => String (lower_char c) (toLowerCase r)
  | EmptyString => EmptyString
  end.

(** [s.includes(sub)] *)
Fixpoint includes (s sub : string) : bool :=
  String.prefix sub s ||
  match s with
  | String _ r => includes r sub
  | EmptyString => false
  end.

Fixpoint all_digits (s : string) : bool :=
  match s with
  | String c r => is_digit c && all_digits r
  | EmptyString => true
  end.

Definition digit_value (c : ascii) : Z := Z.of_nat (nat_of_ascii c) - 48.

Fixpoint parse_digits (acc : Z) (s : string) : Z :=
  match s with
  | String c r => parse_digits (10 * acc + digit_value c) r
  | EmptyString => acc
  end.

(** [parseInt(s, 10)] on a string of decimal digits (what a [\d+] group
    captures).  The value is exact here; a [Number] is exact up to 2^53 and
    stays above 10000 beyond, so the range test below reads the same. *)
Definition parseInt10 (s : string) : Z := parse_digits 0 s.

(** [v || dflt] for a number [v] that may be [NaN]/[undefined] ([None]):
    [0] is falsy too. *)
Definition or_default (v : option Z) (dflt : Z) : Z :=
  match v with
  | Some n => if n =? 0 then dflt else n
  | None => dflt
  end.

End Js.

(** ** Tag classifier *)

(** Default of [paidMemberTags] when [PAID_MEMBER_TAGS] is unset. *)
Definition default_paid_member_tags : list string :=
  ["paid"; "premium"; "subscriber"; "member"; "vip"; "pro"].

(** [tags.some(tag => paidMemberTags.some(paidTag =>
      tag.toLowerCase().includes(paidTag)))] *)
Definition is_paid_member (paidMemberTags tags : list string) : bool :=
  existsb (fun tag =>
    existsb (fun paidTag => Js.includes (Js.toLowerCase tag) paidTag)
            paidMemberTags) tags.

(** An element of [purchaseTags]: [{ tag, credits }]. *)
Record purchase := Purchase {
  p_tag : string;
  p_credits : Z
}.

#[global] Instance purchase_eq_dec : EqDecision purchase.
Proof. solve_decision. Defined.

(** [tagStr.match(/^\$?(\d+)$/)]: the captured digits, if the tag is an
    optional dollar sign followed by one or more digits and nothing else. *)
Definition purchase_match (tagStr : string) : option string :=
  let body :=
    match tagStr with
    | String "$"%char r => r
    | _ => tagStr
    end in
  match body with
  | EmptyString => None
  | _ => if Js.all_digits body then Some body else None
  end.

(** The body of the detection loop for one tag. *)
Definition purchase_of_tag (tag : string) : option purchase :=
  let tagStr := Js.trim tag in
  match purchase_match tagStr with
  | Some digits =>
      let creditAmount := Js.parseInt10 digits in
      if (0 <? creditAmount) && (creditAmount <=? 10000)
      then Some {| p_tag := tagStr; p_credits := creditAmount |}
      else None
  | None => None
  end.

(** [for (const tag of memberData.tags) { ... purchaseTags.push(...) }] *)
Definition detect_purchase_tags (tags : list string) : list purchase :=
  omap purchase_of_tag tags.

(** ** Calendar arithmetic of [Date] (UTC) *)

Module JsDate.

Definition msPerDay : Z := 86400000.

(** Day number and time within the day of a time value. *)
Definition Day (t : Z) : Z := t / msPerDay.
Definition TimeWithinDay (t : Z) : Z := t mod msPerDay.

(** Day number of the civil date [y]-[m]-[d], months counted from 1. *)
Definition days_from_civil (y m d : Z) : Z :=
  let y' := if m <=? 2 then y - 1 else y in
  let era := y' / 400 in
  let yoe := y' - era * 400 in
  let mp := if 2 <? m then m - 3 else m + 9 in
  let doy := (153 * mp + 2) / 5 + d - 1 in
  let doe := yoe * 365 + yoe / 4 - yoe / 100 + doy in
  era * 146097 + doe - 719468.

(** Civil date (year, month from 1, day of month) of a day number. *)
Definition civil_from_days (z : Z) : Z * Z * Z :=
  let z' := z + 719468 in
  let era := z' / 146097 in
  let doe := z' - era * 146097 in
  let yoe := (doe - doe / 1460 + doe / 36524 - doe / 146096) / 365 in
  let doy := doe - (365 * yoe + yoe / 4 - yoe / 100) in
  let mp := (5 * doy + 2) / 153 in
  let d := doy - (153 * mp + 2) / 5 + 1 in
  let m := if mp <? 10 then mp + 3 else mp - 9 in
  ((if m <=? 2 then yoe + era * 400 + 1 else yoe + era * 400), m, d).

Definition getFullYear (t : Z) : Z := fst (fst (civil_from_days (Day t))).
(** [getMonth] counts from 0. *)
Definition getMonth (t : Z) : Z := snd (fst (civil_from_days (Day t))) - 1.
Definition getDate (t : Z) : Z := snd (civil_from_days (Day t)).

(** [MakeDay(year, month, date)] of ECMAScript: the month may lie outside
    0..11 and the date outside the month; both carry over. *)
Definition MakeDay (year month date : Z) : Z :=
  let ym := year + month / 12 in
  let mn := month mod 12 in
  days_from_civil ym (mn + 1) 1 + date - 1.

(** [d.setMonth(month)]: the new time value. *)
Definition setMonth (t month : Z) : Z :=
  MakeDay (getFullYear t) month (getDate t) * msPerDay + TimeWithinDay t.

End JsDate.

(** [const oneMonthAgo = new Date();
     oneMonthAgo.setMonth(oneMonthAgo.getMonth() - 1);] *)
Definition oneMonthAgo (now : Z) : Z :=
  JsDate.setMonth now (JsDate.getMonth now - 1).

(** ** Tables of [schema.sql] *)

(** A row of [members]; the table is keyed by [circle_member_id]. *)
Record member_row := MemberRow {
  m_id : Z;
  m_email : string;
  m_name : string;
  m_is_admin : bool;
  m_is_moderator : bool;
  m_is_paid : option bool;          (* BOOLEAN DEFAULT FALSE, nullable *)
  m_tags : option (list string);    (* JSONB, nullable *)
  m_first_seen_at : Z;
  m_last_seen_at : Z
}.

(** A row of [member_credits]; the table is keyed by [member_id]. *)
Record credits_row := CreditsRow {
  credits_balance : Z;
  last_refreshed_at : Z
}.

(** A row of [app_actions]. *)
Record action_row := ActionRow {
  a_id : Z;
  a_member_id : Z;
  a_action_type : string;
  a_credits_cost : Z;
  a_metadata : string;
  a_success : bool
}.

(** The values of [credit_history.change_type] that the handlers and the
    trigger write. *)
Inductive change_type :=
  | initial_grant | monthly_refresh | upgrade_bonus | purchase_credit
  | action_cost | admin_bonus | admin_refresh
  | credit_addition | credit_deduction.

#[global] Instance change_type_eq_dec : EqDecision change_type.
Proof. solve_decision. Defined.

(** A row of [credit_history]. *)
Record history_row := HistoryRow {
  ch_member_id : Z;
  ch_change_amount : Z;
  ch_change_type : change_type;
  ch_balance_after : Z;
  ch_reference_id : option Z;
  ch_notes : string
}.

#[global] Instance history_row_eq_dec : EqDecision history_row.
Proof. solve_decision. Defined.

(** A row of [processed_purchase_tags]. *)
Record ppt_row := PptRow {
  ppt_member_id : Z;
  ppt_tag_value : string;
  ppt_credits_granted : Z
}.

Record db := Db {
  members : gmap Z member_row;
  member_credits : gmap Z credits_row;
  app_actions : list action_row;
  credit_history : list history_row;
  processed_purchase_tags : list ppt_row;
  members_id_seq : Z;               (* next value of members.id *)
  app_actions_id_seq : Z            (* next value of app_actions.id *)
}.

Definition set_member_credits (mc : gmap Z credits_row) (d : db) : db :=
  Db (members d) mc (app_actions d) (credit_history d)
     (processed_purchase_tags d) (members_id_seq d) (app_actions_id_seq d).

(** [INSERT INTO credit_history ...] *)
Definition insert_credit_history (r : history_row) (d : db) : db :=
  Db (members d) (member_credits d) (app_actions d) (credit_history d ++ [r])
     (processed_purchase_tags d) (members_id_seq d) (app_actions_id_seq d).

(** [INSERT INTO processed_purchase_tags ...] *)
Definition insert_processed_purchase_tag (r : ppt_row) (d : db) : db :=
  Db (members d) (member_credits d) (app_actions d) (credit_history d)
     (processed_purchase_tags d ++ [r]) (members_id_seq d) (app_actions_id_seq d).

(** The identity column of [app_actions]: the sequence hands out its next
    value when the [INSERT] runs, inside or outside a transaction. *)
Definition nextval_app_actions (d : db) : db * Z :=
  (Db (members d) (member_credits d) (app_actions d) (credit_history d)
      (processed_purchase_tags d) (members_id_seq d) (app_actions_id_seq d + 1),
   app_actions_id_seq d).

Definition store_app_action (r : action_row) (d : db) : db :=
  Db (members d) (member_credits d) (app_actions d ++ [r]) (credit_history d)
     (processed_purchase_tags d) (members_id_seq d) (app_actions_id_seq d).

(** [INSERT INTO app_actions (member_id, action_type, credits_cost, metadata,
     success) VALUES ($1, $2, $3, $4, true) RETURNING id] *)
Definition insert_app_action (member_id : Z) (action_type : string)
    (credits_cost : Z) (metadata : string) (d : db) : db * Z :=
  let '(d1, id) := nextval_app_actions d in
  (store_app_action (ActionRow id member_id action_type credits_cost metadata true) d1,
   id).

(** *** The trigger [log_member_credits_changes] *)

Inductive tg_op := TG_INSERT | TG_UPDATE.

(** [log_credit_change()]: the row it inserts into [credit_history], if any.
    [old] is meaningful for [TG_UPDATE] only. *)
Definition log_credit_change (op : tg_op) (member_id : Z)
    (old new : credits_row) : option history_row :=
  match op with
  | TG_UPDATE =>
      if negb (credits_balance old =? credits_balance new) then
        Some (HistoryRow member_id
                (credits_balance new - credits_balance old)
                (if credits_balance old <? credits_balance new
                 then credit_addition else credit_deduction)
                (credits_balance new) None
                "Automatic log from credit balance change")
      else None
  | TG_INSERT =>
      Some (HistoryRow member_id (credits_balance new) initial_grant
              (credits_balance new) None
              "Initial credit grant for new member")
  end.

Definition fire_trigger (r : option history_row) (d : db) : db :=
  match r with
  | Some h => insert_credit_history h d
  | None => d
  end.

(** *** Statements on [member_credits]

    Every one of them is followed by the [AFTER INSERT OR UPDATE ... FOR EACH
    ROW] trigger. *)

(** [INSERT INTO member_credits (member_id, credits_balance, last_refreshed_at)
     VALUES ($1, $2, NOW()) ON CONFLICT (member_id) DO UPDATE SET
     credits_balance = EXCLUDED.credits_balance,
     last_refreshed_at = EXCLUDED.last_refreshed_at RETURNING *] *)
Definition upsert_member_credits (member_id balance now : Z) (d : db)
    : db * credits_row :=
  let new := CreditsRow balance now in
  let op := match member_credits d !! member_id with
            | Some _ => TG_UPDATE
            | None => TG_INSERT
            end in
  let old := default new (member_credits d !! member_id) in
  (fire_trigger (log_credit_change op member_id old new)
     (set_member_credits (<[member_id := new]> (member_credits d)) d),
   new).

(** [UPDATE member_credits SET credits_balance = $1 [, last_refreshed_at =
     NOW()] WHERE member_id = $2 RETURNING *]: [refreshed] carries [NOW()]
    when the statement also sets [last_refreshed_at].  No row matches when the
    member has no account: nothing changes, no trigger fires, no row is
    returned. *)
Definition update_member_credits (member_id balance : Z) (refreshed : option Z)
    (d : db) : db * option credits_row :=
  match member_credits d !! member_id with
  | Some old =>
      let new := CreditsRow balance (default (last_refreshed_at old) refreshed) in
      (fire_trigger (log_credit_change TG_UPDATE member_id old new)
         (set_member_credits (<[member_id := new]> (member_credits d)) d),
       Some new)
  | None => (d, None)
  end.

(** ** Configuration *)

(** [process.env] as the handlers read it: each credit amount is the result
    of [parseInt(process.env.X, 10)], [None] when that is [NaN] (variable
    unset or not a number). *)
Record env := Env {
  DATABASE_URL : bool;
  INITIAL_CREDITS_PAID : option Z;
  INITIAL_CREDITS_FREE : option Z;
  MONTHLY_CREDITS_PAID : option Z;
  MONTHLY_CREDITS_FREE : option Z;
  paidMemberTags : list string
}.

(** [parseInt(process.env.INITIAL_CREDITS_PAID, 10) || 100] and its like. *)
Definition initial_credits_paid (e : env) : Z := Js.or_default (INITIAL_CREDITS_PAID e) 100.
Definition initial_credits_free (e : env) : Z := Js.or_default (INITIAL_CREDITS_FREE e) 10.
Definition monthly_credits_paid (e : env) : Z := Js.or_default (MONTHLY_CREDITS_PAID e) 100.
Definition monthly_credits_free (e : env) : Z := Js.or_default (MONTHLY_CREDITS_FREE e) 10.

Definition tier_name (is_paid : bool) : string := if is_paid then "paid" else "free".

(** ** POST /api/auth: database integration *)

(** [memberData] as it reaches the database block: [md_id] is
    [memberData.id || memberData.community_member_id] ([0] when falsy),
    [md_is_paid] is [None] when [memberData.is_paid] is [undefined] (the
    public-profile fallback), [md_tags] is the tag array ([[]] when absent). *)
Record member_data := MemberData {
  md_id : Z;
  md_email : string;
  md_name : string;
  md_is_admin : bool;
  md_is_moderator : bool;
  md_is_paid : option bool;
  md_tags : list string
}.

(** One authentication event: the clock, the member payload, the answers of
    the Circle admin API to [getAdminTagIdByName], and the statement of the
    settlement batch that fails, if any (0 is [BEGIN], 1 the [UPDATE], then
    two [INSERT]s per tag, last the [COMMIT]). *)
Record auth_event := AuthEvent {
  ev_now : Z;
  ev_member : member_data;
  ev_admin_tag_id : string -> option Z;
  ev_fault : option nat
}.

(** What the handler adds to [memberData] for the response, and the tag
    removals it requests from Circle. *)
Record auth_result := AuthResult {
  r_db_id : option Z;
  r_credits_balance : option Z;
  r_is_new_user : option bool;
  r_processed_purchase_tags : list string;
  r_deleted_tag_ids : list Z;
  r_db_error : bool
}.

(** [existingMember?.is_paid || false], read before the upsert. *)
Definition previousPaidStatus (d : db) (circle_member_id : Z) : bool :=
  match members d !! circle_member_id with
  | Some m => default false (m_is_paid m)
  | None => false
  end.

(** [existingMember?.tags || []], read before the upsert. *)
Definition previousTags (d : db) (circle_member_id : Z) : list string :=
  match members d !! circle_member_id with
  | Some m => default [] (m_tags m)
  | None => []
  end.

(** [memberData.is_paid !== undefined ? memberData.is_paid : tags.some(...)] *)
Definition currentIsPaid (e : env) (md : member_data) : bool :=
  match md_is_paid md with
  | Some b => b
  | None => is_paid_member (paidMemberTags e) (md_tags md)
  end.

(** Some other member row already holds this email ([email ... UNIQUE]). *)
Definition email_taken (d : db) (circle_member_id : Z) (email : string) : bool :=
  existsb (fun kr => negb (fst kr =? circle_member_id) && String.eqb (m_email (snd kr)) email)
          (map_to_list (members d)).

(** [INSERT INTO members ... ON CONFLICT (circle_member_id) DO UPDATE SET ...
     RETURNING id, first_seen_at]: [None] when the statement violates the
    unique constraint on [email].  The identity sequence advances at every
    attempt. *)
Definition upsert_member (now : Z) (md : member_data) (is_paid : bool) (d : db)
    : db * option (Z * Z) :=
  let seq := members_id_seq d in
  let bump (ms : gmap Z member_row) :=
    Db ms (member_credits d) (app_actions d) (credit_history d)
       (processed_purchase_tags d) (seq + 1) (app_actions_id_seq d) in
  if email_taken d (md_id md) (md_email md) then (bump (members d), None)
  else
    match members d !! md_id md with
    | Some old =>
        let new := MemberRow (m_id old) (md_email md) (md_name md)
                     (md_is_admin md) (md_is_moderator md) (Some is_paid)
                     (Some (md_tags md)) (m_first_seen_at old) now in
        (bump (<[md_id md := new]> (members d)), Some (m_id old, m_first_seen_at old))
    | None =>
        let new := MemberRow seq (md_email md) (md_name md)
                     (md_is_admin md) (md_is_moderator md) (Some is_paid)
                     (Some (md_tags md)) now now in
        (bump (<[md_id md := new]> (members d)), Some (seq, now))
    end.

(** The initial grant (the first branch of "2. Handle Credits"). *)
Definition grant_initial_credits (e : env) (now : Z) (is_paid : bool)
    (dbMemberId : Z) (d : db) : db * option credits_row :=
  let initialCredits :=
    if is_paid then initial_credits_paid e else initial_credits_free e in
  let '(d1, row) := upsert_member_credits dbMemberId initialCredits now d in
  (insert_credit_history
     (HistoryRow dbMemberId initialCredits initial_grant initialCredits None
        ("Initial credit grant: " ++ tier_name is_paid ++ " member")) d1,
   Some row).

(** "If they upgraded to paid, give them additional credits". *)
Definition award_upgrade_bonus (e : env) (dbMemberId : Z)
    (creditsRecord : credits_row) (d : db) : db * option credits_row :=
  let upgradeBonus := initial_credits_paid e - initial_credits_free e in
  let newBalance := credits_balance creditsRecord + upgradeBonus in
  let '(d1, rows) := update_member_credits dbMemberId newBalance None d in
  (insert_credit_history
     (HistoryRow dbMemberId upgradeBonus upgrade_bonus newBalance None
        "Credit bonus for upgrading to paid membership") d1,
   rows).

(** "Regular monthly refresh": [creditsResult] is the result of the last
    statement, [creditsRecord] the row read at the start;
    [currentBalance = creditsResult.rows[0]?.credits_balance ||
                      creditsRecord.credits_balance]. *)
Definition refresh_monthly (e : env) (now : Z) (is_paid : bool) (dbMemberId : Z)
    (creditsRecord : credits_row) (creditsResult : option credits_row) (d : db)
    : db * option credits_row :=
  let monthlyCredits :=
    if is_paid then monthly_credits_paid e else monthly_credits_free e in
  let currentBalance :=
    Js.or_default (credits_balance <$> creditsResult) (credits_balance creditsRecord) in
  let newBalance := currentBalance + monthlyCredits in
  let '(d1, rows) := update_member_credits dbMemberId newBalance (Some now) d in
  (insert_credit_history
     (HistoryRow dbMemberId monthlyCredits monthly_refresh newBalance None
        ("Monthly credit refresh: " ++ tier_name is_paid ++ " member")) d1,
   rows).

(** The [else] branch: a returning user. *)
Definition reconcile_returning (e : env) (now : Z)
    (previousPaid : bool) (previousTgs : list string)
    (is_paid : bool) (tags : list string) (dbMemberId : Z)
    (creditsRecord : credits_row) (d : db) : db * option credits_row :=
  let lastRefresh := last_refreshed_at creditsRecord in
  let tagsChanged := negb (bool_decide (previousTgs = tags)) in
  let '(d1, creditsResult) :=
    if negb (Bool.eqb previousPaid is_paid) || tagsChanged then
      if negb previousPaid && is_paid
      then award_upgrade_bonus e dbMemberId creditsRecord d
      else (d, Some creditsRecord)
    else (d, Some creditsRecord) in
  if lastRefresh <? oneMonthAgo now
  then refresh_monthly e now is_paid dbMemberId creditsRecord creditsResult d1
  else (d1, creditsResult).

(** "2. Handle Credits (Initial Grant & Monthly Replenishment)". *)
Definition reconcile_credits (e : env) (now : Z)
    (previousPaid : bool) (previousTgs : list string)
    (is_paid : bool) (tags : list string) (dbMemberId : Z) (isNewUser : bool)
    (d : db) : db * option credits_row :=
  match member_credits d !! dbMemberId with
  | Some creditsRecord =>
      if isNewUser
      then grant_initial_credits e now is_paid dbMemberId d
      else reconcile_returning e now previousPaid previousTgs is_paid tags
             dbMemberId creditsRecord d
  | None => grant_initial_credits e now is_paid dbMemberId d
  end.

(** The statements between [BEGIN] and the end of the [try] block of the
    settlement: one [UPDATE], two [INSERT]s per tag, [COMMIT]. *)
Definition settlement_statements (dbMemberId newBalance : Z)
    (tagsToProcess : list purchase) : list (db -> db) :=
  (fun d => fst (update_member_credits dbMemberId newBalance None d))
  :: flat_map (fun p =>
       [ insert_processed_purchase_tag (PptRow dbMemberId (p_tag p) (p_credits p));
         insert_credit_history
           (HistoryRow dbMemberId (p_credits p) purchase_credit newBalance None
              ("One-time purchase: " ++ p_tag p)) ]) tagsToProcess
  ++ [fun d => d].

(** Run statements number [k], [k+1], ... in order; [None] when the one
    numbered [fault] throws (it has no effect of its own). *)
Fixpoint run_statements (fault : option nat) (k : nat) (ss : list (db -> db))
    (d : db) : option db :=
  match ss with
  | [] => Some d
  | s :: rest =>
      if bool_decide (fault = Some k) then None
      else run_statements fault (S k) rest (s d)
  end.

(** [tagsToDelete]: the tags whose admin id was found ([if (adminTagId)]). *)
Definition tags_to_delete (admin_tag_id : string -> option Z)
    (purchaseTags : list purchase) : list Z :=
  omap (fun p => match admin_tag_id (p_tag p) with
                 | Some id => if id =? 0 then None else Some id
                 | None => None
                 end) purchaseTags.

(** "If there are any new credits to add, perform one transaction".
    [BEGIN], the writes and [COMMIT] or [ROLLBACK] are issued through
    [pool.query]; here they are taken to reach one session, as they do while
    no other request takes a client of the pool in between.  A statement that
    throws leaves the [try] block, and the [ROLLBACK] of the [catch] block
    discards the writes made since [BEGIN].  [settle_purchases_pooled] below
    follows the statements through the sessions of the pool without that
    assumption, and is this function when they stay on one session. *)
Definition settle_purchases (ev : auth_event) (dbMemberId : Z)
    (tagsToProcess : list purchase) (creditsResult : option credits_row)
    (d : db) : db * option credits_row * list string * list Z :=
  let totalCreditsToAdd := foldr Z.add 0 (p_credits <$> tagsToProcess) in
  if 0 <? totalCreditsToAdd then
    if bool_decide (ev_fault ev = Some 0%nat) then (d, creditsResult, [], [])
    else
      (* BEGIN *)
      match creditsResult with
      | Some row =>
          let newBalance := credits_balance row + totalCreditsToAdd in
          match run_statements (ev_fault ev) 1
                  (settlement_statements dbMemberId newBalance tagsToProcess) d with
          | Some d' =>
              (d', Some (CreditsRow newBalance (last_refreshed_at row)),
               p_tag <$> tagsToProcess,
               tags_to_delete (ev_admin_tag_id ev) tagsToProcess)
          | None => (d (* ROLLBACK *), creditsResult, [], [])
          end
      | None => (d (* ROLLBACK *), creditsResult, [], [])
      end
  else (d, creditsResult, [], []).

(** "3. Process One-Time Purchase Tags". *)
Definition process_purchase_tags (ev : auth_event) (dbMemberId : Z)
    (creditsResult : option credits_row) (d : db)
    : db * option credits_row * list string * list Z :=
  let purchaseTags := detect_purchase_tags (md_tags (ev_member ev)) in
  if (0 <? length purchaseTags)%nat
  then settle_purchases ev dbMemberId purchaseTags creditsResult d
  else (d, creditsResult, [], []).

Definition db_error_result : auth_result :=
  AuthResult None (Some 0) None [] [] true.

(** The block "Database integration: Upsert member data and handle credits". *)
Definition auth_database_integration (e : env) (ev : auth_event) (d : db)
    : db * auth_result :=
  let md := ev_member ev in
  if negb (md_id md =? 0) && DATABASE_URL e then
    let previousPaid := previousPaidStatus d (md_id md) in
    let previousTgs := previousTags d (md_id md) in
    let is_paid := currentIsPaid e md in
    match upsert_member (ev_now ev) md is_paid d with
    | (d1, Some (dbMemberId, firstSeenAt)) =>
        let isNewUser := ev_now ev - firstSeenAt <? 30000 in
        let '(d2, creditsResult) :=
          reconcile_credits e (ev_now ev) previousPaid previousTgs is_paid
            (md_tags md) dbMemberId isNewUser d1 in
        let '(d3, creditsResult', processed, deleted) :=
          process_purchase_tags ev dbMemberId creditsResult d2 in
        match creditsResult' with
        | Some finalCreditsData =>
            (d3, AuthResult (Some dbMemberId)
                   (Some (credits_balance finalCreditsData))
                   (Some isNewUser) processed deleted false)
        | None => (d3, db_error_result)
        end
    | (d1, None) => (d1, db_error_result)
    end
  else if negb (DATABASE_URL e) then (d, AuthResult None (Some 0) None [] [] false)
  else (d, AuthResult None None None [] [] false).

(** ** POST /api/credits/spend *)

(** The request body: [sr_circle_member_id] is [0] when the field is missing
    or falsy, [sr_credits_cost] is [None] when the field is absent (the
    destructuring default [credits_cost = 1] applies). *)
Record spend_request := SpendRequest {
  sr_circle_member_id : Z;
  sr_action_type : string;
  sr_credits_cost : option Z;
  sr_metadata : string
}.

Inductive spend_response :=
  | SpendOk (action_id credits_spent credits_remaining : Z)
  | SpendError (status : Z) (message : string).

Definition insufficient_credits : string := "Insufficient credits".
Definition record_not_found : string := "Member or credit record not found".

(** [SELECT m.id, mc.credits_balance FROM members m JOIN member_credits mc
     ON m.id = mc.member_id WHERE m.circle_member_id = $1 FOR UPDATE] *)
Definition select_member_credits (circle_member_id : Z) (d : db) : option (Z * Z) :=
  m ← members d !! circle_member_id;
  mc ← member_credits d !! m_id m;
  Some (m_id m, credits_balance mc).

(** "Deduct credits": the [UPDATE]. *)
Definition deduct_credits (memberId newBalance : Z) (d : db) : db :=
  fst (update_member_credits memberId newBalance None d).

(** "Log credit history": the [INSERT] of the [action_cost] row. *)
Definition log_action_cost (memberId credits_cost newBalance actionId : Z)
    (action_type : string) (d : db) : db :=
  insert_credit_history
    (HistoryRow memberId (- credits_cost) action_cost newBalance (Some actionId)
       ("Credits spent on " ++ action_type)) d.

(** The transaction on the dedicated client: the thrown message, or the
    action id and the new balance after [COMMIT].  Both [throw]s come before
    the first write, so [ROLLBACK] leaves the database as it was.  Here every
    value fits its column and the database refuses no statement;
    [spend_transaction_typed] below has the column types and the refusals. *)
Definition spend_transaction (circle_member_id : Z) (action_type : string)
    (credits_cost : Z) (metadata : string) (d : db) : db * (string + Z * Z) :=
  match select_member_credits circle_member_id d with
  | None => (d, inl record_not_found)
  | Some (memberId, balance) =>
      if balance <? credits_cost then (d, inl insufficient_credits)
      else
        let newBalance := balance - credits_cost in
        let d1 := deduct_credits memberId newBalance d in
        let '(d2, actionId) :=
          insert_app_action memberId action_type credits_cost metadata d1 in
        let d3 := log_action_cost memberId credits_cost newBalance actionId action_type d2 in
        (d3, inr (actionId, newBalance))
  end.

(** [error.message === 'Insufficient credits' ? 402 :
     error.message.includes('not found') ? 404 : 500] *)
Definition spend_status_code (message : string) : Z :=
  if String.eqb message "Insufficient credits" then 402
  else if Js.includes message "not found" then 404
  else 500.

Definition spend_credits (e : env) (req : spend_request) (d : db)
    : db * spend_response :=
  let credits_cost := default 1 (sr_credits_cost req) in
  if negb (DATABASE_URL e) then
    (d, SpendError 501 "Credit system requires database configuration")
  else if (sr_circle_member_id req =? 0) || String.eqb (sr_action_type req) "" then
    (d, SpendError 400 "circle_member_id and action_type are required")
  else
    match spend_transaction (sr_circle_member_id req) (sr_action_type req)
            credits_cost (sr_metadata req) d with
    | (d', inr (actionId, newBalance)) => (d', SpendOk actionId credits_cost newBalance)
    | (d', inl message) => (d', SpendError (spend_status_code message) message)
    end.

(** ** POST /api/admin/refresh-credits/:circle_member_id *)

Inductive admin_operation :=
  | AddedBonus (n : Z)
  | AddedMonthlyRefresh (n : Z).

Inductive admin_response :=
  | AdminNotFound
  | AdminOk (previous_balance credits_added current_balance : Z)
            (operations : list admin_operation).

(** The handler behind [checkAdminToken]; [admin_email] is
    [req.adminUser.email]. *)
Definition admin_refresh_credits (e : env) (now : Z) (admin_email : string)
    (circle_member_id bonus_credits : Z) (force_refresh : bool) (d : db)
    : db * admin_response :=
  match members d !! circle_member_id with
  | None => (d, AdminNotFound)
  | Some member =>
      (* LEFT JOIN: the credit columns are NULL without an account *)
      let member_credits_balance :=
        credits_balance <$> (member_credits d !! m_id member) in
      let previous := Js.or_default member_credits_balance 0 in
      let '(d1, added1, ops1) :=
        if 0 <? bonus_credits then
          let newBalance := previous + bonus_credits in
          let d' := fst (update_member_credits (m_id member) newBalance None d) in
          (insert_credit_history
             (HistoryRow (m_id member) bonus_credits admin_bonus newBalance None
                ("Manual credit bonus added by admin " ++ admin_email)) d',
           bonus_credits, [AddedBonus bonus_credits])
        else (d, 0, []) in
      let '(d2, added2, ops2) :=
        if force_refresh then
          let monthlyCredits :=
            if default false (m_is_paid member)
            then monthly_credits_paid e else monthly_credits_free e in
          let currentBalance := previous + Js.or_default (Some bonus_credits) 0 in
          let newBalance := currentBalance + monthlyCredits in
          let d' := fst (update_member_credits (m_id member) newBalance (Some now) d1) in
          (insert_credit_history
             (HistoryRow (m_id member) monthlyCredits admin_refresh newBalance None
                ("Manual monthly refresh by admin " ++ admin_email)) d',
           monthlyCredits, [AddedMonthlyRefresh monthlyCredits])
        else (d1, 0, []) in
      let finalBalance :=
        Js.or_default (credits_balance <$> (member_credits d2 !! m_id member)) 0 in
      (d2, AdminOk previous (added1 + added2) finalBalance (ops1 ++ ops2))
  end.

(** ** Concurrent spend requests

    Each request runs its transaction on a client of its own; requests
    interleave at every [await].  [SELECT ... FOR UPDATE] takes the lock of
    the rows it returns and waits while another transaction holds it; the
    writes of a transaction reach the committed tables at [COMMIT], which
    also releases the lock, as [ROLLBACK] does. *)

Module Concurrent.

(** The statement a request is about to run, with the values its handler
    holds in local variables. *)
Inductive pc :=
  | AtStart
  | AtBegin
  | AtSelect
  | AtUpdate (memberId balance : Z)
  | AtInsertAction (memberId newBalance : Z)
  | AtInsertHistory (memberId newBalance actionId : Z)
  | AtCommit (memberId newBalance actionId : Z)
  | AtRollback (message : string) (locked : option Z)
  | Done (response : spend_response).

Record system := System {
  committed : db;
  row_locks : gmap Z nat;           (* member id -> request holding its rows *)
  threads : list (spend_request * pc)
}.

Definition cost_of (req : spend_request) : Z := default 1 (sr_credits_cost req).

(** The writes of one spend transaction, applied at [COMMIT]. *)
Definition commit_spend (req : spend_request) (memberId newBalance actionId : Z)
    (d : db) : db :=
  log_action_cost memberId (cost_of req) newBalance actionId (sr_action_type req)
    (store_app_action
       (ActionRow actionId memberId (sr_action_type req) (cost_of req)
          (sr_metadata req) true)
       (deduct_credits memberId newBalance d)).

Definition release (locked : option Z) (locks : gmap Z nat) : gmap Z nat :=
  match locked with
  | Some memberId => delete memberId locks
  | None => locks
  end.

(** One statement of request [i], run to its next [await]: the new committed
    tables, lock table and position of the request; [None] when the request
    cannot move (it waits for a lock, or has answered). *)
Definition step_thread (e : env) (i : nat) (req : spend_request) (p : pc)
    (d : db) (locks : gmap Z nat) : option (db * gmap Z nat * pc) :=
  match p with
  | AtStart =>
      if negb (DATABASE_URL e) then
        Some (d, locks, Done (SpendError 501 "Credit system requires database configuration"))
      else if (sr_circle_member_id req =? 0) || String.eqb (sr_action_type req) "" then
        Some (d, locks, Done (SpendError 400 "circle_member_id and action_type are required"))
      else Some (d, locks, AtBegin)
  | AtBegin => Some (d, locks, AtSelect)
  | AtSelect =>
      match select_member_credits (sr_circle_member_id req) d with
      | None => Some (d, locks, AtRollback record_not_found None)
      | Some (memberId, balance) =>
          match locks !! memberId with
          | Some _ => None
          | None =>
              if balance <? cost_of req
              then Some (d, <[memberId := i]> locks,
                         AtRollback insufficient_credits (Some memberId))
              else Some (d, <[memberId := i]> locks, AtUpdate memberId balance)
          end
      end
  | AtUpdate memberId balance =>
      Some (d, locks, AtInsertAction memberId (balance - cost_of req))
  | AtInsertAction memberId newBalance =>
      let '(d1, actionId) := nextval_app_actions d in
      Some (d1, locks, AtInsertHistory memberId newBalance actionId)
  | AtInsertHistory memberId newBalance actionId =>
      Some (d, locks, AtCommit memberId newBalance actionId)
  | AtCommit memberId newBalance actionId =>
      Some (commit_spend req memberId newBalance actionId d,
            delete memberId locks,
            Done (SpendOk actionId (cost_of req) newBalance))
  | AtRollback message locked =>
      Some (d, release locked locks,
            Done (SpendError (spend_status_code message) message))
  | Done _ => None
  end.

Definition step (e : env) (i : nat) (s : system) : option system :=
  '(req, p) ← threads s !! i;
  '(d, locks, p') ← step_thread e i req p (committed s) (row_locks s);
  Some (System d locks (<[i := (req, p')]> (threads s))).

(** A schedule names the request that moves next; a request that cannot
    move leaves the system as it is. *)
Fixpoint run (e : env) (schedule : list nat) (s : system) : system :=
  match schedule with
  | [] => s
  | i :: rest => run e rest (default s (step e i s))
  end.

Definition init (d : db) (reqs : list spend_request) : system :=
  System d ∅ ((fun r => (r, AtStart)) <$> reqs).

(** Request [i] has answered 200. *)
Definition succeeded (i : nat) (s : system) : Prop :=
  exists req actionId spent remaining,
    threads s !! i = Some (req, Done (SpendOk actionId spent remaining)).

(** *** The invariant of the lock discipline *)

(** The request is inside its critical section: between a [SELECT ... FOR
    UPDATE] that returned a row and its [COMMIT] or [ROLLBACK]. *)
Definition holding (p : pc) : bool :=
  match p with
  | AtUpdate _ _ | AtInsertAction _ _ | AtInsertHistory _ _ _
  | AtCommit _ _ _ | AtRollback _ (Some _) => true
  | _ => false
  end.

(** What a request has been charged so far. *)
Definition done_cost (t : spend_request * pc) : Z :=
  match snd t with
  | Done (SpendOk _ spent _) => spent
  | _ => 0
  end.

Definition spent_total (ts : list (spend_request * pc)) : Z :=
  foldr Z.add 0 (done_cost <$> ts).

(** Request [i] against the account [mid] of member [cid], whose committed
    balance is [b]: inside its critical section it owns the lock, and the
    balance it read, or the one it is about to write, agrees with [b]. *)
Definition thread_ok (cid mid b : Z) (locks : gmap Z nat) (i : nat)
    (t : spend_request * pc) : Prop :=
  sr_circle_member_id (fst t) = cid /\
  match snd t with
  | AtUpdate mid' balance =>
      mid' = mid /\ locks !! mid = Some i /\ balance = b /\ cost_of (fst t) <= balance
  | AtInsertAction mid' newBalance
  | AtInsertHistory mid' newBalance _
  | AtCommit mid' newBalance _ =>
      mid' = mid /\ locks !! mid = Some i /\
      newBalance = b - cost_of (fst t) /\ 0 <= newBalance
  | AtRollback _ (Some mid') => mid' = mid /\ locks !! mid = Some i
  | Done (SpendOk _ spent _) => spent = cost_of (fst t)
  | _ => True
  end.

(** The system started from an account of [b0] credits. *)
Definition inv (cid : Z) (m : member_row) (b0 : Z) (s : system) : Prop :=
  members (committed s) !! cid = Some m /\
  exists b refreshed,
    member_credits (committed s) !! m_id m = Some (CreditsRow b refreshed) /\
    b = b0 - spent_total (threads s) /\
    (0 <= b0 -> 0 <= b) /\
    forall i t, threads s !! i = Some t ->
                thread_ok cid (m_id m) b (row_locks s) i t.

End Concurrent.

(** ** Reading the ledger *)

(** The stored balance of a member's account, if there is one. *)
Definition balance_of (d : db) (member_id : Z) : option Z :=
  credits_balance <$> (member_credits d !! member_id).

(** The history rows of one member. *)
Definition history_of (member_id : Z) (d : db) : list history_row :=
  filter (fun r => ch_member_id r = member_id) (credit_history d).

(** [sum(historyEntries.changeAmount)] *)
Definition sum_change_amounts (l : list history_row) : Z :=
  foldr Z.add 0 (ch_change_amount <$> l).

Definition of_type (t : change_type) (l : list history_row) : list history_row :=
  filter (fun r => ch_change_type r = t) l.

(** The history rows that [d'] has beyond those of [d]. *)
Definition history_appended (d d' : db) : list history_row :=
  drop (length (credit_history d)) (credit_history d').

Definition actions_appended (d d' : db) : list action_row :=
  drop (length (app_actions d)) (app_actions d').

Definition purchase_tags_appended (d d' : db) : list ppt_row :=
  drop (length (processed_purchase_tags d)) (processed_purchase_tags d').

(** The history rows the authentication handler writes. *)

Definition initial_grant_row (e : env) (is_paid : bool) (member_id : Z) : history_row :=
  let initialCredits :=
    if is_paid then initial_credits_paid e else initial_credits_free e in
  HistoryRow member_id initialCredits initial_grant initialCredits None
    ("Initial credit grant: " ++ tier_name is_paid ++ " member").

Definition upgrade_bonus_row (e : env) (member_id balance_after : Z) : history_row :=
  HistoryRow member_id (initial_credits_paid e - initial_credits_free e)
    upgrade_bonus balance_after None
    "Credit bonus for upgrading to paid membership".

Definition monthly_refresh_row (e : env) (is_paid : bool)
    (member_id balance_after : Z) : history_row :=
  HistoryRow member_id
    (if is_paid then monthly_credits_paid e else monthly_credits_free e)
    monthly_refresh balance_after None
    ("Monthly credit refresh: " ++ tier_name is_paid ++ " member").

(** The member row the upsert stores. *)
Definition upserted_row (e : env) (ev : auth_event) (id first_seen_at : Z) : member_row :=
  let md := ev_member ev in
  MemberRow id (md_email md) (md_name md) (md_is_admin md) (md_is_moderator md)
    (Some (currentIsPaid e md)) (Some (md_tags md)) first_seen_at (ev_now ev).

(** The rows a committed settlement of [ps] writes. *)
Definition purchase_rows (member_id balance_after : Z) (ps : list purchase)
    : list history_row :=
  (fun p => HistoryRow member_id (p_credits p) purchase_credit balance_after None
              ("One-time purchase: " ++ p_tag p)) <$> ps.

Definition purchase_tag_rows (member_id : Z) (ps : list purchase) : list ppt_row :=
  (fun p => PptRow member_id (p_tag p) (p_credits p)) <$> ps.

Definition purchases_total (ps : list purchase) : Z :=
  foldr Z.add 0 (p_credits <$> ps).

(** The fault of the event hits a statement of the settlement of [ps]:
    statement 0 is [BEGIN], statement [2 * length ps + 2] is [COMMIT]. *)
Definition settlement_fails (ev : auth_event) (ps : list purchase) : bool :=
  match ev_fault ev with
  | Some k => (k <=? 2 * length ps + 2)%nat
  | None => false
  end.

(** The refresh gate in the words of the specification,
    [now - lastRefreshedAt >= 1 month] with a calendar month: [last] is no
    later than [now] moved back one month. *)
Definition one_month_elapsed (last now : Z) : Prop := last <= oneMonthAgo now.

(** ** Sample data *)

Module Sample.

(** No credit variable set: the built-in defaults apply. *)
Definition env0 : env := Env true None None None None default_paid_member_tags.

Definition empty_db : db := Db ∅ ∅ [] [] [] 1 1.

(** 2024-03-31T00:00:00Z *)
Definition t0 : Z := 1711843200000.

(** 2024-03-15T12:00:00Z, and the same time of day one month earlier. *)
Definition t1 : Z := 1710504000000.
Definition t1_month_before : Z := 1707998400000.

Definition alice (tags : list string) : member_data :=
  MemberData 501 "alice@example.com" "Alice" false false None tags.

Definition alice_row : member_row :=
  MemberRow 1 "alice@example.com" "Alice" false false (Some false) (Some []) 0 0.

(** Alice, known since the epoch, with [balance] credits refreshed at [refreshed]. *)
Definition db_with (balance refreshed : Z) : db :=
  Db {[ 501 := alice_row ]} {[ 1 := CreditsRow balance refreshed ]} [] [] [] 2 1.

(** Alice in the directory, without a credit account. *)
Definition db_no_account : db :=
  Db {[ 501 := alice_row ]} ∅ [] [] [] 2 1.

Definition no_admin_tags : string -> option Z := fun _ => None.

Definition spend (cost : Z) : spend_request :=
  SpendRequest 501 "generate_image" (Some cost) "{}".

(** Alice signs in at [now] carrying [tags]. *)
Definition sign_in (now : Z) (tags : list string) (fault : option nat) : auth_event :=
  AuthEvent now (alice tags) no_admin_tags fault.

End Sample.

(** ** The view [member_summary] and the admin statistics *)

(** [(SELECT COALESCE(SUM(credits_cost), 0) FROM app_actions
      WHERE member_id = m.id AND success = true)] *)
Definition total_credits_spent (member_id : Z) (d : db) : Z :=
  foldr Z.add 0
    (a_credits_cost <$>
       filter (fun a => a_member_id a = member_id /\ a_success a = true)
              (app_actions d)).

(** [(SELECT COUNT( * ) FROM app_actions WHERE member_id = m.id)] *)
Definition total_actions (member_id : Z) (d : db) : nat :=
  length (filter (fun a => a_member_id a = member_id) (app_actions d)).

(** A row of the view [member_summary]: the member's columns, then
    [COALESCE(mc.credits_balance, 0)], [mc.last_refreshed_at] (NULL without an
    account) and the two counts. *)
Record summary_row := SummaryRow {
  s_member : member_row;
  s_credits_balance : Z;
  s_credits_last_refreshed : option Z;
  s_total_actions : nat;
  s_total_credits_spent : Z
}.

(** The row of [member_summary] for one [circle_member_id]. *)
Definition member_summary (circle_member_id : Z) (d : db) : option summary_row :=
  m ← members d !! circle_member_id;
  Some (SummaryRow m
          (default 0 (credits_balance <$> (member_credits d !! m_id m)))
          (last_refreshed_at <$> (member_credits d !! m_id m))
          (total_actions (m_id m) d)
          (total_credits_spent (m_id m) d)).

(** GET /api/admin/stats, without [actions_24h] (it reads [created_at]). *)
Record stats := Stats {
  total_members : nat;
  total_credits : Z;
  total_actions_logged : nat
}.

(** [SELECT COALESCE(SUM(credits_balance), 0) FROM member_credits] *)
Definition sum_balances (mc : gmap Z credits_row) : Z :=
  map_fold (fun _ r acc => credits_balance r + acc) 0 mc.

Definition admin_stats (d : db) : stats :=
  Stats (size (members d)) (sum_balances (member_credits d)) (length (app_actions d)).

(** ** Progress of concurrent spend requests *)

(** The member whose rows the request has locked, if it is inside its
    critical section. *)
Definition lock_held (p : Concurrent.pc) : option Z :=
  match p with
  | Concurrent.AtUpdate memberId _
  | Concurrent.AtInsertAction memberId _
  | Concurrent.AtInsertHistory memberId _ _
  | Concurrent.AtCommit memberId _ _ => Some memberId
  | Concurrent.AtRollback _ locked => locked
  | _ => None
  end.

(** Every row lock belongs to a request that is inside its critical section
    on that very member. *)
Definition locks_owned (s : Concurrent.system) : Prop :=
  forall memberId i,
    Concurrent.row_locks s !! memberId = Some i ->
    exists req p, Concurrent.threads s !! i = Some (req, p) /\
                  lock_held p = Some memberId.

(** The statements a request has still to run, at most. *)
Definition statements_left (p : Concurrent.pc) : nat :=
  match p with
  | Concurrent.AtStart => 8
  | Concurrent.AtBegin => 7
  | Concurrent.AtSelect => 6
  | Concurrent.AtUpdate _ _ => 5
  | Concurrent.AtInsertAction _ _ => 4
  | Concurrent.AtInsertHistory _ _ _ => 3
  | Concurrent.AtCommit _ _ _ => 2
  | Concurrent.AtRollback _ _ => 1
  | Concurrent.Done _ => 0
  end%nat.

Definition work_left (ts : list (spend_request * Concurrent.pc)) : nat :=
  foldr Nat.add 0%nat ((fun t => statements_left (snd t)) <$> ts).

(** Every request has been answered. *)
Definition all_answered (s : Concurrent.system) : Prop :=
  forall i req p, Concurrent.threads s !! i = Some (req, p) ->
                  exists response, p = Concurrent.Done response.

(** ** The server as a whole *)

(** The requests that write to the database, as they reach their handlers
    (an admin request is one that has passed [checkAdminToken]). *)
Inductive request :=
  | PostAuth (ev : auth_event)
  | PostCreditsSpend (req : spend_request)
  | PostAdminRefreshCredits (now : Z) (admin_email : string)
      (circle_member_id bonus_credits : Z) (force_refresh : bool).

Definition handle (e : env) (r : request) (d : db) : db :=
  match r with
  | PostAuth ev => fst (auth_database_integration e ev d)
  | PostCreditsSpend req => fst (spend_credits e req d)
  | PostAdminRefreshCredits now admin_email circle_member_id bonus_credits force_refresh =>
      fst (admin_refresh_credits e now admin_email circle_member_id bonus_credits
             force_refresh d)
  end.

(** Requests served one after the other. *)
Definition serve (e : env) (rs : list request) (d : db) : db :=
  foldl (fun d r => handle e r d) d rs.

(** The history rows of the trigger carry one of its two notes; no handler
    writes either. *)
Definition written_by_trigger (h : history_row) : bool :=
  String.eqb (ch_notes h) "Automatic log from credit balance change"
  || String.eqb (ch_notes h) "Initial credit grant for new member".

(** The sum of the changes the trigger has logged for one member. *)
Definition trigger_total (member_id : Z) (d : db) : Z :=
  sum_change_amounts
    (filter (fun h => written_by_trigger h = true) (history_of member_id d)).

Definition trigger_sum (l : list history_row) : Z :=
  sum_change_amounts (filter (fun h => written_by_trigger h = true) l).

(** Every account's balance is what the trigger has logged for it. *)
Definition ledger_exact (d : db) : Prop :=
  forall member_id, default 0 (balance_of d member_id) = trigger_total member_id d.

(** No account is in debt. *)
Definition balances_nonneg (d : db) : Prop :=
  forall member_id row,
    member_credits d !! member_id = Some row -> 0 <= credits_balance row.

(** Credit amounts of the configuration that never take credits away: none
    is negative, and the paid initial grant is at least the free one (their
    difference is the upgrade bonus). *)
Definition env_ok (e : env) : Prop :=
  0 <= initial_credits_free e <= initial_credits_paid e /\
  0 <= monthly_credits_free e /\ 0 <= monthly_credits_paid e.

(** An admin request does not carry a negative bonus. *)
Definition request_ok (r : request) : Prop :=
  match r with
  | PostAdminRefreshCredits _ _ _ bonus_credits _ => 0 <= bonus_credits
  | _ => True
  end.

(** Every [action_cost] row of the history points at an action row of the
    same member and the same cost. *)
Definition debits_backed (d : db) : Prop :=
  forall h, h ∈ credit_history d -> ch_change_type h = action_cost ->
    exists a, a ∈ app_actions d /\
              ch_reference_id h = Some (a_id a) /\
              a_member_id a = ch_member_id h /\
              a_credits_cost a = - ch_change_amount h /\
              a_success a = true.

(** What one request may do to the tables: it touches the account of one
    member [mid] and appends to the three logs. *)
Definition footprint (e : env) (r : request) (mid : Z) (d d' : db) : Prop :=
  exists hs acts ptr,
    credit_history d' = credit_history d ++ hs /\
    app_actions d' = app_actions d ++ acts /\
    processed_purchase_tags d' = processed_purchase_tags d ++ ptr /\
    (forall id, id <> mid -> member_credits d' !! id = member_credits d !! id) /\
    Forall (fun h => ch_member_id h = mid) hs /\
    trigger_sum hs = default 0 (balance_of d' mid) - default 0 (balance_of d mid) /\
    (forall h, h ∈ hs -> ch_change_type h = action_cost ->
       exists a, a ∈ acts /\
                 ch_reference_id h = Some (a_id a) /\
                 a_member_id a = ch_member_id h /\
                 a_credits_cost a = - ch_change_amount h /\
                 a_success a = true) /\
    (forall cid m, members d !! cid = Some m ->
       exists m', members d' !! cid = Some m' /\ m_id m' = m_id m /\
                  m_first_seen_at m' = m_first_seen_at m) /\
    (env_ok e -> request_ok r ->
     (forall row, member_credits d !! mid = Some row -> 0 <= credits_balance row) ->
     forall row, member_credits d' !! mid = Some row -> 0 <= credits_balance row) /\
    Forall (fun a => a_member_id a = mid) acts /\
    Forall (fun p => ppt_member_id p = mid) ptr.

(** A run of history rows of one member whose trigger rows add up to [delta]
    and none of which is an [action_cost] row. *)
Definition block (mid delta : Z) (l : list history_row) : Prop :=
  Forall (fun h => ch_member_id h = mid) l /\
  trigger_sum l = delta /\
  Forall (fun h => ch_change_type h <> action_cost) l.

(** ** GET /api/credits/:circle_member_id *)



(** ** The reach of the refresh gate *)

(** The day [oneMonthAgo] lands on, from the day number of now. *)
Definition month_back (day : Z) : Z :=
  let '(y, m, d) := JsDate.civil_from_days day in
  JsDate.MakeDay y (m - 1 - 1) d.

(** [day - month_back day] lies between 28 and 31 for the [n] days from
    [day] on. *)
Fixpoint month_back_in_range (n : nat) (day : Z) : bool :=
  match n with
  | O => true
  | S n' =>
      let days := day - month_back day in
      (28 <=? days) && (days <=? 31) && month_back_in_range n' (day + 1)
  end.

(** ** Admin tokens *)

(** A value of the map [adminTokens]. *)
Record token_data := TokenData {
  td_circle_member_id : Z;
  td_name : string;
  td_email : string;
  td_expiresAt : Z;
  td_createdAt : Z
}.

(** [cleanupExpiredTokens()]: every entry with [data.expiresAt < now] is
    deleted. *)
Definition cleanupExpiredTokens (now : Z) (adminTokens : gmap string token_data)
    : gmap string token_data :=
  filter (fun kv => (td_expiresAt (snd kv) <? now) = false) adminTokens.

Inductive token_response :=
  | TokenIssued (token : string) (expiresAt : Z)
  | TokenRefused (status : Z).

(** POST /api/admin/generate-token.  [randomBytes] is the value of
    [crypto.randomBytes(32).toString('hex')]; [circle_member_id] is [0] when
    the field is missing or falsy; the clock is read once. *)
Definition generate_token (e : env) (now : Z) (randomBytes : string)
    (circle_member_id : Z) (d : db) (adminTokens : gmap string token_data)
    : gmap string token_data * token_response :=
  if circle_member_id =? 0 then (adminTokens, TokenRefused 400)
  else if negb (DATABASE_URL e) then (adminTokens, TokenRefused 501)
  else
    (* SELECT ... WHERE circle_member_id = $1 AND is_admin = true *)
    match members d !! circle_member_id with
    | Some m =>
        if m_is_admin m then
          let expiresAt := now + 15 * 60 * 1000 in
          (cleanupExpiredTokens now
             (<[randomBytes := TokenData circle_member_id (m_name m) (m_email m)
                                 expiresAt now]> adminTokens),
           TokenIssued randomBytes expiresAt)
        else (adminTokens, TokenRefused 403)
    | None => (adminTokens, TokenRefused 403)
    end.

(** [s.replace(pattern, '')] with a string pattern: the first occurrence of
    the pattern is removed. *)
Fixpoint remove_first (pattern s : string) : string :=
  if String.prefix pattern s
  then String.substring (String.length pattern)
         (String.length s - String.length pattern) s
  else match s with
       | String c r => String c (remove_first pattern r)
       | EmptyString => EmptyString
       end.

(** A string used as a condition: [undefined] and [''] are falsy. *)
Definition truthy (s : option string) : option string :=
  match s with
  | Some EmptyString => None
  | _ => s
  end.

(** [req.query.token || (req.headers.authorization &&
     req.headers.authorization.replace('Bearer ', ''))], [None] when the
    result is falsy. *)
Definition request_token (query_token authorization : option string) : option string :=
  match truthy query_token with
  | Some token => Some token
  | None => truthy (remove_first "Bearer " <$> truthy authorization)
  end.

Inductive token_check :=
  | TokenAccepted (adminUser : token_data)
  | TokenRejected (status : Z) (error : string).

(** The middleware [checkAdminToken]. *)
Definition checkAdminToken (e : env) (now : Z) (query_token authorization : option string)
    (adminTokens : gmap string token_data) : gmap string token_data * token_check :=
  if negb (DATABASE_URL e) then (adminTokens, TokenRejected 501 "Database not configured")
  else
    match request_token query_token authorization with
    | None => (adminTokens, TokenRejected 401 "Admin token required")
    | Some token =>
        match adminTokens !! token with
        | None => (adminTokens, TokenRejected 401 "Invalid token")
        | Some tokenData =>
            if td_expiresAt tokenData <? now
            then (delete token adminTokens, TokenRejected 401 "Token expired")
            else (adminTokens, TokenAccepted tokenData)
        end
    end.

(** ** The configured paid tags *)

(** [s.split(',')] *)
Fixpoint split_comma (s : string) : list string :=
  match s with
  | EmptyString => [EmptyString]
  | String c r =>
      if Ascii.eqb c ","%char then EmptyString :: split_comma r
      else match split_comma r with
           | piece :: pieces => String c piece :: pieces
           | [] => [String c EmptyString]
           end
  end.

(** [process.env.PAID_MEMBER_TAGS
      ? process.env.PAID_MEMBER_TAGS.split(',').map(tag => tag.trim().toLowerCase())
      : ['paid', 'premium', 'subscriber', 'member', 'vip', 'pro']];
    the variable is [None] when unset, and the empty string is falsy. *)
Definition parse_paid_member_tags (PAID_MEMBER_TAGS : option string) : list string :=
  match PAID_MEMBER_TAGS with
  | None | Some EmptyString => default_paid_member_tags
  | Some s => (fun tag => Js.toLowerCase (Js.trim tag)) <$> split_comma s
  end.

(** ** The sessions of the connection pool *)

(** [pool.query] takes whichever client of the pool is free, sends it one
    statement and gives it back; [pool.connect] keeps one client until
    [release].  Each client is a session of its own.  A write that reaches a
    session with no transaction in progress is committed at once; [BEGIN]
    opens a transaction on the session that receives it, and only the
    [COMMIT] or [ROLLBACK] that reaches the same session ends it. *)
Inductive query :=
  | Q_BEGIN
  | Q_WRITE (w : db -> db)
  | Q_COMMIT
  | Q_ROLLBACK.

(** A transaction in progress: the writes made in it so far, or aborted by a
    statement that failed. *)
Inductive transaction :=
  | Active (writes : list (db -> db))
  | Aborted.

(** What is committed, and so visible to every session, and the transactions
    in progress by client. *)
Record pool := Pool {
  committed : db;
  in_progress : gmap nat transaction
}.

Definition pool_query (client : nat) (q : query) (p : pool) : pool :=
  match q, in_progress p !! client with
  | Q_BEGIN, None => Pool (committed p) (<[client := Active []]> (in_progress p))
  | Q_BEGIN, Some _ => p
  | Q_WRITE w, None => Pool (w (committed p)) (in_progress p)
  | Q_WRITE w, Some (Active ws) =>
      Pool (committed p) (<[client := Active (ws ++ [w])]> (in_progress p))
  | Q_WRITE w, Some Aborted => p
  | Q_COMMIT, Some (Active ws) =>
      Pool (foldl (fun d w => w d) (committed p) ws) (delete client (in_progress p))
  | Q_COMMIT, Some Aborted => Pool (committed p) (delete client (in_progress p))
  | Q_COMMIT, None => p
  | Q_ROLLBACK, _ => Pool (committed p) (delete client (in_progress p))
  end.

(** A session whose transaction is aborted answers everything but [COMMIT]
    and [ROLLBACK] with an error. *)
Definition aborted_refuses (client : nat) (q : query) (p : pool) : bool :=
  match in_progress p !! client, q with
  | Some Aborted, (Q_BEGIN | Q_WRITE _) => true
  | _, _ => false
  end.

(** A statement that the session refuses has no effect of its own; inside a
    transaction it aborts the transaction. *)
Definition pool_refuse (client : nat) (p : pool) : pool :=
  match in_progress p !! client with
  | Some _ => Pool (committed p) (<[client := Aborted]> (in_progress p))
  | None => p
  end.

(** Statements number [k], [k+1], ... sent through [pool.query], statement
    [i] reaching the client [client i]; [false] when one throws: the one
    numbered [fault], or one that reaches a session whose transaction is
    aborted. *)
Fixpoint run_queries (client : nat -> nat) (fault : option nat) (k : nat)
    (qs : list query) (p : pool) : pool * bool :=
  match qs with
  | [] => (p, true)
  | q :: rest =>
      if bool_decide (fault = Some k) || aborted_refuses (client k) q p
      then (pool_refuse (client k) p, false)
      else run_queries client fault (S k) rest (pool_query (client k) q p)
  end.

(** The writes of the settlement: one [UPDATE], two [INSERT]s per tag. *)
Definition settlement_writes (dbMemberId newBalance : Z)
    (tagsToProcess : list purchase) : list (db -> db) :=
  (fun d => fst (update_member_credits dbMemberId newBalance None d))
  :: flat_map (fun p =>
       [ insert_processed_purchase_tag (PptRow dbMemberId (p_tag p) (p_credits p));
         insert_credit_history
           (HistoryRow dbMemberId (p_credits p) purchase_credit newBalance None
              ("One-time purchase: " ++ p_tag p)) ]) tagsToProcess.

(** "If there are any new credits to add, perform one transaction", statement
    by statement through [pool.query]: [BEGIN] is statement 0 and precedes
    the [try] block, the writes are 1, 2, ..., [COMMIT] follows them, and the
    [ROLLBACK] of the [catch] block is the statement after [COMMIT]. *)
Definition settle_purchases_pooled (client : nat -> nat) (ev : auth_event)
    (dbMemberId : Z) (tagsToProcess : list purchase)
    (creditsResult : option credits_row) (p : pool)
    : pool * option credits_row * list string * list Z :=
  let totalCreditsToAdd := foldr Z.add 0 (p_credits <$> tagsToProcess) in
  let rollback := client (2 * length tagsToProcess + 3)%nat in
  if 0 <? totalCreditsToAdd then
    if bool_decide (ev_fault ev = Some 0%nat) || aborted_refuses (client 0%nat) Q_BEGIN p
    then (pool_refuse (client 0%nat) p, creditsResult, [], [])
    else
      let p0 := pool_query (client 0%nat) Q_BEGIN p in
      match creditsResult with
      | Some row =>
          let newBalance := credits_balance row + totalCreditsToAdd in
          match run_queries client (ev_fault ev) 1
                  ((Q_WRITE <$> settlement_writes dbMemberId newBalance tagsToProcess)
                   ++ [Q_COMMIT]) p0 with
          | (p', true) =>
              (p', Some (CreditsRow newBalance (last_refreshed_at row)),
               p_tag <$> tagsToProcess,
               tags_to_delete (ev_admin_tag_id ev) tagsToProcess)
          | (p', false) => (pool_query rollback Q_ROLLBACK p', creditsResult, [], [])
          end
      | None => (pool_query rollback Q_ROLLBACK p0, creditsResult, [], [])
      end
  else (p, creditsResult, [], []).

(** "3. Process One-Time Purchase Tags", through the pool. *)
Definition process_purchase_tags_pooled (client : nat -> nat) (ev : auth_event)
    (dbMemberId : Z) (creditsResult : option credits_row) (p : pool)
    : pool * option credits_row * list string * list Z :=
  let purchaseTags := detect_purchase_tags (md_tags (ev_member ev)) in
  if (0 <? length purchaseTags)%nat
  then settle_purchases_pooled client ev dbMemberId purchaseTags creditsResult p
  else (p, creditsResult, [], []).

(** The database block of a sign-in that finds the pool at rest, no
    transaction in progress on any client: the statements before the
    settlement are then committed one by one whichever client they reach,
    and the settlement goes through [settle_purchases_pooled]. *)
Definition auth_database_integration_pooled (client : nat -> nat) (e : env)
    (ev : auth_event) (d : db) : pool * auth_result :=
  let md := ev_member ev in
  if negb (md_id md =? 0) && DATABASE_URL e then
    let previousPaid := previousPaidStatus d (md_id md) in
    let previousTgs := previousTags d (md_id md) in
    let is_paid := currentIsPaid e md in
    match upsert_member (ev_now ev) md is_paid d with
    | (d1, Some (dbMemberId, firstSeenAt)) =>
        let isNewUser := ev_now ev - firstSeenAt <? 30000 in
        let '(d2, creditsResult) :=
          reconcile_credits e (ev_now ev) previousPaid previousTgs is_paid
            (md_tags md) dbMemberId isNewUser d1 in
        let '(p3, creditsResult', processed, deleted) :=
          process_purchase_tags_pooled client ev dbMemberId creditsResult (Pool d2 ∅) in
        match creditsResult' with
        | Some finalCreditsData =>
            (p3, AuthResult (Some dbMemberId)
                   (Some (credits_balance finalCreditsData))
                   (Some isNewUser) processed deleted false)
        | None => (p3, db_error_result)
        end
    | (d1, None) => (Pool d1 ∅, db_error_result)
    end
  else if negb (DATABASE_URL e) then (Pool d ∅, AuthResult None (Some 0) None [] [] false)
  else (Pool d ∅, AuthResult None None None [] [] false).

(** ** POST /api/credits/spend with the column types enforced *)

(** [INT] and [BIGINT] of schema.sql. *)
Definition fits_INT (n : Z) : bool :=
  (-2147483648 <=? n) && (n <=? 2147483647).
Definition fits_BIGINT (n : Z) : bool :=
  (-9223372036854775808 <=? n) && (n <=? 9223372036854775807).

Definition dquote : string := String (ascii_of_nat 34) EmptyString.

(** The message of PostgreSQL for a parameter outside its integer type (the
    parameter travels as text, here in plain decimal notation). *)
Definition out_of_range (n : Z) (type : string) : string :=
  "value " ++ dquote ++ pretty n ++ dquote ++ " is out of range for type " ++ type.

Definition bind_INT (n : Z) : option string :=
  if fits_INT n then None else Some (out_of_range n "integer").
Definition bind_BIGINT (n : Z) : option string :=
  if fits_BIGINT n then None else Some (out_of_range n "bigint").

(** [log_credit_change()] computes [NEW.credits_balance - OLD.credits_balance]
    in [INT] when the two differ; the overflow fails the [UPDATE]. *)
Definition trigger_overflow (old new : Z) : option string :=
  if negb (old =? new) && negb (fits_INT (new - old))
  then Some "integer out of range" else None.

(** A value assigned to a [VARCHAR(n)] column: text longer than [n] is
    refused unless all that exceeds is spaces, which are cut off. *)
Definition assign_VARCHAR (n : nat) (s : string) : string + string :=
  if (String.length s <=? n)%nat then inr s
  else if forallb (Ascii.eqb " "%char) (list_ascii_of_string (substring n (String.length s - n) s))
       then inr (substring 0 n s)
       else inl ("value too long for type character varying(" ++ pretty n ++ ")")%string.

Definition or_else (a b : option string) : option string :=
  match a with
  | Some _ => a
  | None => b
  end.

(** The transaction of the spend handler with every way out of the [try]
    block.  [refused k] is the error with which the database or the
    connection answers statement [k], for a reason outside this model:
    0 [pool.connect()], 1 [BEGIN], 2 [SELECT ... FOR UPDATE], 3 [UPDATE],
    4 [INSERT INTO app_actions], 5 [INSERT INTO credit_history], 6 [COMMIT],
    7 the [ROLLBACK] of the [catch] block, whose own error replaces the one
    caught.  Inside the model a statement fails when a parameter does not fit
    the column it is compared with or stored in, at the trigger of the
    [UPDATE], and at the length of [action_type]; each of these is raised
    before the statement does anything.  [ROLLBACK] restores the tables; the
    sequence of [app_actions] keeps the value it has handed out. *)
Definition spend_transaction_typed (refused : nat -> option string)
    (circle_member_id : Z) (action_type : string) (credits_cost : Z)
    (metadata : string) (d : db) : db * (string + Z * Z) :=
  let rollback (d0 : db) (message : string) : db * (string + Z * Z) :=
    (d0, inl (default message (refused 7%nat))) in
  match refused 1%nat with
  | Some message => rollback d message
  | None =>
  match or_else (refused 2%nat) (bind_BIGINT circle_member_id) with
  | Some message => rollback d message
  | None =>
  match select_member_credits circle_member_id d with
  | None => rollback d record_not_found
  | Some (memberId, balance) =>
  if balance <? credits_cost then rollback d insufficient_credits
  else
    let newBalance := balance - credits_cost in
    match or_else (refused 3%nat)
            (or_else (bind_INT newBalance) (trigger_overflow balance newBalance)) with
    | Some message => rollback d message
    | None =>
    let d1 := deduct_credits memberId newBalance d in
    match or_else (refused 4%nat) (bind_INT credits_cost),
          assign_VARCHAR 50 action_type with
    | Some message, _ => rollback d message
    | None, inl message => rollback d message
    | None, inr stored_action_type =>
    let '(d1', actionId) := nextval_app_actions d1 in
    let d2 :=
      store_app_action
        (ActionRow actionId memberId stored_action_type credits_cost metadata true) d1' in
    let d0 := fst (nextval_app_actions d) in
    match or_else (refused 5%nat) (bind_INT (- credits_cost)) with
    | Some message => rollback d0 message
    | None =>
    let d3 := log_action_cost memberId credits_cost newBalance actionId action_type d2 in
    match refused 6%nat with
    | Some message => rollback d0 message
    | None => (d3, inr (actionId, newBalance))
    end end end end end end end.

Definition spend_credits_typed (refused : nat -> option string) (e : env)
    (req : spend_request) (d : db) : db * spend_response :=
  let credits_cost := default 1 (sr_credits_cost req) in
  if negb (DATABASE_URL e) then
    (d, SpendError 501 "Credit system requires database configuration")
  else if (sr_circle_member_id req =? 0) || String.eqb (sr_action_type req) "" then
    (d, SpendError 400 "circle_member_id and action_type are required")
  else
    match refused 0%nat with
    | Some message => (d, SpendError (spend_status_code message) message)
    | None =>
        match spend_transaction_typed refused (sr_circle_member_id req)
                (sr_action_type req) credits_cost (sr_metadata req) d with
        | (d', inr (actionId, newBalance)) => (d', SpendOk actionId credits_cost newBalance)
        | (d', inl message) => (d', SpendError (spend_status_code message) message)
        end
    end.

(** No statement is refused from outside the model. *)
Definition none_refused : nat -> option string := fun _ => None.

(** The database takes every value that a spend of [credits_cost] on
    [balance] hands to it. *)
Definition spend_accepted (action_type : string) (credits_cost balance : Z) : bool :=
  fits_INT (balance - credits_cost)
  && fits_INT credits_cost
  && fits_INT (- credits_cost)
  && match assign_VARCHAR 50 action_type with
     | inr _ => true
     | inl _ => false
     end.

(** ** Tag classification *)

Example detect_mixed :
  detect_purchase_tags ["vip"; " $50 "; "0"; "$"; "12a"; "007"; "10001"; "$$5"]
  = [Purchase "$50" 50; Purchase "007" 7].
Proof. reflexivity. Qed.

Example paid_by_substring :
  is_paid_member default_paid_member_tags ["Newsletter"; "PremiumXYZ"] = true
  /\ is_paid_member default_paid_member_tags ["Newsletter"; "$50"] = false.
Proof. split; reflexivity. Qed.

Lemma purchase_of_tag_range tag p :
  purchase_of_tag tag = Some p -> 1 <= p_credits p <= 10000.
Proof.
  unfold purchase_of_tag.
  destruct (purchase_match (Js.trim tag)) as [digits|]; [|discriminate].
  destruct (0 <? Js.parseInt10 digits) eqn:Hlo; simpl; [|discriminate].
  destruct (Js.parseInt10 digits <=? 10000) eqn:Hhi; simpl; [|discriminate].
  intros [= <-]. simpl.
  apply Z.ltb_lt in Hlo. apply Z.leb_le in Hhi. lia.
Qed.

Lemma purchase_of_tag_skipped tag digits :
  purchase_match (Js.trim tag) = Some digits ->
  ~ (1 <= Js.parseInt10 digits <= 10000) ->
  purchase_of_tag tag = None.
Proof.
  intros Hm Hout. unfold purchase_of_tag. rewrite Hm.
  destruct (0 <? Js.parseInt10 digits) eqn:Hlo; simpl; [|reflexivity].
  destruct (Js.parseInt10 digits <=? 10000) eqn:Hhi; simpl; [|reflexivity].
  apply Z.ltb_lt in Hlo. apply Z.leb_le in Hhi. lia.
Qed.

Lemma detect_purchase_tags_app l1 l2 :
  detect_purchase_tags (l1 ++ l2) = detect_purchase_tags l1 ++ detect_purchase_tags l2.
Proof. unfold detect_purchase_tags. apply omap_app. Qed.

Lemma detect_purchase_tags_cons tag tags :
  detect_purchase_tags (tag :: tags)
  = option_list (purchase_of_tag tag) ++ detect_purchase_tags tags.
Proof.
  unfold detect_purchase_tags. cbn [omap list_omap].
  destruct (purchase_of_tag tag); reflexivity.
Qed.

(** C8: the detection loop run on the tags "0" and "10001" finds no purchase,
    on "1" and "10000" it finds both, with 1 and 10000 credits, and "$50" and
    "50" are each found with 50 credits.  The loop keeps, in the order of the
    tags, exactly the tags its body accepts and nothing else; every accepted
    amount lies in [1, 10000], and a numeric tag outside that range is
    dropped without an error and without disturbing the tags around it. *)
Theorem purchase_tag_boundaries :
  purchase_of_tag "0" = None /\
  purchase_of_tag "10001" = None /\
  purchase_of_tag "1" = Some (Purchase "1" 1) /\
  purchase_of_tag "10000" = Some (Purchase "10000" 10000) /\
  purchase_of_tag "$50" = Some (Purchase "$50" 50) /\
  purchase_of_tag "50" = Some (Purchase "50" 50) /\
  (forall tag p, purchase_of_tag tag = Some p -> 1 <= p_credits p <= 10000) /\
  (forall tag digits before after,
      purchase_match (Js.trim tag) = Some digits ->
      ~ (1 <= Js.parseInt10 digits <= 10000) ->
      purchase_of_tag tag = None /\
      detect_purchase_tags (before ++ tag :: after)
      = detect_purchase_tags before ++ detect_purchase_tags after) /\
  detect_purchase_tags ["0"; "10001"] = [] /\
  detect_purchase_tags ["1"; "10000"] = [Purchase "1" 1; Purchase "10000" 10000] /\
  detect_purchase_tags ["$50"] = [Purchase "$50" 50] /\
  detect_purchase_tags ["50"] = [Purchase "50" 50] /\
  detect_purchase_tags ["0"; "1"; "vip"; "10000"; "10001"; "$50"; "50"]
  = [Purchase "1" 1; Purchase "10000" 10000; Purchase "$50" 50; Purchase "50" 50] /\
  detect_purchase_tags [] = [] /\
  (forall tag tags,
      detect_purchase_tags (tag :: tags)
      = match purchase_of_tag tag with
        | Some p => p :: detect_purchase_tags tags
        | None => detect_purchase_tags tags
        end) /\
  (forall tags p,
      p ∈ detect_purchase_tags tags <->
      exists tag, tag ∈ tags /\ purchase_of_tag tag = Some p).
Proof.
  split; [reflexivity|]. split; [reflexivity|]. split; [reflexivity|].
  split; [reflexivity|]. split; [reflexivity|]. split; [reflexivity|].
  split; [intros tag p H; eapply purchase_of_tag_range; exact H|].
  split.
  { intros tag digits before after Hm Hout. split.
    - eapply purchase_of_tag_skipped; eassumption.
    - rewrite detect_purchase_tags_app. f_equal.
      rewrite detect_purchase_tags_cons.
      erewrite purchase_of_tag_skipped; [reflexivity | eassumption | assumption]. }
  split; [reflexivity|]. split; [reflexivity|]. split; [reflexivity|].
  split; [reflexivity|]. split; [reflexivity|]. split; [reflexivity|].
  split.
  { intros tag tags. rewrite detect_purchase_tags_cons.
    destruct (purchase_of_tag tag); reflexivity. }
  intros tags p. unfold detect_purchase_tags. rewrite list_elem_of_omap. reflexivity.
Qed.

Lemma purchase_tag_boundaries_witness :
  1 <= p_credits (Purchase "$50" 50) <= 10000 /\
  detect_purchase_tags (["$10"] ++ "10001" :: ["vip"; "25"])
  = detect_purchase_tags ["$10"] ++ detect_purchase_tags ["vip"; "25"] /\
  Purchase "25" 25 ∈ detect_purchase_tags ["$10"; "10001"; "vip"; "25"].
Proof.
  destruct purchase_tag_boundaries
    as (_ & _ & _ & _ & _ & _ & Hrange & Hskip & _ & _ & _ & _ & _ & _ & _ & Hin).
  split; [|split].
  - apply (Hrange "$50"). reflexivity.
  - apply (Hskip "10001" "10001" ["$10"] ["vip"; "25"]).
    + reflexivity.
    + vm_compute. intros [_ H]. apply H. reflexivity.
  - apply Hin. exists "25". split; [|reflexivity].
    apply list_elem_of_In. cbn. auto.
Defined.

(** ** Effects of the statements *)

Lemma insert_credit_history_eq r d :
  insert_credit_history r d =
  Db (members d) (member_credits d) (app_actions d) (credit_history d ++ [r])
     (processed_purchase_tags d) (members_id_seq d) (app_actions_id_seq d).
Proof. reflexivity. Qed.

Lemma insert_processed_purchase_tag_eq r d :
  insert_processed_purchase_tag r d =
  Db (members d) (member_credits d) (app_actions d) (credit_history d)
     (processed_purchase_tags d ++ [r]) (members_id_seq d) (app_actions_id_seq d).
Proof. reflexivity. Qed.

(** Projections of a table out of a rebuilt database. *)
Ltac db_proj :=
  rewrite ?insert_credit_history_eq, ?insert_processed_purchase_tag_eq;
  cbn [members member_credits app_actions credit_history
       processed_purchase_tags members_id_seq app_actions_id_seq fst snd].

Lemma fire_trigger_eq r d :
  fire_trigger r d =
  Db (members d) (member_credits d) (app_actions d)
     (credit_history d ++ option_list r)
     (processed_purchase_tags d) (members_id_seq d) (app_actions_id_seq d).
Proof.
  destruct r as [h|]; simpl.
  - reflexivity.
  - rewrite app_nil_r. destruct d; reflexivity.
Qed.

Lemma update_member_credits_some member_id balance refreshed d old :
  member_credits d !! member_id = Some old ->
  let new := CreditsRow balance (default (last_refreshed_at old) refreshed) in
  update_member_credits member_id balance refreshed d =
  (Db (members d) (<[member_id := new]> (member_credits d)) (app_actions d)
      (credit_history d ++ option_list (log_credit_change TG_UPDATE member_id old new))
      (processed_purchase_tags d) (members_id_seq d) (app_actions_id_seq d),
   Some new).
Proof.
  intros Hold new. unfold update_member_credits. rewrite Hold.
  rewrite fire_trigger_eq. reflexivity.
Qed.

Lemma update_member_credits_none member_id balance refreshed d :
  member_credits d !! member_id = None ->
  update_member_credits member_id balance refreshed d = (d, None).
Proof. intros H. unfold update_member_credits. rewrite H. reflexivity. Qed.

Lemma upsert_member_credits_fresh member_id balance now d :
  member_credits d !! member_id = None ->
  upsert_member_credits member_id balance now d =
  (Db (members d) (<[member_id := CreditsRow balance now]> (member_credits d))
      (app_actions d)
      (credit_history d ++
         [HistoryRow member_id balance initial_grant balance None
            "Initial credit grant for new member"])
      (processed_purchase_tags d) (members_id_seq d) (app_actions_id_seq d),
   CreditsRow balance now).
Proof.
  intros H. unfold upsert_member_credits. rewrite H. reflexivity.
Qed.

Lemma upsert_member_credits_conflict member_id balance now d old :
  member_credits d !! member_id = Some old ->
  let new := CreditsRow balance now in
  upsert_member_credits member_id balance now d =
  (Db (members d) (<[member_id := new]> (member_credits d)) (app_actions d)
      (credit_history d ++ option_list (log_credit_change TG_UPDATE member_id old new))
      (processed_purchase_tags d) (members_id_seq d) (app_actions_id_seq d),
   new).
Proof.
  intros H new. unfold upsert_member_credits. rewrite H. simpl.
  rewrite fire_trigger_eq. reflexivity.
Qed.

(** The trigger never writes a row of a type the handlers reserve for
    themselves, except [initial_grant] on [INSERT]. *)
Lemma trigger_update_type member_id old new r :
  log_credit_change TG_UPDATE member_id old new = Some r ->
  ch_change_type r = credit_addition \/ ch_change_type r = credit_deduction.
Proof.
  unfold log_credit_change.
  destruct (negb (credits_balance old =? credits_balance new)); [|discriminate].
  intros [= <-]. simpl.
  destruct (credits_balance old <? credits_balance new); auto.
Qed.

Lemma of_type_trigger_update t member_id old new :
  t <> credit_addition -> t <> credit_deduction ->
  of_type t (option_list (log_credit_change TG_UPDATE member_id old new)) = [].
Proof.
  intros Ha Hd.
  destruct (log_credit_change TG_UPDATE member_id old new) as [r|] eqn:E; [|reflexivity].
  apply trigger_update_type in E. simpl. unfold of_type.
  rewrite filter_cons_False; [reflexivity|].
  destruct E as [E|E]; rewrite E; congruence.
Qed.

Lemma of_type_app t l1 l2 : of_type t (l1 ++ l2) = of_type t l1 ++ of_type t l2.
Proof. apply filter_app. Qed.

(** ** Spending credits *)

Lemma spend_credits_valid e req d :
  DATABASE_URL e = true ->
  sr_circle_member_id req <> 0 ->
  sr_action_type req <> "" ->
  spend_credits e req d =
  match spend_transaction (sr_circle_member_id req) (sr_action_type req)
          (default 1 (sr_credits_cost req)) (sr_metadata req) d with
  | (d', inr (actionId, newBalance)) =>
      (d', SpendOk actionId (default 1 (sr_credits_cost req)) newBalance)
  | (d', inl message) => (d', SpendError (spend_status_code message) message)
  end.
Proof.
  intros Hdb Hid Hact. unfold spend_credits. rewrite Hdb. simpl.
  apply Z.eqb_neq in Hid. rewrite Hid.
  apply String.eqb_neq in Hact. rewrite Hact. reflexivity.
Qed.

Lemma select_member_credits_some cid d m row :
  members d !! cid = Some m ->
  member_credits d !! m_id m = Some row ->
  select_member_credits cid d = Some (m_id m, credits_balance row).
Proof.
  intros Hm Hrow. unfold select_member_credits. rewrite Hm. simpl.
  rewrite Hrow. reflexivity.
Qed.

(** A spend request that costs more than the balance is answered 402 and
    leaves every table as it was. *)
Lemma spend_more_than_balance e req d m row :
  DATABASE_URL e = true ->
  sr_circle_member_id req <> 0 ->
  sr_action_type req <> "" ->
  members d !! sr_circle_member_id req = Some m ->
  member_credits d !! m_id m = Some row ->
  credits_balance row < default 1 (sr_credits_cost req) ->
  spend_credits e req d = (d, SpendError 402 "Insufficient credits").
Proof.
  intros Hdb Hid Hact Hm Hrow Hlt.
  rewrite spend_credits_valid by assumption.
  unfold spend_transaction.
  rewrite (select_member_credits_some _ _ _ _ Hm Hrow).
  apply Z.ltb_lt in Hlt. rewrite Hlt. reflexivity.
Qed.

(** C4: with a balance of 3, a spend request of cost 5 is answered 402 with
    the message "Insufficient credits"; the balance is still 3 and neither an
    action row nor a history row is written (the database is unchanged). *)
Theorem spend_5_from_balance_3 e req d m row :
  DATABASE_URL e = true ->
  sr_circle_member_id req <> 0 ->
  sr_action_type req <> "" ->
  members d !! sr_circle_member_id req = Some m ->
  member_credits d !! m_id m = Some row ->
  credits_balance row = 3 ->
  sr_credits_cost req = Some 5 ->
  let '(d', response) := spend_credits e req d in
  response = SpendError 402 insufficient_credits /\
  d' = d /\
  balance_of d' (m_id m) = Some 3 /\
  actions_appended d d' = [] /\
  history_appended d d' = [].
Proof.
  intros Hdb Hid Hact Hm Hrow Hbal Hcost.
  rewrite (spend_more_than_balance e req d m row) by (try assumption; rewrite Hbal, Hcost; simpl; lia).
  repeat split.
  - unfold balance_of. rewrite Hrow. simpl. congruence.
  - unfold actions_appended. apply drop_all.
  - unfold history_appended. apply drop_all.
Qed.

Lemma spend_5_from_balance_3_witness :
  let '(d', response) :=
    spend_credits Sample.env0 (Sample.spend 5) (Sample.db_with 3 0) in
  response = SpendError 402 insufficient_credits /\
  d' = Sample.db_with 3 0 /\
  balance_of d' 1 = Some 3 /\
  actions_appended (Sample.db_with 3 0) d' = [] /\
  history_appended (Sample.db_with 3 0) d' = [].
Proof.
  apply (spend_5_from_balance_3 Sample.env0 (Sample.spend 5) (Sample.db_with 3 0)
           Sample.alice_row (CreditsRow 3 0)); try reflexivity; discriminate.
Defined.

(** What a successful spend transaction leaves behind. *)
Lemma spend_transaction_commits cid action_type cost metadata d m row :
  members d !! cid = Some m ->
  member_credits d !! m_id m = Some row ->
  cost <= credits_balance row ->
  let newBalance := credits_balance row - cost in
  let new := CreditsRow newBalance (last_refreshed_at row) in
  let actionId := app_actions_id_seq d in
  spend_transaction cid action_type cost metadata d =
  (Db (members d) (<[m_id m := new]> (member_credits d))
      (app_actions d ++ [ActionRow actionId (m_id m) action_type cost metadata true])
      (credit_history d
         ++ option_list (log_credit_change TG_UPDATE (m_id m) row new)
         ++ [HistoryRow (m_id m) (- cost) action_cost newBalance (Some actionId)
               ("Credits spent on " ++ action_type)])
      (processed_purchase_tags d) (members_id_seq d) (app_actions_id_seq d + 1),
   inr (actionId, newBalance)).
Proof.
  intros Hm Hrow Hle newBalance new actionId.
  unfold spend_transaction.
  rewrite (select_member_credits_some _ _ _ _ Hm Hrow).
  assert (Hge : (credits_balance row <? cost) = false) by (apply Z.ltb_ge; lia).
  rewrite Hge.
  unfold deduct_credits.
  rewrite (update_member_credits_some _ _ None _ _ Hrow). simpl.
  unfold log_action_cost, insert_credit_history. simpl.
  rewrite <- app_assoc. reflexivity.
Qed.



(** ** Administrative adjustment *)

(** C9: for a member of the directory without a credit account, an
    administrative adjustment with a positive bonus is answered normally (not
    with "Member not found"): it appends one [admin_bonus] history row whose
    [balance_after] is the bonus itself, leaves the [member_credits] table
    without a row for the member, and reports a current balance of 0. *)
Theorem admin_bonus_without_account e now admin_email cid bonus force_refresh d m :
  members d !! cid = Some m ->
  member_credits d !! m_id m = None ->
  0 < bonus ->
  let '(d', response) :=
    admin_refresh_credits e now admin_email cid bonus force_refresh d in
  (exists credits_added operations,
      response = AdminOk 0 credits_added 0 operations) /\
  member_credits d' = member_credits d /\
  credit_history d' = credit_history d ++ history_appended d d' /\
  of_type admin_bonus (history_appended d d') =
    [HistoryRow (m_id m) bonus admin_bonus bonus None
       ("Manual credit bonus added by admin " ++ admin_email)].
Proof.
  intros Hm Hnone Hpos. unfold admin_refresh_credits.
  rewrite Hm, Hnone. cbn [fmap option_fmap option_map Js.or_default].
  assert (Hb : (0 <? bonus) = true) by (apply Z.ltb_lt; lia). rewrite Hb.
  rewrite (update_member_credits_none _ _ _ _ Hnone). cbn [fst].
  destruct force_refresh.
  - rewrite update_member_credits_none by exact Hnone.
    unfold history_appended. db_proj. rewrite Hnone.
    cbn [fmap option_fmap option_map Js.or_default].
    rewrite <- app_assoc, drop_app_length.
    repeat split; eauto.
  - unfold history_appended. db_proj. rewrite Hnone.
    cbn [fmap option_fmap option_map Js.or_default].
    rewrite drop_app_length.
    repeat split; eauto.
Qed.

Lemma admin_bonus_without_account_witness :
  let '(d', response) :=
    admin_refresh_credits Sample.env0 Sample.t0 "admin@example.com" 501 25 false
      Sample.db_no_account in
  (exists credits_added operations,
      response = AdminOk 0 credits_added 0 operations) /\
  member_credits d' = member_credits Sample.db_no_account /\
  credit_history d' =
    credit_history Sample.db_no_account ++ history_appended Sample.db_no_account d' /\
  of_type admin_bonus (history_appended Sample.db_no_account d') =
    [HistoryRow 1 25 admin_bonus 25 None
       "Manual credit bonus added by admin admin@example.com"].
Proof.
  apply (admin_bonus_without_account Sample.env0 Sample.t0 "admin@example.com"
           501 25 false Sample.db_no_account Sample.alice_row);
    [reflexivity | reflexivity | lia].
Defined.

(** ** The grant and refresh stage of an authentication event *)

(** The initial grant, spelled out: the account row is created or overwritten
    with the tier's amount, the trigger logs that statement, and the handler
    adds its own [initial_grant] row. *)
Lemma grant_initial_credits_eq (e : env) (now : Z) (is_paid : bool) (mid : Z) (d : db) :
  let initialCredits :=
    if is_paid then initial_credits_paid e else initial_credits_free e in
  let new := CreditsRow initialCredits now in
  grant_initial_credits e now is_paid mid d =
  (Db (members d) (<[mid := new]> (member_credits d)) (app_actions d)
      (credit_history d
         ++ option_list
              (match member_credits d !! mid with
               | Some old => log_credit_change TG_UPDATE mid old new
               | None => log_credit_change TG_INSERT mid new new
               end)
         ++ [initial_grant_row e is_paid mid])
      (processed_purchase_tags d) (members_id_seq d) (app_actions_id_seq d),
   Some new).
Proof.
  intros initialCredits new. unfold grant_initial_credits. fold initialCredits.
  destruct (member_credits d !! mid) as [old|] eqn:Hold.
  - rewrite (upsert_member_credits_conflict _ _ _ _ _ Hold).
    rewrite insert_credit_history_eq. db_proj.
    rewrite <- app_assoc. reflexivity.
  - rewrite (upsert_member_credits_fresh _ _ _ _ Hold).
    rewrite insert_credit_history_eq. db_proj.
    rewrite <- app_assoc. reflexivity.
Qed.

Lemma award_upgrade_bonus_eq e mid creditsRecord d :
  member_credits d !! mid = Some creditsRecord ->
  let newBalance :=
    credits_balance creditsRecord + (initial_credits_paid e - initial_credits_free e) in
  let new := CreditsRow newBalance (last_refreshed_at creditsRecord) in
  award_upgrade_bonus e mid creditsRecord d =
  (Db (members d) (<[mid := new]> (member_credits d)) (app_actions d)
      (credit_history d
         ++ option_list (log_credit_change TG_UPDATE mid creditsRecord new)
         ++ [upgrade_bonus_row e mid newBalance])
      (processed_purchase_tags d) (members_id_seq d) (app_actions_id_seq d),
   Some new).
Proof.
  intros Hrow newBalance new. unfold award_upgrade_bonus.
  rewrite (update_member_credits_some _ _ None _ _ Hrow).
  rewrite insert_credit_history_eq. db_proj.
  rewrite <- app_assoc. reflexivity.
Qed.

Lemma refresh_monthly_eq (e : env) (now : Z) (is_paid : bool) (mid : Z)
    (creditsRecord : credits_row) (creditsResult : option credits_row) (d : db) old :
  member_credits d !! mid = Some old ->
  let monthlyCredits :=
    if is_paid then monthly_credits_paid e else monthly_credits_free e in
  let newBalance :=
    Js.or_default (credits_balance <$> creditsResult) (credits_balance creditsRecord)
    + monthlyCredits in
  let new := CreditsRow newBalance now in
  refresh_monthly e now is_paid mid creditsRecord creditsResult d =
  (Db (members d) (<[mid := new]> (member_credits d)) (app_actions d)
      (credit_history d
         ++ option_list (log_credit_change TG_UPDATE mid old new)
         ++ [monthly_refresh_row e is_paid mid newBalance])
      (processed_purchase_tags d) (members_id_seq d) (app_actions_id_seq d),
   Some new).
Proof.
  intros Hrow monthlyCredits newBalance new. unfold refresh_monthly.
  rewrite (update_member_credits_some _ _ (Some now) _ _ Hrow).
  rewrite insert_credit_history_eq. db_proj.
  rewrite <- app_assoc. reflexivity.
Qed.

Lemma db_eta d :
  Db (members d) (member_credits d) (app_actions d) (credit_history d)
     (processed_purchase_tags d) (members_id_seq d) (app_actions_id_seq d) = d.
Proof. destruct d; reflexivity. Qed.

(** The returning-user branch, spelled out.  The bonus is awarded exactly when
    the snapshot was unpaid and the member is paid now; the refresh runs
    exactly when [last_refreshed_at] is before [oneMonthAgo]. *)
Lemma reconcile_returning_eq (e : env) (now : Z) (previousPaid : bool)
    (previousTgs : list string) (is_paid : bool) (tags : list string) (mid : Z)
    (rec : credits_row) (d : db) :
  member_credits d !! mid = Some rec ->
  let fires := negb previousPaid && is_paid in
  let due := last_refreshed_at rec <? oneMonthAgo now in
  let b1 := if fires
            then credits_balance rec + (initial_credits_paid e - initial_credits_free e)
            else credits_balance rec in
  let rec1 := CreditsRow b1 (last_refreshed_at rec) in
  let monthly := if is_paid then monthly_credits_paid e else monthly_credits_free e in
  let b2 := if due
            then Js.or_default (Some b1) (credits_balance rec) + monthly
            else b1 in
  let rec2 := CreditsRow b2 (if due then now else last_refreshed_at rec) in
  reconcile_returning e now previousPaid previousTgs is_paid tags mid rec d =
  (Db (members d) (<[mid := rec2]> (member_credits d)) (app_actions d)
      (credit_history d
         ++ (if fires
             then option_list (log_credit_change TG_UPDATE mid rec rec1)
                  ++ [upgrade_bonus_row e mid b1]
             else [])
         ++ (if due
             then option_list (log_credit_change TG_UPDATE mid rec1 rec2)
                  ++ [monthly_refresh_row e is_paid mid b2]
             else []))
      (processed_purchase_tags d) (members_id_seq d) (app_actions_id_seq d),
   Some rec2).
Proof.
  intros Hrow fires due b1 rec1 monthly b2 rec2.
  unfold reconcile_returning.
  set (tagsChanged := negb (bool_decide (previousTgs = tags))).
  assert (Hstep1 :
    (if negb (Bool.eqb previousPaid is_paid) || tagsChanged
     then if negb previousPaid && is_paid
          then award_upgrade_bonus e mid rec d else (d, Some rec)
     else (d, Some rec))
    = if fires then award_upgrade_bonus e mid rec d else (d, Some rec)).
  { unfold fires. destruct previousPaid, is_paid, tagsChanged; reflexivity. }
  rewrite Hstep1. clear Hstep1. fold due.
  destruct fires eqn:Hf.
  - rewrite (award_upgrade_bonus_eq _ _ _ _ Hrow). fold b1 rec1.
    destruct due eqn:Hd.
    + erewrite refresh_monthly_eq by (db_proj; apply lookup_insert_eq).
      db_proj. cbn [fmap option_fmap option_map credits_balance].
      fold monthly. fold b2. fold rec2.
      rewrite insert_insert_eq, <- !app_assoc. reflexivity.
    + subst b2 rec2. fold rec1. rewrite app_nil_r. reflexivity.
  - destruct due eqn:Hd.
    + rewrite (refresh_monthly_eq _ _ _ _ _ _ _ _ Hrow).
      cbn [fmap option_fmap option_map].
      subst b1. fold monthly. fold b2. fold rec2.
      assert (Hrec1 : rec1 = rec) by (subst rec1; destruct rec; reflexivity).
      rewrite Hrec1. reflexivity.
    + subst b2 rec2 b1. fold rec1.
      assert (Hrec1 : rec1 = rec) by (subst rec1; destruct rec; reflexivity).
      rewrite Hrec1, insert_id by exact Hrow.
      rewrite !app_nil_r, db_eta. reflexivity.
Qed.

(** ** The settlement of purchase tags *)

Lemma run_statements_ok fault ss : forall k d,
  (forall j, (j < length ss)%nat -> fault <> Some (k + j)%nat) ->
  run_statements fault k ss d = Some (foldl (fun d s => s d) d ss).
Proof.
  induction ss as [|s ss IH]; intros k d Hok; [reflexivity|].
  cbn [run_statements foldl].
  rewrite bool_decide_eq_false_2.
  - apply IH. intros j Hj.
    replace (S k + j)%nat with (k + S j)%nat by lia.
    apply Hok. simpl. lia.
  - specialize (Hok 0%nat). rewrite Nat.add_0_r in Hok. apply Hok. simpl. lia.
Qed.

Lemma run_statements_fail ss : forall k j d,
  (j < length ss)%nat ->
  run_statements (Some (k + j)%nat) k ss d = None.
Proof.
  induction ss as [|s ss IH]; intros k j d Hj; [simpl in Hj; lia|].
  cbn [run_statements].
  destruct j as [|j].
  - rewrite Nat.add_0_r, bool_decide_eq_true_2; reflexivity.
  - rewrite bool_decide_eq_false_2 by (intros [= H]; lia).
    replace (k + S j)%nat with (S k + j)%nat by lia.
    apply IH. simpl in Hj. lia.
Qed.

Lemma settlement_statements_length mid nb ps :
  length (settlement_statements mid nb ps) = (2 * length ps + 2)%nat.
Proof.
  unfold settlement_statements. cbn [length].
  rewrite length_app. cbn [length].
  assert (H : length (flat_map (fun p =>
       [ insert_processed_purchase_tag (PptRow mid (p_tag p) (p_credits p));
         insert_credit_history
           (HistoryRow mid (p_credits p) purchase_credit nb None
              ("One-time purchase: " ++ p_tag p)) ]) ps) = (2 * length ps)%nat).
  { induction ps as [|p ps IH]; [reflexivity|]. cbn [flat_map length app].
    rewrite IH. lia. }
  rewrite H. lia.
Qed.

Lemma settlement_inserts_eq mid nb ps : forall d,
  foldl (fun d s => s d) d
    (flat_map (fun p =>
       [ insert_processed_purchase_tag (PptRow mid (p_tag p) (p_credits p));
         insert_credit_history
           (HistoryRow mid (p_credits p) purchase_credit nb None
              ("One-time purchase: " ++ p_tag p)) ]) ps)
  = Db (members d) (member_credits d) (app_actions d)
       (credit_history d ++ purchase_rows mid nb ps)
       (processed_purchase_tags d ++ purchase_tag_rows mid ps)
       (members_id_seq d) (app_actions_id_seq d).
Proof.
  induction ps as [|p ps IH]; intros d.
  - cbn. rewrite !app_nil_r. symmetry. apply db_eta.
  - cbn [flat_map app foldl]. rewrite IH. db_proj.
    unfold purchase_rows, purchase_tag_rows. rewrite !fmap_cons.
    rewrite <- !app_assoc. reflexivity.
Qed.

(** All the statements of a settlement, run without a fault. *)
Lemma settlement_statements_eq mid nb ps d old :
  member_credits d !! mid = Some old ->
  let new := CreditsRow nb (last_refreshed_at old) in
  foldl (fun d s => s d) d (settlement_statements mid nb ps)
  = Db (members d) (<[mid := new]> (member_credits d)) (app_actions d)
       (credit_history d
          ++ option_list (log_credit_change TG_UPDATE mid old new)
          ++ purchase_rows mid nb ps)
       (processed_purchase_tags d ++ purchase_tag_rows mid ps)
       (members_id_seq d) (app_actions_id_seq d).
Proof.
  intros Hold new. unfold settlement_statements.
  cbn [foldl]. rewrite foldl_app. cbn [foldl].
  rewrite (update_member_credits_some _ _ None _ _ Hold). cbn [fst default].
  rewrite settlement_inserts_eq. db_proj. rewrite <- app_assoc. reflexivity.
Qed.

Lemma purchases_total_pos ps :
  Forall (fun p => 1 <= p_credits p) ps -> ps <> [] -> 0 < purchases_total ps.
Proof.
  unfold purchases_total.
  induction 1 as [|p ps Hp Hps IH]; intros Hne; [congruence|].
  rewrite fmap_cons. cbn [foldr].
  destruct ps as [|q ps]; [cbn; lia|].
  assert (0 < foldr Z.add 0 (p_credits <$> q :: ps)) by (apply IH; discriminate).
  lia.
Qed.

Lemma detect_purchase_tags_credits tags :
  Forall (fun p => 1 <= p_credits p) (detect_purchase_tags tags).
Proof.
  apply List.Forall_forall. intros p Hin.
  apply list_elem_of_In in Hin.
  unfold detect_purchase_tags in Hin.
  apply list_elem_of_omap in Hin as (tag & _ & Htag).
  apply purchase_of_tag_range in Htag. lia.
Qed.

(** A settlement that no fault hits: one balance update, and per tag one
    audit row and one [purchase] history row. *)
Lemma settle_purchases_commits ev mid ps cr d old :
  member_credits d !! mid = Some old ->
  0 < purchases_total ps ->
  settlement_fails ev ps = false ->
  let newBalance := credits_balance cr + purchases_total ps in
  let new := CreditsRow newBalance (last_refreshed_at old) in
  settle_purchases ev mid ps (Some cr) d =
  (Db (members d) (<[mid := new]> (member_credits d)) (app_actions d)
      (credit_history d
         ++ option_list (log_credit_change TG_UPDATE mid old new)
         ++ purchase_rows mid newBalance ps)
      (processed_purchase_tags d ++ purchase_tag_rows mid ps)
      (members_id_seq d) (app_actions_id_seq d),
   Some (CreditsRow newBalance (last_refreshed_at cr)),
   p_tag <$> ps,
   tags_to_delete (ev_admin_tag_id ev) ps).
Proof.
  intros Hold Hpos Hfault newBalance new.
  unfold settle_purchases. fold (purchases_total ps).
  assert (Hp : (0 <? purchases_total ps) = true) by (apply Z.ltb_lt; lia).
  rewrite Hp.
  unfold settlement_fails in Hfault.
  rewrite bool_decide_eq_false_2.
  2:{ intros Hk. rewrite Hk in Hfault. discriminate. }
  fold newBalance.
  rewrite run_statements_ok.
  - rewrite (settlement_statements_eq _ _ _ _ _ Hold). reflexivity.
  - rewrite settlement_statements_length. intros j Hj Hk.
    rewrite Hk in Hfault. apply Nat.leb_gt in Hfault. lia.
Qed.

(** A settlement in which some statement fails: the [ROLLBACK] (or, for a
    failed [BEGIN], the absence of any write) leaves the database as it was,
    the handler's copy of the balance is untouched, and no tag is reported as
    processed or sent for removal. *)
Lemma settle_purchases_fails ev mid ps creditsResult d :
  settlement_fails ev ps = true ->
  settle_purchases ev mid ps creditsResult d = (d, creditsResult, [], []).
Proof.
  intros Hfault. unfold settle_purchases.
  destruct (0 <? foldr Z.add 0 (p_credits <$> ps)); [|reflexivity].
  unfold settlement_fails in Hfault.
  destruct (ev_fault ev) as [k|] eqn:Hk; [|discriminate].
  apply Nat.leb_le in Hfault.
  destruct k as [|k].
  - rewrite bool_decide_eq_true_2; reflexivity.
  - rewrite bool_decide_eq_false_2 by discriminate.
    destruct creditsResult as [row|]; [|reflexivity].
    replace (S k) with (1 + k)%nat by lia.
    rewrite run_statements_fail; [reflexivity|].
    rewrite settlement_statements_length. lia.
Qed.

Lemma trigger_logs_change mid old delta refreshed :
  delta <> 0 ->
  log_credit_change TG_UPDATE mid old
    (CreditsRow (credits_balance old + delta) refreshed)
  = Some (HistoryRow mid delta
            (if 0 <? delta then credit_addition else credit_deduction)
            (credits_balance old + delta) None
            "Automatic log from credit balance change").
Proof.
  intros Hd. unfold log_credit_change. cbn [credits_balance].
  assert (H1 : (credits_balance old =? credits_balance old + delta) = false)
    by (apply Z.eqb_neq; lia).
  rewrite H1. cbn [negb].
  replace (credits_balance old + delta - credits_balance old) with delta by lia.
  assert (H2 : (credits_balance old <? credits_balance old + delta) = (0 <? delta)).
  { destruct (0 <? delta) eqn:E.
    - apply Z.ltb_lt in E. apply Z.ltb_lt. lia.
    - apply Z.ltb_ge in E. apply Z.ltb_ge. lia. }
  rewrite H2. reflexivity.
Qed.

(** The settlement on one session ([settle_purchases_one_session] relates it
    to the pool): when the purchase tags of the member are "$10" and "$25",
    the settlement that no fault hits performs one balance update, adding 35 (the
    trigger logs exactly that one change), appends exactly two [purchase]
    history rows, of amounts 10 and 25, and exactly two rows of
    [processed_purchase_tags]; when one of its statements fails, the database
    is left exactly as it was before [BEGIN] and the handler reports no
    processed tag and keeps the old balance. *)
Theorem settle_10_and_25 ev mid cr d :
  detect_purchase_tags (md_tags (ev_member ev))
    ≡ₚ [Purchase "$10" 10; Purchase "$25" 25] ->
  member_credits d !! mid = Some cr ->
  let '(d', creditsResult, processed, deleted) :=
    process_purchase_tags ev mid (Some cr) d in
  let newBalance := credits_balance cr + 35 in
  if settlement_fails ev (detect_purchase_tags (md_tags (ev_member ev))) then
    d' = d /\ creditsResult = Some cr /\ processed = [] /\ deleted = []
  else
    balance_of d' mid = Some newBalance /\
    creditsResult = Some (CreditsRow newBalance (last_refreshed_at cr)) /\
    credit_history d' = credit_history d ++ history_appended d d' /\
    history_appended d d' =
      HistoryRow mid 35 credit_addition newBalance None
        "Automatic log from credit balance change"
      :: purchase_rows mid newBalance (detect_purchase_tags (md_tags (ev_member ev))) /\
    length (of_type purchase_credit (history_appended d d')) = 2%nat /\
    ch_change_amount <$> of_type purchase_credit (history_appended d d') ≡ₚ [10; 25] /\
    processed_purchase_tags d' =
      processed_purchase_tags d ++ purchase_tags_appended d d' /\
    purchase_tags_appended d d' ≡ₚ [PptRow mid "$10" 10; PptRow mid "$25" 25] /\
    processed ≡ₚ ["$10"; "$25"].
Proof.
  intros Hperm Hrow. unfold process_purchase_tags.
  set (ps := detect_purchase_tags (md_tags (ev_member ev))) in *.
  assert (Hps : ps = [Purchase "$10" 10; Purchase "$25" 25]
                \/ ps = [Purchase "$25" 25; Purchase "$10" 10]).
  { symmetry in Hperm. apply Permutation_length_2_inv in Hperm. exact Hperm. }
  assert (Hlen : (0 <? length ps)%nat = true) by (destruct Hps as [-> | ->]; reflexivity).
  assert (Htot : purchases_total ps = 35) by (destruct Hps as [-> | ->]; reflexivity).
  rewrite Hlen.
  destruct (settlement_fails ev ps) eqn:Hfault.
  - rewrite (settle_purchases_fails _ _ _ _ _ Hfault). auto.
  - rewrite (settle_purchases_commits ev mid ps cr d cr Hrow) by (try assumption; lia).
    rewrite Htot.
    rewrite trigger_logs_change by lia. cbn [option_list Z.ltb Z.compare app].
    unfold balance_of, history_appended, purchase_tags_appended. db_proj.
    rewrite lookup_insert_eq, !drop_app_length.
    split; [reflexivity|]. split; [reflexivity|]. split; [reflexivity|].
    split; [reflexivity|].
    destruct Hps as [-> | ->]; cbn.
    + repeat split; try reflexivity.
    + repeat split; try reflexivity; apply perm_swap.
Qed.

Lemma settle_10_and_25_witness :
  detect_purchase_tags ["$10"; "vip"; "$25"] ≡ₚ [Purchase "$10" 10; Purchase "$25" 25] /\
  let ev := Sample.sign_in Sample.t0 ["$10"; "vip"; "$25"] (Some 4%nat) in
  let d := Sample.db_with 3 0 in
  let '(d', creditsResult, processed, deleted) :=
    process_purchase_tags ev 1 (Some (CreditsRow 3 0)) d in
  let newBalance := credits_balance (CreditsRow 3 0) + 35 in
  if settlement_fails ev (detect_purchase_tags (md_tags (ev_member ev))) then
    d' = d /\ creditsResult = Some (CreditsRow 3 0) /\ processed = [] /\ deleted = []
  else
    balance_of d' 1 = Some newBalance /\
    creditsResult = Some (CreditsRow newBalance (last_refreshed_at (CreditsRow 3 0))) /\
    credit_history d' = credit_history d ++ history_appended d d' /\
    history_appended d d' =
      HistoryRow 1 35 credit_addition newBalance None
        "Automatic log from credit balance change"
      :: purchase_rows 1 newBalance (detect_purchase_tags (md_tags (ev_member ev))) /\
    length (of_type purchase_credit (history_appended d d')) = 2%nat /\
    ch_change_amount <$> of_type purchase_credit (history_appended d d') ≡ₚ [10; 25] /\
    processed_purchase_tags d' =
      processed_purchase_tags d ++ purchase_tags_appended d d' /\
    purchase_tags_appended d d' ≡ₚ [PptRow 1 "$10" 10; PptRow 1 "$25" 25] /\
    processed ≡ₚ ["$10"; "$25"].
Proof.
  split; [reflexivity|].
  apply (settle_10_and_25
           (Sample.sign_in Sample.t0 ["$10"; "vip"; "$25"] (Some 4%nat)) 1
           (CreditsRow 3 0) (Sample.db_with 3 0)); reflexivity.
Defined.

Example settle_10_and_25_committed :
  let d := Sample.db_with 3 0 in
  let '(d', creditsResult, processed, deleted) :=
    process_purchase_tags (Sample.sign_in Sample.t0 ["$10"; "vip"; "$25"] None) 1
      (Some (CreditsRow 3 0)) d in
  balance_of d' 1 = Some 38 /\
  history_appended d d' =
    [ HistoryRow 1 35 credit_addition 38 None "Automatic log from credit balance change";
      HistoryRow 1 10 purchase_credit 38 None "One-time purchase: $10";
      HistoryRow 1 25 purchase_credit 38 None "One-time purchase: $25" ] /\
  purchase_tags_appended d d' = [PptRow 1 "$10" 10; PptRow 1 "$25" 25] /\
  processed = ["$10"; "$25"].
Proof. vm_compute. repeat split. Qed.

Example settle_10_and_25_rolled_back :
  forall k, (k <= 6)%nat ->
  process_purchase_tags (Sample.sign_in Sample.t0 ["$10"; "vip"; "$25"] (Some k)) 1
    (Some (CreditsRow 3 0)) (Sample.db_with 3 0)
  = (Sample.db_with 3 0, Some (CreditsRow 3 0), [], []).
Proof.
  intros k Hk.
  do 7 (destruct k as [|k]; [reflexivity|]). lia.
Qed.

(** ** A whole authentication event *)

Lemma upsert_member_existing e ev d m :
  members d !! md_id (ev_member ev) = Some m ->
  email_taken d (md_id (ev_member ev)) (md_email (ev_member ev)) = false ->
  upsert_member (ev_now ev) (ev_member ev) (currentIsPaid e (ev_member ev)) d =
  (Db (<[md_id (ev_member ev) := upserted_row e ev (m_id m) (m_first_seen_at m)]> (members d))
      (member_credits d) (app_actions d) (credit_history d)
      (processed_purchase_tags d) (members_id_seq d + 1) (app_actions_id_seq d),
   Some (m_id m, m_first_seen_at m)).
Proof.
  intros Hm Hemail. unfold upsert_member. rewrite Hemail, Hm. reflexivity.
Qed.

Lemma upsert_member_new e ev d :
  members d !! md_id (ev_member ev) = None ->
  email_taken d (md_id (ev_member ev)) (md_email (ev_member ev)) = false ->
  upsert_member (ev_now ev) (ev_member ev) (currentIsPaid e (ev_member ev)) d =
  (Db (<[md_id (ev_member ev) := upserted_row e ev (members_id_seq d) (ev_now ev)]> (members d))
      (member_credits d) (app_actions d) (credit_history d)
      (processed_purchase_tags d) (members_id_seq d + 1) (app_actions_id_seq d),
   Some (members_id_seq d, ev_now ev)).
Proof.
  intros Hm Hemail. unfold upsert_member. rewrite Hemail, Hm. reflexivity.
Qed.

(** The purchase stage, for an account whose row the handler holds. *)
Lemma process_purchase_tags_eq ev mid cr d :
  member_credits d !! mid = Some cr ->
  let ps := detect_purchase_tags (md_tags (ev_member ev)) in
  let settles := negb (settlement_fails ev ps) && (0 <? length ps)%nat in
  let b := if settles then credits_balance cr + purchases_total ps
           else credits_balance cr in
  let new := CreditsRow b (last_refreshed_at cr) in
  process_purchase_tags ev mid (Some cr) d =
  (Db (members d) (<[mid := new]> (member_credits d)) (app_actions d)
      (credit_history d
         ++ (if settles
             then option_list (log_credit_change TG_UPDATE mid cr new)
                  ++ purchase_rows mid b ps
             else []))
      (processed_purchase_tags d
         ++ (if settles then purchase_tag_rows mid ps else []))
      (members_id_seq d) (app_actions_id_seq d),
   Some new,
   (if settles then p_tag <$> ps else []),
   (if settles then tags_to_delete (ev_admin_tag_id ev) ps else [])).
Proof.
  intros Hrow ps settles b new. unfold process_purchase_tags. fold ps.
  assert (Hsame : CreditsRow (credits_balance cr) (last_refreshed_at cr) = cr)
    by (destruct cr; reflexivity).
  destruct (0 <? length ps)%nat eqn:Hlen.
  - destruct (settlement_fails ev ps) eqn:Hfault.
    + rewrite (settle_purchases_fails _ _ _ _ _ Hfault).
      subst new b settles. cbn [negb andb].
      rewrite Hsame, insert_id by exact Hrow.
      rewrite !app_nil_r, db_eta. reflexivity.
    + rewrite (settle_purchases_commits ev mid ps cr d cr Hrow).
      * reflexivity.
      * apply purchases_total_pos.
        -- apply detect_purchase_tags_credits.
        -- intros Hnil. rewrite Hnil in Hlen. discriminate.
      * exact Hfault.
  - subst new b settles. rewrite andb_false_r.
    rewrite Hsame, insert_id by exact Hrow.
    rewrite !app_nil_r, db_eta. reflexivity.
Qed.

(** An event for a returning member, spelled out: a member with an account
    whose [first_seen_at] lies at least 30 seconds back. *)
Lemma auth_returning_eq (e : env) (ev : auth_event) (d : db) m rec :
  let md := ev_member ev in
  let cid := md_id md in
  let mid := m_id m in
  md_id md <> 0 ->
  DATABASE_URL e = true ->
  members d !! cid = Some m ->
  email_taken d cid (md_email md) = false ->
  member_credits d !! mid = Some rec ->
  30000 <= ev_now ev - m_first_seen_at m ->
  let is_paid := currentIsPaid e md in
  let fires := negb (previousPaidStatus d cid) && is_paid in
  let due := last_refreshed_at rec <? oneMonthAgo (ev_now ev) in
  let b1 := if fires
            then credits_balance rec + (initial_credits_paid e - initial_credits_free e)
            else credits_balance rec in
  let rec1 := CreditsRow b1 (last_refreshed_at rec) in
  let monthly := if is_paid then monthly_credits_paid e else monthly_credits_free e in
  let b2 := if due
            then Js.or_default (Some b1) (credits_balance rec) + monthly
            else b1 in
  let rec2 := CreditsRow b2 (if due then ev_now ev else last_refreshed_at rec) in
  let ps := detect_purchase_tags (md_tags md) in
  let settles := negb (settlement_fails ev ps) && (0 <? length ps)%nat in
  let b3 := if settles then b2 + purchases_total ps else b2 in
  let rec3 := CreditsRow b3 (last_refreshed_at rec2) in
  auth_database_integration e ev d =
  (Db (<[cid := upserted_row e ev mid (m_first_seen_at m)]> (members d))
      (<[mid := rec3]> (member_credits d)) (app_actions d)
      (credit_history d
         ++ (if fires
             then option_list (log_credit_change TG_UPDATE mid rec rec1)
                  ++ [upgrade_bonus_row e mid b1]
             else [])
         ++ (if due
             then option_list (log_credit_change TG_UPDATE mid rec1 rec2)
                  ++ [monthly_refresh_row e is_paid mid b2]
             else [])
         ++ (if settles
             then option_list (log_credit_change TG_UPDATE mid rec2 rec3)
                  ++ purchase_rows mid b3 ps
             else []))
      (processed_purchase_tags d
         ++ (if settles then purchase_tag_rows mid ps else []))
      (members_id_seq d + 1) (app_actions_id_seq d),
   AuthResult (Some mid) (Some b3) (Some false)
     (if settles then p_tag <$> ps else [])
     (if settles then tags_to_delete (ev_admin_tag_id ev) ps else [])
     false).
Proof.
  intros md cid mid Hid Hdb Hm Hemail Hrow Hold
         is_paid fires due b1 rec1 monthly b2 rec2 ps settles b3 rec3.
  unfold auth_database_integration. fold md.
  apply Z.eqb_neq in Hid. rewrite Hid, Hdb. cbn [negb andb].
  subst md cid. rewrite (upsert_member_existing e ev d m Hm Hemail).
  assert (Hnew : (ev_now ev - m_first_seen_at m <? 30000) = false)
    by (apply Z.ltb_ge; lia).
  rewrite Hnew. unfold reconcile_credits. db_proj. fold mid. rewrite Hrow.
  rewrite reconcile_returning_eq by (db_proj; exact Hrow).
  db_proj. fold is_paid fires due b1 rec1 monthly b2 rec2.
  rewrite process_purchase_tags_eq by (db_proj; apply lookup_insert_eq).
  db_proj. fold ps settles. cbn [credits_balance]. fold b3.
  fold rec3. rewrite insert_insert_eq, <- !app_assoc. reflexivity.
Qed.

(** An event that takes the initial-grant branch, spelled out: the member has
    no account, or counts as new (first seen less than 30 seconds ago). *)
Lemma auth_grant_eq (e : env) (ev : auth_event) (d : db) :
  let md := ev_member ev in
  let cid := md_id md in
  let mid := match members d !! cid with
             | Some m => m_id m
             | None => members_id_seq d
             end in
  let first_seen := match members d !! cid with
                    | Some m => m_first_seen_at m
                    | None => ev_now ev
                    end in
  let isNewUser := ev_now ev - first_seen <? 30000 in
  md_id md <> 0 ->
  DATABASE_URL e = true ->
  email_taken d cid (md_email md) = false ->
  member_credits d !! mid = None \/ isNewUser = true ->
  let is_paid := currentIsPaid e md in
  let b2 := if is_paid then initial_credits_paid e else initial_credits_free e in
  let rec2 := CreditsRow b2 (ev_now ev) in
  let ps := detect_purchase_tags (md_tags md) in
  let settles := negb (settlement_fails ev ps) && (0 <? length ps)%nat in
  let b3 := if settles then b2 + purchases_total ps else b2 in
  let rec3 := CreditsRow b3 (ev_now ev) in
  auth_database_integration e ev d =
  (Db (<[cid := upserted_row e ev mid first_seen]> (members d))
      (<[mid := rec3]> (member_credits d)) (app_actions d)
      (credit_history d
         ++ option_list
              (match member_credits d !! mid with
               | Some old => log_credit_change TG_UPDATE mid old rec2
               | None => log_credit_change TG_INSERT mid rec2 rec2
               end)
         ++ [initial_grant_row e is_paid mid]
         ++ (if settles
             then option_list (log_credit_change TG_UPDATE mid rec2 rec3)
                  ++ purchase_rows mid b3 ps
             else []))
      (processed_purchase_tags d
         ++ (if settles then purchase_tag_rows mid ps else []))
      (members_id_seq d + 1) (app_actions_id_seq d),
   AuthResult (Some mid) (Some b3) (Some isNewUser)
     (if settles then p_tag <$> ps else [])
     (if settles then tags_to_delete (ev_admin_tag_id ev) ps else [])
     false).
Proof.
  intros md cid mid first_seen isNewUser Hid Hdb Hemail Hbranch
         is_paid b2 rec2 ps settles b3 rec3.
  unfold auth_database_integration. fold md.
  apply Z.eqb_neq in Hid. rewrite Hid, Hdb. cbn [negb andb].
  assert (Hup : upsert_member (ev_now ev) md (currentIsPaid e md) d =
    (Db (<[cid := upserted_row e ev mid first_seen]> (members d))
        (member_credits d) (app_actions d) (credit_history d)
        (processed_purchase_tags d) (members_id_seq d + 1) (app_actions_id_seq d),
     Some (mid, first_seen))).
  { subst md cid mid first_seen.
    destruct (members d !! md_id (ev_member ev)) as [m|] eqn:Hm.
    - apply upsert_member_existing; assumption.
    - apply upsert_member_new; assumption. }
  rewrite Hup. fold isNewUser. fold is_paid.
  assert (Hgrant :
    reconcile_credits e (ev_now ev) (previousPaidStatus d (md_id md))
      (previousTags d (md_id md)) is_paid (md_tags md) mid isNewUser
      (Db (<[cid := upserted_row e ev mid first_seen]> (members d))
          (member_credits d) (app_actions d) (credit_history d)
          (processed_purchase_tags d) (members_id_seq d + 1) (app_actions_id_seq d))
    = grant_initial_credits e (ev_now ev) is_paid mid
      (Db (<[cid := upserted_row e ev mid first_seen]> (members d))
          (member_credits d) (app_actions d) (credit_history d)
          (processed_purchase_tags d) (members_id_seq d + 1) (app_actions_id_seq d))).
  { unfold reconcile_credits. db_proj.
    destruct Hbranch as [Hnone | Hnew].
    - rewrite Hnone. reflexivity.
    - rewrite Hnew. destruct (member_credits d !! mid); reflexivity. }
  rewrite Hgrant, grant_initial_credits_eq. db_proj. fold b2 rec2.
  rewrite process_purchase_tags_eq by (db_proj; apply lookup_insert_eq).
  db_proj. fold ps settles. cbn [credits_balance last_refreshed_at]. fold b3 rec3.
  rewrite insert_insert_eq, <- !app_assoc. reflexivity.
Qed.

Lemma of_type_purchase_rows_other t mid b ps :
  t <> purchase_credit -> of_type t (purchase_rows mid b ps) = [].
Proof.
  intros Ht. unfold of_type, purchase_rows.
  induction ps as [|p ps IH]; [reflexivity|].
  rewrite fmap_cons, filter_cons_False; [exact IH|].
  cbn [ch_change_type]. congruence.
Qed.

Lemma history_appended_refl d : history_appended d d = [].
Proof. unfold history_appended. apply drop_all. Qed.

(** The four ways an authentication event can go. *)
Lemma auth_cases (e : env) (ev : auth_event) (d : db) :
  let md := ev_member ev in
  let cid := md_id md in
  (* the database block is skipped *)
  (fst (auth_database_integration e ev d) = d) \/
  (* the upsert violates the email constraint *)
  (fst (auth_database_integration e ev d) =
     Db (members d) (member_credits d) (app_actions d) (credit_history d)
        (processed_purchase_tags d) (members_id_seq d + 1) (app_actions_id_seq d)) \/
  (* the initial-grant branch *)
  (md_id md <> 0 /\ DATABASE_URL e = true /\
   email_taken d cid (md_email md) = false /\
   (member_credits d !! match members d !! cid with
                        | Some m => m_id m
                        | None => members_id_seq d
                        end = None \/
    (ev_now ev - match members d !! cid with
                 | Some m => m_first_seen_at m
                 | None => ev_now ev
                 end <? 30000) = true)) \/
  (* the returning-user branch *)
  (exists m rec,
     md_id md <> 0 /\ DATABASE_URL e = true /\
     members d !! cid = Some m /\
     email_taken d cid (md_email md) = false /\
     member_credits d !! m_id m = Some rec /\
     30000 <= ev_now ev - m_first_seen_at m).
Proof.
  intros md cid.
  destruct (Z.eq_dec (md_id md) 0) as [Hz|Hnz].
  { left. unfold auth_database_integration. fold md. rewrite Hz. cbn.
    destruct (negb (DATABASE_URL e)); reflexivity. }
  destruct (DATABASE_URL e) eqn:Hdb.
  2:{ left. unfold auth_database_integration. fold md. rewrite Hdb.
      rewrite andb_false_r. reflexivity. }
  destruct (email_taken d cid (md_email md)) eqn:Hemail.
  { right. left. unfold auth_database_integration. fold md. rewrite Hdb.
    apply Z.eqb_neq in Hnz. rewrite Hnz. cbn [negb andb].
    unfold upsert_member. fold cid. rewrite Hemail. reflexivity. }
  right. right.
  destruct (members d !! cid) as [m|] eqn:Hm.
  - destruct (member_credits d !! m_id m) as [rec|] eqn:Hrec.
    + destruct (ev_now ev - m_first_seen_at m <? 30000) eqn:Hnew.
      * left. repeat split; auto.
      * right. exists m, rec. apply Z.ltb_ge in Hnew. repeat split; auto.
    + left. repeat split; auto.
  - left. repeat split; auto. right.
    apply Z.ltb_lt. lia.
Qed.

(** No event awards an upgrade bonus unless the snapshot read before the
    upsert was unpaid and the member is paid now. *)
Lemma upgrade_bonus_needs_transition (e : env) (ev : auth_event) (d : db) :
  negb (previousPaidStatus d (md_id (ev_member ev)))
    && currentIsPaid e (ev_member ev) = false ->
  of_type upgrade_bonus
    (history_appended d (fst (auth_database_integration e ev d))) = [].
Proof.
  intros Hno.
  destruct (auth_cases e ev d) as [H | [H | [H | H]]].
  - rewrite H. rewrite history_appended_refl. reflexivity.
  - rewrite H. unfold history_appended. cbn [credit_history].
    rewrite drop_all. reflexivity.
  - destruct H as (Hid & Hdb & Hemail & Hbranch).
    rewrite (auth_grant_eq e ev d Hid Hdb Hemail Hbranch). cbn [fst].
    unfold history_appended. cbn [credit_history]. rewrite drop_app_length.
    rewrite !of_type_app.
    destruct (negb (settlement_fails _ _) && _)%bool.
    + rewrite of_type_app, of_type_trigger_update, of_type_purchase_rows_other
        by discriminate.
      destruct (member_credits d !! _) as [old|].
      * rewrite of_type_trigger_update by discriminate. reflexivity.
      * reflexivity.
    + destruct (member_credits d !! _) as [old|].
      * rewrite of_type_trigger_update by discriminate. reflexivity.
      * reflexivity.
  - destruct H as (m & rec & Hid & Hdb & Hm & Hemail & Hrec & Hold).
    rewrite (auth_returning_eq e ev d m rec Hid Hdb Hm Hemail Hrec Hold). cbn [fst].
    unfold history_appended. cbn [credit_history]. rewrite drop_app_length.
    rewrite Hno. rewrite !of_type_app.
    destruct (last_refreshed_at rec <? oneMonthAgo (ev_now ev));
      destruct (negb (settlement_fails _ _) && _)%bool;
      rewrite ?of_type_app, ?of_type_trigger_update, ?of_type_purchase_rows_other
        by discriminate; reflexivity.
Qed.

Lemma previousPaidStatus_upserted e ev d id first_seen rest1 rest2 rest3 rest4 rest5 rest6 :
  previousPaidStatus
    (Db (<[md_id (ev_member ev) := upserted_row e ev id first_seen]> (members d))
        rest1 rest2 rest3 rest4 rest5 rest6)
    (md_id (ev_member ev))
  = currentIsPaid e (ev_member ev).
Proof.
  unfold previousPaidStatus. cbn [members]. rewrite lookup_insert_eq. reflexivity.
Qed.

(** The upgrade bonus away from the corner of [upgrade_bonus_lost_to_refresh]:
    for a returning member (account present, first seen at least 30
    seconds ago) whose row read before the upsert was unpaid and who is
    classified paid now, the event appends exactly one [upgrade_bonus] row, of
    amount paid initial credits minus free initial credits, written with the
    old balance plus that amount, right after the [UPDATE] that stores that
    balance (which the trigger logs first); the account ends the event with
    the old balance plus the bonus plus whatever the refresh and the purchases
    of the same event add (the refresh being additive, see C6).  After the
    event the stored flag is paid, so an event that finds the member paid
    again appends no [upgrade_bonus] row. *)
Theorem upgrade_bonus_on_transition (e : env) (ev : auth_event) (d : db) m rec :
  let md := ev_member ev in
  let cid := md_id md in
  let mid := m_id m in
  md_id md <> 0 ->
  DATABASE_URL e = true ->
  members d !! cid = Some m ->
  email_taken d cid (md_email md) = false ->
  member_credits d !! mid = Some rec ->
  30000 <= ev_now ev - m_first_seen_at m ->
  previousPaidStatus d cid = false ->
  currentIsPaid e md = true ->
  let bonus := initial_credits_paid e - initial_credits_free e in
  let due := last_refreshed_at rec <? oneMonthAgo (ev_now ev) in
  let ps := detect_purchase_tags (md_tags md) in
  let settles := negb (settlement_fails ev ps) && (0 <? length ps)%nat in
  let d' := fst (auth_database_integration e ev d) in
  credit_history d' = credit_history d ++ history_appended d d' /\
  of_type upgrade_bonus (history_appended d d')
    = [upgrade_bonus_row e mid (credits_balance rec + bonus)] /\
  (exists rest,
      history_appended d d' =
      option_list
        (log_credit_change TG_UPDATE mid rec
           (CreditsRow (credits_balance rec + bonus) (last_refreshed_at rec)))
      ++ upgrade_bonus_row e mid (credits_balance rec + bonus) :: rest) /\
  (due = false \/ credits_balance rec + bonus <> 0 \/ bonus = 0 ->
   balance_of d' mid =
     Some (credits_balance rec + bonus
           + (if due then monthly_credits_paid e else 0)
           + (if settles then purchases_total ps else 0))) /\
  previousPaidStatus d' cid = true /\
  (forall ev2,
      md_id (ev_member ev2) = cid ->
      currentIsPaid e (ev_member ev2) = true ->
      of_type upgrade_bonus
        (history_appended d' (fst (auth_database_integration e ev2 d'))) = []).
Proof.
  intros md cid mid Hid Hdb Hm Hemail Hrec Hold Hprev Hcur bonus due ps settles d'.
  assert (Hpaid' : previousPaidStatus d' cid = true).
  { subst d'. rewrite (auth_returning_eq e ev d m rec Hid Hdb Hm Hemail Hrec Hold).
    cbn [fst]. rewrite previousPaidStatus_upserted. exact Hcur. }
  repeat split.
  - subst d'. rewrite (auth_returning_eq e ev d m rec Hid Hdb Hm Hemail Hrec Hold).
    cbn [fst]. unfold history_appended. cbn [credit_history].
    rewrite drop_app_length. reflexivity.
  - subst d'. rewrite (auth_returning_eq e ev d m rec Hid Hdb Hm Hemail Hrec Hold).
    cbn [fst]. unfold history_appended. cbn [credit_history].
    rewrite drop_app_length.
    fold md cid mid. rewrite Hprev, Hcur. cbn [negb andb].
    fold bonus due ps settles.
    rewrite !of_type_app, of_type_trigger_update by discriminate.
    destruct due; destruct settles;
      rewrite ?of_type_app, ?of_type_trigger_update, ?of_type_purchase_rows_other
        by discriminate; reflexivity.
  - subst d'. rewrite (auth_returning_eq e ev d m rec Hid Hdb Hm Hemail Hrec Hold).
    cbn [fst]. unfold history_appended. cbn [credit_history].
    rewrite drop_app_length.
    fold md cid mid. rewrite Hprev, Hcur. cbn [negb andb].
    fold bonus. rewrite <- app_assoc. cbn [app]. eauto.
  - intros Hcorner.
    subst d'. rewrite (auth_returning_eq e ev d m rec Hid Hdb Hm Hemail Hrec Hold).
    cbn [fst]. unfold balance_of. cbn [member_credits].
    fold md cid mid. rewrite lookup_insert_eq, Hprev, Hcur. cbn [negb andb].
    fold bonus due ps settles.
    cbn [fmap option_fmap option_map credits_balance]. f_equal.
    destruct due eqn:Hdue; destruct settles; unfold Js.or_default;
      try lia;
      destruct (credits_balance rec + bonus =? 0) eqn:Hz;
      try lia;
      apply Z.eqb_eq in Hz;
      destruct Hcorner as [Hc | [Hc | Hc]]; try discriminate; lia.
  - exact Hpaid'.
  - intros ev2 Hsame Hcur2.
    apply upgrade_bonus_needs_transition.
    rewrite Hsame, Hpaid'. reflexivity.
Qed.

Lemma upgrade_bonus_on_transition_witness :
  let e := Sample.env0 in
  let ev := Sample.sign_in Sample.t0 ["VIP"; "$50"] None in
  let d := Sample.db_with 10 Sample.t0 in
  let d' := fst (auth_database_integration e ev d) in
  previousPaidStatus d 501 = false /\
  currentIsPaid e (ev_member ev) = true /\
  of_type upgrade_bonus (history_appended d d') = [upgrade_bonus_row e 1 (10 + 90)] /\
  balance_of d' 1 = Some 150.
Proof.
  intros e ev d d'.
  assert (Hid : md_id (ev_member ev) <> 0) by discriminate.
  assert (Hold : 30000 <= ev_now ev - m_first_seen_at Sample.alice_row)
    by (vm_compute; discriminate).
  assert (Hprev : previousPaidStatus d 501 = false) by (vm_compute; reflexivity).
  assert (Hcur : currentIsPaid e (ev_member ev) = true) by (vm_compute; reflexivity).
  destruct (upgrade_bonus_on_transition e ev d Sample.alice_row
              (CreditsRow 10 Sample.t0) Hid eq_refl eq_refl eq_refl eq_refl
              Hold Hprev Hcur)
    as (_ & Hrow & _ & Hbal & _).
  split; [exact Hprev|]. split; [exact Hcur|]. split.
  - exact Hrow.
  - etransitivity; [apply Hbal; left; vm_compute; reflexivity|].
    vm_compute. reflexivity.
Defined.

Lemma monthly_rows_of_event e (is_paid : bool) mid (fires due settles : bool)
    o1 n1 o2 n2 o3 n3 b1 b2 b3 ps :
  of_type monthly_refresh
    ((if fires
      then option_list (log_credit_change TG_UPDATE mid o1 n1)
           ++ [upgrade_bonus_row e mid b1]
      else [])
     ++ (if due
         then option_list (log_credit_change TG_UPDATE mid o2 n2)
              ++ [monthly_refresh_row e is_paid mid b2]
         else [])
     ++ (if settles
         then option_list (log_credit_change TG_UPDATE mid o3 n3)
              ++ purchase_rows mid b3 ps
         else []))
  = if due then [monthly_refresh_row e is_paid mid b2] else [].
Proof.
  rewrite !of_type_app.
  destruct fires; destruct due; destruct settles;
    rewrite ?of_type_app, ?of_type_trigger_update, ?of_type_purchase_rows_other
      by discriminate; reflexivity.
Qed.

(** C5: the transition is detected against the row read before the upsert
    and exactly one [upgrade_bonus] row of the configured difference is
    appended, but the amount is not always added to the balance.  When the
    balance with the bonus is 0 and the monthly refresh is due in the same
    event, [creditsResult.rows[0]?.credits_balance || creditsRecord.credits_balance]
    takes the 0 for a missing value and starts the refresh from the balance
    read before the bonus: the row says the bonus was granted with balance 0,
    the account ends without it. *)
Theorem upgrade_bonus_lost_to_refresh (e : env) (ev : auth_event) (d : db) m rec :
  let md := ev_member ev in
  let cid := md_id md in
  let mid := m_id m in
  md_id md <> 0 ->
  DATABASE_URL e = true ->
  members d !! cid = Some m ->
  email_taken d cid (md_email md) = false ->
  member_credits d !! mid = Some rec ->
  30000 <= ev_now ev - m_first_seen_at m ->
  previousPaidStatus d cid = false ->
  currentIsPaid e md = true ->
  let bonus := initial_credits_paid e - initial_credits_free e in
  last_refreshed_at rec < oneMonthAgo (ev_now ev) ->
  bonus <> 0 ->
  credits_balance rec + bonus = 0 ->
  ev_fault ev = None ->
  let ps := detect_purchase_tags (md_tags md) in
  let d' := fst (auth_database_integration e ev d) in
  of_type upgrade_bonus (history_appended d d') = [upgrade_bonus_row e mid 0] /\
  of_type monthly_refresh (history_appended d d')
    = [monthly_refresh_row e true mid (credits_balance rec + monthly_credits_paid e)] /\
  balance_of d' mid
    = Some (credits_balance rec + monthly_credits_paid e + purchases_total ps) /\
  balance_of d' mid
    <> Some (credits_balance rec + bonus + monthly_credits_paid e + purchases_total ps).
Proof.
  intros md cid mid Hid Hdb Hm Hemail Hrec Hold Hprev Hcur bonus Hdue Hbonus Hzero
         Hfault ps d'.
  assert (Hbal : balance_of d' mid
                 = Some (credits_balance rec + monthly_credits_paid e + purchases_total ps)).
  { subst d'. rewrite (auth_returning_eq e ev d m rec Hid Hdb Hm Hemail Hrec Hold).
    cbn [fst]. unfold balance_of. cbn [member_credits].
    fold md cid mid. rewrite lookup_insert_eq, Hprev, Hcur. cbn [negb andb].
    fold bonus ps. apply Z.ltb_lt in Hdue. rewrite Hdue, Hzero.
    unfold settlement_fails. rewrite Hfault. cbn [negb andb].
    cbn [fmap option_fmap option_map credits_balance]. f_equal.
    unfold Js.or_default. cbn [Z.eqb].
    destruct (0 <? length ps)%nat eqn:Hn; [reflexivity|].
    apply Nat.ltb_ge in Hn. destruct ps; [|cbn in Hn; lia].
    unfold purchases_total. cbn. lia. }
  split; [|split; [|split]].
  - subst d'. rewrite (auth_returning_eq e ev d m rec Hid Hdb Hm Hemail Hrec Hold).
    cbn [fst]. unfold history_appended. cbn [credit_history].
    rewrite drop_app_length.
    fold md cid mid. rewrite Hprev, Hcur. cbn [negb andb].
    fold bonus ps. rewrite Hzero.
    rewrite !of_type_app, of_type_trigger_update by discriminate.
    destruct (last_refreshed_at rec <? oneMonthAgo (ev_now ev));
      destruct (negb (settlement_fails ev ps) && (0 <? length ps)%nat)%bool;
      rewrite ?of_type_app, ?of_type_trigger_update, ?of_type_purchase_rows_other
        by discriminate; reflexivity.
  - subst d'. rewrite (auth_returning_eq e ev d m rec Hid Hdb Hm Hemail Hrec Hold).
    cbn [fst]. unfold history_appended. cbn [credit_history].
    rewrite drop_app_length, monthly_rows_of_event.
    fold md cid mid. rewrite Hprev, Hcur. cbn [negb andb].
    fold bonus. apply Z.ltb_lt in Hdue. rewrite Hdue, Hzero.
    unfold Js.or_default. cbn [Z.eqb]. reflexivity.
  - exact Hbal.
  - rewrite Hbal. intros H. injection H as H. lia.
Qed.

(** Reached from the empty database with the built-in amounts: Alice signs
    up as a free member (10 credits), an administrator forces a refresh with
    a bonus of -110 (balance -90), and a month later she signs in carrying
    the tag "vip".  The [upgrade_bonus] row of 90 is written with balance 0;
    her balance is 10, not 100. *)
Lemma upgrade_bonus_lost_to_refresh_witness :
  let e := Sample.env0 in
  let d := serve e
             [ PostAuth (Sample.sign_in 1704067200000 [] None);
               PostAdminRefreshCredits Sample.t1_month_before "admin@example.com"
                 501 (-110) true ]
             Sample.empty_db in
  let ev := Sample.sign_in Sample.t0 ["vip"] None in
  let d' := fst (auth_database_integration e ev d) in
  balance_of d 1 = Some (-90) /\
  of_type upgrade_bonus (history_appended d d') = [upgrade_bonus_row e 1 0] /\
  balance_of d' 1 = Some 10 /\
  balance_of d' 1 <> Some 100.
Proof.
  intros e d ev d'.
  assert (Hid : md_id (ev_member ev) <> 0) by discriminate.
  assert (Hm : members d !! md_id (ev_member ev)
               = Some (MemberRow 1 "alice@example.com" "Alice" false false
                         (Some false) (Some []) 1704067200000 1704067200000))
    by (vm_compute; reflexivity).
  assert (Hrec : member_credits d !! 1 = Some (CreditsRow (-90) Sample.t1_month_before))
    by (vm_compute; reflexivity).
  assert (Hemail : email_taken d (md_id (ev_member ev)) (md_email (ev_member ev)) = false)
    by (vm_compute; reflexivity).
  assert (Hold : 30000 <= ev_now ev - 1704067200000) by (vm_compute; discriminate).
  assert (Hprev : previousPaidStatus d (md_id (ev_member ev)) = false)
    by (vm_compute; reflexivity).
  assert (Hcur : currentIsPaid e (ev_member ev) = true) by (vm_compute; reflexivity).
  assert (Hdue : Sample.t1_month_before < oneMonthAgo (ev_now ev))
    by (vm_compute; reflexivity).
  assert (Hbonus : initial_credits_paid e - initial_credits_free e <> 0)
    by (vm_compute; discriminate).
  destruct (upgrade_bonus_lost_to_refresh e ev d _ _ Hid eq_refl Hm Hemail Hrec
              Hold Hprev Hcur Hdue Hbonus eq_refl eq_refl)
    as (Hrow & _ & Hbal & Hne).
  split; [vm_compute; reflexivity|]. split; [exact Hrow|]. split.
  - etransitivity; [exact Hbal|]. vm_compute. reflexivity.
  - exact Hne.
Defined.

(** C6, as the code has it: for a returning member the event appends a
    [monthly_refresh] row exactly when [last_refreshed_at] is strictly before
    the clock moved back one calendar month, and then exactly one, and
    [last_refreshed_at] becomes the event's clock.  Unless an upgrade bonus
    of the same event left the balance at exactly 0, the row is written with
    the balance the refresh found plus the tier's monthly amount, and the
    account ends the event with that plus the purchases settled. *)
Theorem monthly_refresh_gate (e : env) (ev : auth_event) (d : db) m rec :
  let md := ev_member ev in
  let cid := md_id md in
  let mid := m_id m in
  md_id md <> 0 ->
  DATABASE_URL e = true ->
  members d !! cid = Some m ->
  email_taken d cid (md_email md) = false ->
  member_credits d !! mid = Some rec ->
  30000 <= ev_now ev - m_first_seen_at m ->
  let is_paid := currentIsPaid e md in
  let fires := negb (previousPaidStatus d cid) && is_paid in
  let before :=
    if fires
    then credits_balance rec + (initial_credits_paid e - initial_credits_free e)
    else credits_balance rec in
  let monthly := if is_paid then monthly_credits_paid e else monthly_credits_free e in
  let ps := detect_purchase_tags (md_tags md) in
  let settles := negb (settlement_fails ev ps) && (0 <? length ps)%nat in
  let d' := fst (auth_database_integration e ev d) in
  credit_history d' = credit_history d ++ history_appended d d' /\
  (of_type monthly_refresh (history_appended d d') <> []
   <-> last_refreshed_at rec < oneMonthAgo (ev_now ev)) /\
  (last_refreshed_at rec < oneMonthAgo (ev_now ev) ->
   (exists balance_after,
       of_type monthly_refresh (history_appended d d')
       = [monthly_refresh_row e is_paid mid balance_after]) /\
   last_refreshed_at <$> (member_credits d' !! mid) = Some (ev_now ev) /\
   (fires = false \/ before <> 0 ->
    of_type monthly_refresh (history_appended d d')
    = [monthly_refresh_row e is_paid mid (before + monthly)] /\
    balance_of d' mid =
      Some (before + monthly + (if settles then purchases_total ps else 0)))) /\
  (oneMonthAgo (ev_now ev) <= last_refreshed_at rec ->
   last_refreshed_at <$> (member_credits d' !! mid) = Some (last_refreshed_at rec) /\
   balance_of d' mid =
     Some (before + (if settles then purchases_total ps else 0))).
Proof.
  intros md cid mid Hid Hdb Hm Hemail Hrec Hold is_paid fires before monthly
         ps settles d'.
  subst d'. rewrite (auth_returning_eq e ev d m rec Hid Hdb Hm Hemail Hrec Hold).
  cbn [fst]. unfold history_appended, balance_of. cbn [credit_history member_credits].
  rewrite drop_app_length, lookup_insert_eq.
  fold md cid mid is_paid fires before monthly ps settles.
  cbn [fmap option_fmap option_map credits_balance last_refreshed_at].
  set (due := last_refreshed_at rec <? oneMonthAgo (ev_now ev)).
  rewrite monthly_rows_of_event.
  assert (Hbase : fires = false \/ before <> 0 ->
                  Js.or_default (Some before) (credits_balance rec) = before).
  { intros [Hf | Hnz]; unfold Js.or_default.
    - subst before. rewrite Hf. destruct (credits_balance rec =? 0) eqn:E.
      + apply Z.eqb_eq in E. congruence.
      + reflexivity.
    - apply Z.eqb_neq in Hnz. rewrite Hnz. reflexivity. }
  split; [reflexivity|].
  destruct due eqn:Hdue; subst due.
  - apply Z.ltb_lt in Hdue. split; [split; [intros _; exact Hdue | discriminate]|].
    split.
    + intros _. split; [eauto|]. split; [reflexivity|].
      intros Hok. rewrite (Hbase Hok). split; [reflexivity|].
      destruct settles; f_equal; lia.
    + intros Hle. lia.
  - apply Z.ltb_ge in Hdue. split; [split; [congruence | lia]|].
    split.
    + intros Hlt. lia.
    + intros _. split; [reflexivity|].
      destruct settles; f_equal; lia.
Qed.

Lemma monthly_refresh_gate_witness :
  let e := Sample.env0 in
  let ev := Sample.sign_in Sample.t0 ["$50"] None in
  let d := Sample.db_with 10 0 in
  let d' := fst (auth_database_integration e ev d) in
  last_refreshed_at (CreditsRow 10 0) < oneMonthAgo (ev_now ev) /\
  of_type monthly_refresh (history_appended d d')
    = [monthly_refresh_row e false 1 20] /\
  last_refreshed_at <$> (member_credits d' !! 1) = Some Sample.t0 /\
  balance_of d' 1 = Some 70.
Proof.
  intros e ev d d'.
  assert (Hid : md_id (ev_member ev) <> 0) by discriminate.
  assert (Hold : 30000 <= ev_now ev - m_first_seen_at Sample.alice_row)
    by (vm_compute; discriminate).
  assert (Hdue : last_refreshed_at (CreditsRow 10 0) < oneMonthAgo (ev_now ev))
    by (vm_compute; reflexivity).
  destruct (monthly_refresh_gate e ev d Sample.alice_row (CreditsRow 10 0)
              Hid eq_refl eq_refl eq_refl eq_refl Hold)
    as (_ & _ & Hfires & _).
  destruct (Hfires Hdue) as (_ & Hlast & Hok).
  destruct Hok as [Hrow Hbal]; [left; vm_compute; reflexivity|].
  split; [exact Hdue|]. split; [exact Hrow|]. split; [exact Hlast|].
  etransitivity; [exact Hbal|]. vm_compute. reflexivity.
Defined.

(** C6 as the specification states it fails at the boundary: a returning
    member refreshed on 15 February at noon signs in on 15 March at noon.  One
    calendar month has passed, yet the event appends no [monthly_refresh]
    row. *)
Lemma monthly_refresh_gate_counterexample :
  let last := Sample.t1_month_before in
  let d := Sample.db_with 10 last in
  let d' := fst (auth_database_integration Sample.env0
                   (Sample.sign_in Sample.t1 [] None) d) in
  oneMonthAgo Sample.t1 = last /\
  ~ (of_type monthly_refresh (history_appended d d') <> []
     <-> one_month_elapsed last Sample.t1).
Proof.
  intros last d d'. split; [reflexivity|].
  intros [_ Hback].
  apply Hback.
  - unfold one_month_elapsed, last. vm_compute. discriminate.
  - vm_compute. reflexivity.
Qed.

(** The calendar month of the gate is the one [Date.setMonth] subtracts: a day
    of the month that the earlier month lacks carries over, so that from 31
    March 2024 the gate reaches back to 2 March only. *)
Example one_month_before_march_31 :
  JsDate.civil_from_days (JsDate.Day (oneMonthAgo Sample.t0)) = (2024, 3, 2)
  /\ JsDate.civil_from_days (JsDate.Day Sample.t0) = (2024, 3, 31).
Proof. split; reflexivity. Qed.

(** The refresh reads the balance through [... || creditsRecord.credits_balance]:
    a bonus that brings the balance to 0 is lost to the refresh of the same
    event.  Here the paid tier starts lower than the free one (bonus -5). *)
Example refresh_after_bonus_to_zero :
  let e := Env true (Some 5) (Some 10) None None default_paid_member_tags in
  let d := Sample.db_with 5 0 in
  let d' := fst (auth_database_integration e (Sample.sign_in Sample.t0 ["vip"] None) d) in
  ch_balance_after <$> history_appended d d' = [0; 0; 105; 105]
  /\ balance_of d' 1 = Some 105.
Proof. vm_compute. split; reflexivity. Qed.

(** ** The first sign-in of a member *)

(** In the initial-grant branch no [monthly_refresh] and no [upgrade_bonus]
    row is written; the handler writes one [initial_grant] row, and the
    trigger writes another one when the account row is inserted. *)
Lemma grant_branch_rows (e : env) (ev : auth_event) (d : db) :
  let md := ev_member ev in
  let cid := md_id md in
  let mid := match members d !! cid with
             | Some m => m_id m
             | None => members_id_seq d
             end in
  let first_seen := match members d !! cid with
                    | Some m => m_first_seen_at m
                    | None => ev_now ev
                    end in
  md_id md <> 0 ->
  DATABASE_URL e = true ->
  email_taken d cid (md_email md) = false ->
  member_credits d !! mid = None \/ (ev_now ev - first_seen <? 30000) = true ->
  let is_paid := currentIsPaid e md in
  let granted := if is_paid then initial_credits_paid e else initial_credits_free e in
  let d' := fst (auth_database_integration e ev d) in
  of_type monthly_refresh (history_appended d d') = [] /\
  of_type upgrade_bonus (history_appended d d') = [] /\
  of_type initial_grant (history_appended d d') =
    match member_credits d !! mid with
    | None => [HistoryRow mid granted initial_grant granted None
                 "Initial credit grant for new member";
               initial_grant_row e is_paid mid]
    | Some _ => [initial_grant_row e is_paid mid]
    end.
Proof.
  intros md cid mid first_seen Hid Hdb Hemail Hbranch is_paid granted d'.
  subst d'. rewrite (auth_grant_eq e ev d Hid Hdb Hemail Hbranch). cbn [fst].
  unfold history_appended. cbn [credit_history]. rewrite drop_app_length.
  fold md cid mid is_paid granted.
  rewrite !of_type_app.
  destruct (negb (settlement_fails _ _) && _)%bool;
    rewrite ?of_type_app, ?of_type_trigger_update, ?of_type_purchase_rows_other
      by discriminate;
    destruct (member_credits d !! mid) as [old|];
    rewrite ?of_type_trigger_update by discriminate;
    repeat split; reflexivity.
Qed.

(** C7, on the code: the first sign-in of a new free member.  The member gets
    no [monthly_refresh] and no [upgrade_bonus] row, but two [initial_grant]
    rows: the trigger's, written when the account row is inserted, and the
    handler's. *)
Theorem first_sign_in_logs_two_initial_grants :
  let d := Sample.empty_db in
  let d' := fst (auth_database_integration Sample.env0
                   (Sample.sign_in Sample.t0 [] None) d) in
  of_type initial_grant (history_appended d d') =
    [ HistoryRow 1 10 initial_grant 10 None "Initial credit grant for new member";
      HistoryRow 1 10 initial_grant 10 None "Initial credit grant: free member" ] /\
  of_type monthly_refresh (history_appended d d') = [] /\
  of_type upgrade_bonus (history_appended d d') = [].
Proof. vm_compute. repeat split; reflexivity. Qed.

(** C1, on the code: after the first sign-in of a new free member the stored
    balance is 10 while the change amounts of the member's history rows add
    up to 20. *)
Theorem first_sign_in_balance_and_history_sum :
  let d' := fst (auth_database_integration Sample.env0
                   (Sample.sign_in Sample.t0 [] None) Sample.empty_db) in
  balance_of d' 1 = Some 10 /\
  sum_change_amounts (history_of 1 d') = 20 /\
  ch_change_amount <$> history_of 1 d' = [10; 10].
Proof. vm_compute. repeat split; reflexivity. Qed.

(** ** Concurrent spend requests never overdraw *)

Module ConcurrentFacts.
Import Concurrent.

Lemma spent_total_app l1 l2 :
  spent_total (l1 ++ l2) = spent_total l1 + spent_total l2.
Proof.
  unfold spent_total. rewrite fmap_app, foldr_app.
  induction (done_cost <$> l1) as [|c cs IH]; simpl; lia.
Qed.

Lemma spent_total_cons t ts : spent_total (t :: ts) = done_cost t + spent_total ts.
Proof. reflexivity. Qed.

Lemma spent_total_insert ts i t t' :
  ts !! i = Some t ->
  spent_total (<[i := t']> ts) = spent_total ts - done_cost t + done_cost t'.
Proof.
  intros Hi.
  assert (Hlt : (i < length ts)%nat) by (eapply lookup_lt_Some; exact Hi).
  rewrite insert_take_drop by exact Hlt.
  rewrite <- (take_drop_middle ts i t Hi) at 3.
  rewrite !spent_total_app, !spent_total_cons. lia.
Qed.

Lemma thread_ok_not_holding cid mid b b' locks locks' i t :
  holding (snd t) = false ->
  thread_ok cid mid b locks i t -> thread_ok cid mid b' locks' i t.
Proof.
  unfold thread_ok. destruct t as [req p]. cbn [fst snd].
  intros Hh [Hc Hp]. split; [exact Hc|].
  destruct p as [| | | | | | |msg [l|]|[]]; try discriminate; auto.
Qed.

Lemma thread_ok_holds_lock cid mid b locks i t :
  holding (snd t) = true ->
  thread_ok cid mid b locks i t -> locks !! mid = Some i.
Proof.
  unfold thread_ok. destruct t as [req p]. cbn [fst snd].
  intros Hh [Hc Hp].
  destruct p as [| | | | | | |msg [l|]|[]]; try discriminate; tauto.
Qed.

(** Every other request keeps its invariant when request [i], owner of the
    lock or taker of a free lock, changes the balance or the lock table. *)
Lemma others_unaffected cid mid b b' locks locks' (ts : list (spend_request * pc)) i t' :
  (forall j t, ts !! j = Some t -> thread_ok cid mid b locks j t) ->
  (forall j, j <> i -> locks !! mid <> Some j) ->
  thread_ok cid mid b' locks' i t' ->
  forall j t, <[i := t']> ts !! j = Some t -> thread_ok cid mid b' locks' j t.
Proof.
  intros Hall Hfree Hi j t Hj.
  destruct (decide (i = j)) as [<- | Hne].
  - assert (Hlt : (i < length ts)%nat).
    { apply lookup_lt_Some in Hj. rewrite length_insert in Hj. exact Hj. }
    rewrite list_lookup_insert_eq in Hj by exact Hlt.
    injection Hj as <-. exact Hi.
  - rewrite list_lookup_insert_ne in Hj by exact Hne.
    specialize (Hall j t Hj).
    destruct (holding (snd t)) eqn:Hh.
    + exfalso. apply (Hfree j); [congruence|].
      eapply thread_ok_holds_lock; eassumption.
    + eapply thread_ok_not_holding; eassumption.
Qed.

(** Every other request keeps its invariant when request [i] moves without
    touching the balance or the locks. *)
Lemma others_unchanged cid mid b locks (ts : list (spend_request * pc)) i t' :
  (forall j t, ts !! j = Some t -> thread_ok cid mid b locks j t) ->
  thread_ok cid mid b locks i t' ->
  forall j t, <[i := t']> ts !! j = Some t -> thread_ok cid mid b locks j t.
Proof.
  intros Hall Hi j t Hj.
  destruct (decide (i = j)) as [<- | Hne].
  - assert (Hlt : (i < length ts)%nat).
    { apply lookup_lt_Some in Hj. rewrite length_insert in Hj. exact Hj. }
    rewrite list_lookup_insert_eq in Hj by exact Hlt.
    injection Hj as <-. exact Hi.
  - rewrite list_lookup_insert_ne in Hj by exact Hne.
    apply Hall. exact Hj.
Qed.

Lemma commit_spend_tables req mid nb aid d old :
  member_credits d !! mid = Some old ->
  members (commit_spend req mid nb aid d) = members d /\
  member_credits (commit_spend req mid nb aid d)
  = <[mid := CreditsRow nb (last_refreshed_at old)]> (member_credits d).
Proof.
  intros Hold. unfold commit_spend, log_action_cost, store_app_action, deduct_credits.
  rewrite (update_member_credits_some _ _ None _ _ Hold). db_proj. split; reflexivity.
Qed.

Lemma select_under_inv cid m b refreshed req d :
  members d !! cid = Some m ->
  member_credits d !! m_id m = Some (CreditsRow b refreshed) ->
  sr_circle_member_id req = cid ->
  select_member_credits (sr_circle_member_id req) d = Some (m_id m, b).
Proof.
  intros Hm Hrow ->. rewrite (select_member_credits_some _ _ _ _ Hm Hrow). reflexivity.
Qed.

(** A move that leaves the account row, the locks and the charge of the
    moving request alone. *)
Lemma inv_local_step cid m b0 s i req p p' d' :
  inv cid m b0 s ->
  threads s !! i = Some (req, p) ->
  members d' = members (committed s) ->
  member_credits d' = member_credits (committed s) ->
  done_cost (req, p') = done_cost (req, p) ->
  (forall b, thread_ok cid (m_id m) b (row_locks s) i (req, p) ->
             thread_ok cid (m_id m) b (row_locks s) i (req, p')) ->
  inv cid m b0 (System d' (row_locks s) (<[i := (req, p')]> (threads s))).
Proof.
  intros (Hm & b & refreshed & Hrow & Hb & Hnn & Hall) Hi Hms Hmc Hcost Hok.
  split; [cbn [committed]; rewrite Hms; exact Hm|].
  exists b, refreshed. cbn [committed row_locks threads].
  split; [rewrite Hmc; exact Hrow|].
  split; [rewrite (spent_total_insert _ _ _ _ Hi), Hcost; lia|].
  split; [exact Hnn|].
  apply others_unchanged; [exact Hall|].
  apply Hok. apply Hall. exact Hi.
Qed.

Lemma step_preserves_inv e cid m b0 i s s' :
  inv cid m b0 s -> step e i s = Some s' -> inv cid m b0 s'.
Proof.
  intros Hinv Hstep.
  unfold step in Hstep.
  destruct (threads s !! i) as [[req p]|] eqn:Hi; [|discriminate].
  cbn [mbind option_bind] in Hstep.
  destruct (step_thread e i req p (committed s) (row_locks s))
    as [[[d locks] p']|] eqn:Hst; [|discriminate].
  cbn [mbind option_bind] in Hstep. injection Hstep as <-.
  pose proof Hinv as (Hm & b & refreshed & Hrow & Hb & Hnn & Hall).
  pose proof (Hall i _ Hi) as [Hc Hp]. cbn [fst snd] in Hc, Hp.
  destruct p as [ | | | mid' bal | mid' nb | mid' nb aid | mid' nb aid
                | msg locked | resp ]; cbn [step_thread] in Hst.
  - (* AtStart *)
    destruct (negb (DATABASE_URL e)).
    { injection Hst as <- <- <-.
      apply inv_local_step with (p := AtStart);
        [exact Hinv | exact Hi | reflexivity | reflexivity | reflexivity |].
      intros b1 [H1 _]. split; [exact H1 | exact I]. }
    destruct ((sr_circle_member_id req =? 0) || String.eqb (sr_action_type req) "").
    { injection Hst as <- <- <-.
      apply inv_local_step with (p := AtStart);
        [exact Hinv | exact Hi | reflexivity | reflexivity | reflexivity |].
      intros b1 [H1 _]. split; [exact H1 | exact I]. }
    injection Hst as <- <- <-.
    apply inv_local_step with (p := AtStart);
      [exact Hinv | exact Hi | reflexivity | reflexivity | reflexivity |].
    intros b1 [H1 _]. split; [exact H1 | exact I].
  - (* AtBegin *)
    injection Hst as <- <- <-.
    apply inv_local_step with (p := AtBegin);
      [exact Hinv | exact Hi | reflexivity | reflexivity | reflexivity |].
    intros b1 [H1 _]. split; [exact H1 | exact I].
  - (* AtSelect *)
    rewrite (select_under_inv _ _ _ _ _ _ Hm Hrow Hc) in Hst.
    destruct (row_locks s !! m_id m) as [holder|] eqn:Hlock; [discriminate|].
    assert (Hfree : forall j, j <> i -> row_locks s !! m_id m <> Some j)
      by (intros j _; rewrite Hlock; discriminate).
    destruct (b <? cost_of req) eqn:Hlt; injection Hst as <- <- <-.
    + split; [exact Hm|]. exists b, refreshed. cbn [committed row_locks threads].
      split; [exact Hrow|].
      split; [rewrite (spent_total_insert _ _ _ _ Hi); cbn [done_cost snd]; lia|].
      split; [exact Hnn|].
      eapply others_unaffected; [exact Hall | exact Hfree |].
      split; [exact Hc|]. cbn [snd]. split; [reflexivity | apply lookup_insert_eq].
    + split; [exact Hm|]. exists b, refreshed. cbn [committed row_locks threads].
      split; [exact Hrow|].
      split; [rewrite (spent_total_insert _ _ _ _ Hi); cbn [done_cost snd]; lia|].
      split; [exact Hnn|].
      eapply others_unaffected; [exact Hall | exact Hfree |].
      split; [exact Hc|]. cbn [snd fst]. apply Z.ltb_ge in Hlt.
      repeat split; [apply lookup_insert_eq | exact Hlt].
  - (* AtUpdate *)
    injection Hst as <- <- <-.
    apply inv_local_step with (p := AtUpdate mid' bal);
      [exact Hinv | exact Hi | reflexivity | reflexivity | reflexivity |].
    intros b1 [H1 (H2 & H3 & H4 & H5)]. cbn [fst snd] in *.
    split; [exact H1|]. cbn [snd fst]. repeat split; auto; lia.
  - (* AtInsertAction *)
    injection Hst as <- <- <-.
    apply inv_local_step with (p := AtInsertAction mid' nb);
      [exact Hinv | exact Hi | reflexivity | reflexivity | reflexivity |].
    intros b1 H1. exact H1.
  - (* AtInsertHistory *)
    injection Hst as <- <- <-.
    apply inv_local_step with (p := AtInsertHistory mid' nb aid);
      [exact Hinv | exact Hi | reflexivity | reflexivity | reflexivity |].
    intros b1 H1. exact H1.
  - (* AtCommit *)
    injection Hst as <- <- <-.
    destruct Hp as (-> & Hlock & Hnb & Hpos).
    destruct (commit_spend_tables req (m_id m) nb aid (committed s) _ Hrow)
      as [Hms Hmc].
    split; [cbn [committed]; rewrite Hms; exact Hm|].
    exists nb, refreshed. cbn [committed row_locks threads].
    split; [rewrite Hmc; apply lookup_insert_eq|].
    split; [rewrite (spent_total_insert _ _ _ _ Hi); cbn [done_cost snd]; lia|].
    split; [intros _; exact Hpos|].
    eapply others_unaffected; [exact Hall | |].
    + intros j Hne Hj. rewrite Hlock in Hj. congruence.
    + split; [exact Hc|]. reflexivity.
  - (* AtRollback *)
    injection Hst as <- <- <-.
    destruct locked as [mid'|].
    + destruct Hp as (-> & Hlock).
      split; [exact Hm|]. exists b, refreshed. cbn [committed row_locks threads].
      split; [exact Hrow|].
      split; [rewrite (spent_total_insert _ _ _ _ Hi); cbn [done_cost snd]; lia|].
      split; [exact Hnn|].
      eapply others_unaffected; [exact Hall | |].
      * intros j Hne Hj. rewrite Hlock in Hj. congruence.
      * split; [exact Hc | exact I].
    + apply inv_local_step with (p := AtRollback msg None);
        [exact Hinv | exact Hi | reflexivity | reflexivity | reflexivity |].
      intros b1 [H1 _]. split; [exact H1 | exact I].
  - (* Done *)
    discriminate.
Qed.

Lemma run_preserves_inv e cid m b0 schedule : forall s,
  inv cid m b0 s -> inv cid m b0 (run e schedule s).
Proof.
  induction schedule as [|i rest IH]; intros s Hinv; [exact Hinv|].
  cbn [run]. apply IH.
  destruct (step e i s) as [s'|] eqn:Hstep; cbn [default].
  - eapply step_preserves_inv; eassumption.
  - exact Hinv.
Qed.

Lemma spent_total_init (reqs : list spend_request) :
  spent_total ((fun r => (r, AtStart)) <$> reqs) = 0.
Proof. induction reqs as [|r reqs IH]; [reflexivity|]. rewrite fmap_cons, spent_total_cons, IH. reflexivity. Qed.

Lemma init_inv d cid m row reqs :
  members d !! cid = Some m ->
  member_credits d !! m_id m = Some row ->
  Forall (fun r => sr_circle_member_id r = cid) reqs ->
  inv cid m (credits_balance row) (init d reqs).
Proof.
  intros Hm Hrow Hreqs. split; [exact Hm|].
  exists (credits_balance row), (last_refreshed_at row). cbn [init committed threads row_locks].
  split; [rewrite Hrow; destruct row; reflexivity|].
  split; [rewrite spent_total_init; lia|].
  split; [auto|].
  intros i t Ht.
  apply list_lookup_fmap_Some in Ht as (r & -> & Hr).
  split; [|exact I]. cbn [fst].
  rewrite List.Forall_forall in Hreqs. apply Hreqs.
  apply list_elem_of_In. eapply list_elem_of_lookup_2. exact Hr.
Qed.

Lemma step_length e i s s' :
  step e i s = Some s' -> length (threads s') = length (threads s).
Proof.
  unfold step.
  destruct (threads s !! i) as [[req p]|]; [|discriminate].
  cbn [mbind option_bind].
  destruct (step_thread e i req p (committed s) (row_locks s))
    as [[[d locks] p']|]; [|discriminate].
  cbn [mbind option_bind]. intros [= <-]. cbn [threads]. apply length_insert.
Qed.

Lemma run_length e schedule : forall s,
  length (threads (run e schedule s)) = length (threads s).
Proof.
  induction schedule as [|i rest IH]; intros s; [reflexivity|].
  cbn [run]. rewrite IH.
  destruct (step e i s) as [s'|] eqn:Hstep; cbn [default]; [|reflexivity].
  eapply step_length; eassumption.
Qed.

(** The requests keep their places in the list. *)
Lemma step_requests e i s s' :
  step e i s = Some s' -> fst <$> threads s' = fst <$> threads s.
Proof.
  unfold step.
  destruct (threads s !! i) as [[req p]|] eqn:Hi; [|discriminate].
  cbn [mbind option_bind].
  destruct (step_thread e i req p (committed s) (row_locks s))
    as [[[d locks] p']|]; [|discriminate].
  cbn [mbind option_bind]. intros [= <-]. cbn [threads].
  rewrite list_fmap_insert. cbn [fst].
  apply list_insert_id. rewrite list_lookup_fmap, Hi. reflexivity.
Qed.

Lemma run_requests e schedule : forall s,
  fst <$> threads (run e schedule s) = fst <$> threads s.
Proof.
  induction schedule as [|i rest IH]; intros s; [reflexivity|].
  cbn [run]. rewrite IH.
  destruct (step e i s) as [s'|] eqn:Hstep; cbn [default]; [|reflexivity].
  eapply step_requests; eassumption.
Qed.

(** In every reachable state the account holds what it started with minus
    the cost of the requests that succeeded, and no less than 0 if it
    started so. *)
Lemma reachable_balance e d cid m row reqs schedule :
  members d !! cid = Some m ->
  member_credits d !! m_id m = Some row ->
  Forall (fun r => sr_circle_member_id r = cid) reqs ->
  let s := run e schedule (init d reqs) in
  exists b,
    balance_of (committed s) (m_id m) = Some b /\
    b = credits_balance row - spent_total (threads s) /\
    (0 <= credits_balance row -> 0 <= b) /\
    (forall i req aid spent remaining,
        threads s !! i = Some (req, Done (SpendOk aid spent remaining)) ->
        spent = cost_of req).
Proof.
  intros Hm Hrow Hreqs s.
  destruct (run_preserves_inv e cid m (credits_balance row) schedule _
              (init_inv d cid m row reqs Hm Hrow Hreqs))
    as (_ & b & refreshed & Hb & Hsum & Hnn & Hall).
  exists b. fold s in Hb, Hsum, Hall. unfold balance_of. rewrite Hb.
  repeat split; auto.
  intros i req aid spent remaining Hi.
  destruct (Hall i _ Hi) as [_ Hok]. exact Hok.
Qed.

End ConcurrentFacts.

(** C2: spend requests against one account, interleaved in any order at
    their statements, never leave the committed balance negative when it
    started non-negative; and of two requests that each fit the starting
    balance but not together, at most one is answered with success. *)
Theorem concurrent_debits_never_overdraw (e : env) (d0 : db) cid m row :
  members d0 !! cid = Some m ->
  member_credits d0 !! m_id m = Some row ->
  (forall reqs schedule,
      Forall (fun r => sr_circle_member_id r = cid) reqs ->
      0 <= credits_balance row ->
      exists b,
        balance_of
          (Concurrent.committed (Concurrent.run e schedule (Concurrent.init d0 reqs)))
          (m_id m) = Some b /\
        0 <= b) /\
  (forall r1 r2 schedule,
      sr_circle_member_id r1 = cid ->
      sr_circle_member_id r2 = cid ->
      Concurrent.cost_of r1 <= credits_balance row ->
      Concurrent.cost_of r2 <= credits_balance row ->
      credits_balance row < Concurrent.cost_of r1 + Concurrent.cost_of r2 ->
      let s := Concurrent.run e schedule (Concurrent.init d0 [r1; r2]) in
      ~ (Concurrent.succeeded 0 s /\ Concurrent.succeeded 1 s) /\
      exists b, balance_of (Concurrent.committed s) (m_id m) = Some b /\ 0 <= b).
Proof.
  intros Hm Hrow. split.
  - intros reqs schedule Hreqs Hpos.
    destruct (ConcurrentFacts.reachable_balance e d0 cid m row reqs schedule
                Hm Hrow Hreqs) as (b & Hb & _ & Hnn & _).
    exists b. auto.
  - intros r1 r2 schedule H1 H2 Hc1 Hc2 Hsum s.
    assert (Hreqs : Forall (fun r => sr_circle_member_id r = cid) [r1; r2])
      by (repeat constructor; assumption).
    destruct (ConcurrentFacts.reachable_balance e d0 cid m row [r1; r2] schedule
                Hm Hrow Hreqs) as (b & Hb & Hspent & Hnn & Hdone).
    fold s in Hb, Hspent, Hdone.
    assert (Hpos : 0 <= credits_balance row) by lia.
    split; [|exists b; auto].
    intros [(q1 & a1 & s1 & k1 & Ht1) (q2 & a2 & s2 & k2 & Ht2)].
    pose proof (ConcurrentFacts.run_length e schedule (Concurrent.init d0 [r1; r2]))
      as Hlen.
    fold s in Hlen. cbn in Hlen.
    destruct (Concurrent.threads s) as [|t1 [|t2 [|t3 ts]]] eqn:Hts;
      try discriminate.
    cbn in Ht1, Ht2. injection Ht1 as ->. injection Ht2 as ->.
    specialize (Hnn Hpos).
    unfold Concurrent.spent_total in Hspent. cbn in Hspent.
    pose proof (Hdone 0%nat _ _ _ _ eq_refl) as E1.
    pose proof (Hdone 1%nat _ _ _ _ eq_refl) as E2.
    (* the requests keep their place in the list *)
    assert (Hsame : q1 = r1 /\ q2 = r2).
    { pose proof (ConcurrentFacts.run_requests e schedule
                    (Concurrent.init d0 [r1; r2])) as Hgen.
      fold s in Hgen. rewrite Hts in Hgen. cbn in Hgen.
      injection Hgen as -> ->. auto. }
    destruct Hsame as [-> ->]. lia.
Qed.

Lemma concurrent_debits_never_overdraw_witness :
  let schedule := [0; 1; 0; 1; 0; 1; 0; 1; 0; 1; 0; 1; 0; 1; 1; 1; 1]%nat in
  let s := Concurrent.run Sample.env0 schedule
             (Concurrent.init (Sample.db_with 5 0) [Sample.spend 3; Sample.spend 4]) in
  ~ (Concurrent.succeeded 0 s /\ Concurrent.succeeded 1 s) /\
  exists b, balance_of (Concurrent.committed s) 1 = Some b /\ 0 <= b.
Proof.
  intros schedule.
  destruct (concurrent_debits_never_overdraw Sample.env0 (Sample.db_with 5 0)
              501 Sample.alice_row (CreditsRow 5 0) eq_refl eq_refl) as [_ Hpair].
  apply (Hpair (Sample.spend 3) (Sample.spend 4) schedule);
    try reflexivity; vm_compute; discriminate.
Defined.

(** Two requests of 3 and 4 credits against a balance of 5: whichever takes
    the lock first is served, the other waits at its [SELECT], reads the new
    balance and is refused. *)
Example race_first_wins :
  let s := Concurrent.run Sample.env0
             [0; 1; 0; 1; 0; 1; 0; 1; 0; 1; 0; 1; 0; 1; 1; 1; 1]%nat
             (Concurrent.init (Sample.db_with 5 0) [Sample.spend 3; Sample.spend 4]) in
  snd <$> Concurrent.threads s =
    [ Concurrent.Done (SpendOk 1 3 2);
      Concurrent.Done (SpendError 402 "Insufficient credits") ] /\
  balance_of (Concurrent.committed s) 1 = Some 2 /\
  Concurrent.row_locks s = ∅.
Proof. vm_compute. repeat split; reflexivity. Qed.

Example race_second_wins :
  let s := Concurrent.run Sample.env0
             [1; 0; 1; 0; 1; 0; 1; 0; 1; 0; 1; 0; 1; 0; 0; 0; 0]%nat
             (Concurrent.init (Sample.db_with 5 0) [Sample.spend 3; Sample.spend 4]) in
  snd <$> Concurrent.threads s =
    [ Concurrent.Done (SpendError 402 "Insufficient credits");
      Concurrent.Done (SpendOk 1 4 1) ] /\
  balance_of (Concurrent.committed s) 1 = Some 1.
Proof. vm_compute. repeat split; reflexivity. Qed.

Lemma run_single_cons e rest req p d locks :
  Concurrent.run e (0%nat :: rest) (Concurrent.System d locks [(req, p)]) =
  Concurrent.run e rest
    match Concurrent.step_thread e 0 req p d locks with
    | Some (d', locks', p') => Concurrent.System d' locks' [(req, p')]
    | None => Concurrent.System d locks [(req, p)]
    end.
Proof.
  cbn [Concurrent.run]. f_equal. unfold Concurrent.step.
  cbn [Concurrent.threads lookup list_lookup mbind option_bind
       Concurrent.committed Concurrent.row_locks].
  destruct (Concurrent.step_thread e 0 req p d locks) as [[[d' locks'] p']|];
    reflexivity.
Qed.

Lemma run_single_done e schedule req resp d locks :
  Forall (fun i => i = 0%nat) schedule ->
  Concurrent.run e schedule (Concurrent.System d locks [(req, Concurrent.Done resp)])
  = Concurrent.System d locks [(req, Concurrent.Done resp)].
Proof.
  induction 1 as [|i rest -> _ IH]; [reflexivity|].
  rewrite run_single_cons. exact IH.
Qed.

Ltac lone_step :=
  rewrite run_single_cons;
  cbn [Concurrent.step_thread Concurrent.release nextval_app_actions].

(** A request that runs alone goes through the statements of
    [spend_credits] and ends where that function ends. *)
Lemma lone_request_is_spend_credits e req d :
  let s := Concurrent.run e (replicate 8 0%nat) (Concurrent.init d [req]) in
  Concurrent.committed s = fst (spend_credits e req d) /\
  Concurrent.threads s = [(req, Concurrent.Done (snd (spend_credits e req d)))] /\
  Concurrent.row_locks s = ∅.
Proof.
  assert (Hzeros : forall n, Forall (fun i => i = 0%nat) (replicate n 0%nat)).
  { induction n; constructor; auto. }
  unfold spend_credits, Concurrent.init.
  change ((fun r => (r, Concurrent.AtStart)) <$> [req])
    with [(req, Concurrent.AtStart)].
  change (replicate 8 0%nat) with (0%nat :: replicate 7 0%nat).
  lone_step.
  destruct (negb (DATABASE_URL e)).
  { rewrite run_single_done by apply Hzeros. cbn. auto. }
  destruct ((sr_circle_member_id req =? 0) || String.eqb (sr_action_type req) "").
  { rewrite run_single_done by apply Hzeros. cbn. auto. }
  change (replicate 7 0%nat) with (0%nat :: 0%nat :: replicate 5 0%nat).
  lone_step. lone_step.
  unfold spend_transaction. fold (Concurrent.cost_of req).
  destruct (select_member_credits (sr_circle_member_id req) d)
    as [[memberId balance]|] eqn:Hsel.
  - rewrite lookup_empty.
    destruct (balance <? Concurrent.cost_of req) eqn:Hlt.
    + change (replicate 5 0%nat) with (0%nat :: replicate 4 0%nat).
      lone_step.
      rewrite run_single_done by apply Hzeros.
      cbn. rewrite delete_insert_eq, delete_empty. auto.
    + change (replicate 5 0%nat)
        with (0%nat :: 0%nat :: 0%nat :: 0%nat :: replicate 1 0%nat).
      lone_step. lone_step. lone_step. lone_step.
      rewrite run_single_done by apply Hzeros.
      unfold select_member_credits in Hsel.
      destruct (members d !! sr_circle_member_id req) as [m|]; [|discriminate].
      cbn [mbind option_bind] in Hsel.
      destruct (member_credits d !! m_id m) as [row|] eqn:Hrow; [|discriminate].
      cbn [mbind option_bind] in Hsel. injection Hsel as <- <-.
      cbn [Concurrent.committed Concurrent.threads Concurrent.row_locks].
      unfold Concurrent.commit_spend, deduct_credits, log_action_cost,
             store_app_action, insert_app_action, nextval_app_actions.
      rewrite (update_member_credits_some _ _ None _ _ Hrow).
      rewrite (update_member_credits_some (m_id m) _ None
                 (Db (members d) (member_credits d) (app_actions d)
                     (credit_history d) (processed_purchase_tags d)
                     (members_id_seq d) (app_actions_id_seq d + 1)) row Hrow).
      db_proj. rewrite delete_insert_eq, delete_empty. auto.
  - change (replicate 5 0%nat) with (0%nat :: replicate 4 0%nat).
    lone_step.
    rewrite run_single_done by apply Hzeros. cbn. auto.
Qed.

(** ** The history against the balance *)

Lemma sum_change_amounts_app l1 l2 :
  sum_change_amounts (l1 ++ l2) = sum_change_amounts l1 + sum_change_amounts l2.
Proof.
  unfold sum_change_amounts. rewrite fmap_app, foldr_app.
  induction (ch_change_amount <$> l1) as [|c cs IH]; simpl; lia.
Qed.

Lemma sum_purchase_rows mid b ps :
  sum_change_amounts (purchase_rows mid b ps) = purchases_total ps.
Proof.
  unfold sum_change_amounts, purchases_total, purchase_rows.
  induction ps as [|p ps IH]; [reflexivity|].
  rewrite !fmap_cons. cbn [foldr ch_change_amount]. rewrite IH. reflexivity.
Qed.

Lemma filter_member_purchase_rows mid b ps :
  filter (fun r => ch_member_id r = mid) (purchase_rows mid b ps)
  = purchase_rows mid b ps.
Proof.
  unfold purchase_rows.
  induction ps as [|p ps IH]; [reflexivity|].
  rewrite fmap_cons, filter_cons_True by reflexivity. rewrite IH. reflexivity.
Qed.

(** The first sign-in of a member who has neither an account nor any history
    row: whatever the tier and the purchase tags, every credit of the final
    balance is in the history twice, once in a row of the trigger and once in
    a row of the handler. *)
Lemma first_sign_in_logged_twice (e : env) (ev : auth_event) (d : db) :
  let md := ev_member ev in
  let mid := members_id_seq d in
  md_id md <> 0 ->
  DATABASE_URL e = true ->
  members d !! md_id md = None ->
  email_taken d (md_id md) (md_email md) = false ->
  member_credits d !! mid = None ->
  history_of mid d = [] ->
  let d' := fst (auth_database_integration e ev d) in
  exists b,
    balance_of d' mid = Some b /\
    sum_change_amounts (history_of mid d') = 2 * b.
Proof.
  intros md mid Hid Hdb Hnew Hemail Hnone Hhist d'.
  assert (Hbranch :
    member_credits d !! match members d !! md_id md with
                        | Some m => m_id m
                        | None => members_id_seq d
                        end = None \/
    (ev_now ev - match members d !! md_id md with
                 | Some m => m_first_seen_at m
                 | None => ev_now ev
                 end <? 30000) = true).
  { left. rewrite Hnew. exact Hnone. }
  subst d'. rewrite (auth_grant_eq e ev d Hid Hdb Hemail Hbranch). cbn [fst].
  fold md. rewrite Hnew. fold mid. rewrite Hnone.
  unfold balance_of, history_of. cbn [member_credits credit_history].
  rewrite lookup_insert_eq. cbn [fmap option_fmap option_map credits_balance].
  eexists. split; [reflexivity|].
  rewrite !filter_app. fold (history_of mid d). rewrite Hhist. cbn [app].
  rewrite !sum_change_amounts_app.
  set (granted := if currentIsPaid e md
                  then initial_credits_paid e else initial_credits_free e).
  set (ps := detect_purchase_tags (md_tags md)).
  destruct (negb (settlement_fails ev ps) && (0 <? length ps)%nat) eqn:Hs.
  - assert (Hpos : 0 < purchases_total ps).
    { apply purchases_total_pos; [apply detect_purchase_tags_credits|].
      intros Hnil. rewrite Hnil in Hs. rewrite andb_false_r in Hs. discriminate. }
    change (CreditsRow (granted + purchases_total ps) (ev_now ev))
      with (CreditsRow
              (credits_balance (CreditsRow granted (ev_now ev)) + purchases_total ps)
              (ev_now ev)).
    rewrite trigger_logs_change by lia.
    cbn [log_credit_change option_list option_rect credits_balance].
    rewrite filter_app, filter_member_purchase_rows.
    rewrite sum_change_amounts_app, sum_purchase_rows.
    rewrite !filter_cons_True by reflexivity. rewrite !filter_nil.
    unfold sum_change_amounts, initial_grant_row.
    cbn [fmap list_fmap foldr ch_change_amount]. fold granted. lia.
  - cbn [log_credit_change option_list option_rect credits_balance].
    rewrite !filter_cons_True by reflexivity. rewrite !filter_nil.
    unfold sum_change_amounts, initial_grant_row.
    cbn [fmap list_fmap foldr ch_change_amount]. fold granted. lia.
Qed.

(** A member who signs in again within 30 seconds takes the initial-grant
    branch a second time: the balance is set back to the tier's amount (the 50
    purchased credits are gone) while the handler logs another grant. *)
Example second_sign_in_within_30_seconds :
  let first := Sample.sign_in Sample.t0 ["$50"] None in
  let second := Sample.sign_in (Sample.t0 + 5000) [] None in
  let d1 := fst (auth_database_integration Sample.env0 first Sample.empty_db) in
  let d2 := fst (auth_database_integration Sample.env0 second d1) in
  balance_of d1 1 = Some 60 /\
  balance_of d2 1 = Some 10 /\
  ch_change_amount <$> history_appended d1 d2 = [-50; 10].
Proof. vm_compute. repeat split; reflexivity. Qed.

(** An administrative bonus for a member without an account leaves a history
    row and no balance at all. *)
Example admin_bonus_history_without_balance :
  let d' := fst (admin_refresh_credits Sample.env0 Sample.t0 "admin@example.com"
                   501 25 false Sample.db_no_account) in
  balance_of d' 1 = None /\ sum_change_amounts (history_of 1 d') = 25.
Proof. vm_compute. split; reflexivity. Qed.

(** * Further properties of the handlers *)

(** ** POST /api/credits/spend: every outcome *)

Lemma select_member_credits_none_iff cid d :
  select_member_credits cid d = None <->
  members d !! cid = None \/
  exists m, members d !! cid = Some m /\ member_credits d !! m_id m = None.
Proof.
  unfold select_member_credits.
  destruct (members d !! cid) as [m|]; cbn [mbind option_bind].
  - destruct (member_credits d !! m_id m) as [row|] eqn:Hrow; cbn [mbind option_bind].
    + split; [discriminate|].
      intros [H | (m' & Hm' & Hnone)]; [discriminate|].
      injection Hm' as <-. congruence.
    + split; [|reflexivity]. intros _. right. eauto.
  - split; auto.
Qed.

Lemma select_member_credits_inv cid d mid bal :
  select_member_credits cid d = Some (mid, bal) ->
  exists m row, members d !! cid = Some m /\ member_credits d !! m_id m = Some row /\
                mid = m_id m /\ bal = credits_balance row.
Proof.
  unfold select_member_credits.
  destruct (members d !! cid) as [m|]; cbn [mbind option_bind]; [|discriminate].
  destruct (member_credits d !! m_id m) as [row|] eqn:Hrow;
    cbn [mbind option_bind]; [|discriminate].
  intros [= <- <-]. eauto 6.
Qed.

(** The decision table of the endpoint. *)
Lemma spend_credits_outcome e req d :
  let cid := sr_circle_member_id req in
  let cost := default 1 (sr_credits_cost req) in
  (exists status message,
      spend_credits e req d = (d, SpendError status message) /\
      ((status = 501 /\ DATABASE_URL e = false) \/
       (status = 400 /\ (cid = 0 \/ sr_action_type req = "")) \/
       (status = 404 /\ select_member_credits cid d = None) \/
       (status = 402 /\ exists m row,
           members d !! cid = Some m /\ member_credits d !! m_id m = Some row /\
           credits_balance row < cost))) \/
  (exists m row,
      DATABASE_URL e = true /\ cid <> 0 /\ sr_action_type req <> "" /\
      members d !! cid = Some m /\ member_credits d !! m_id m = Some row /\
      cost <= credits_balance row /\
      let newBalance := credits_balance row - cost in
      let new := CreditsRow newBalance (last_refreshed_at row) in
      let actionId := app_actions_id_seq d in
      spend_credits e req d =
      (Db (members d) (<[m_id m := new]> (member_credits d))
          (app_actions d ++
             [ActionRow actionId (m_id m) (sr_action_type req) cost
                (sr_metadata req) true])
          (credit_history d
             ++ option_list (log_credit_change TG_UPDATE (m_id m) row new)
             ++ [HistoryRow (m_id m) (- cost) action_cost newBalance (Some actionId)
                   ("Credits spent on " ++ sr_action_type req)])
          (processed_purchase_tags d) (members_id_seq d) (app_actions_id_seq d + 1),
       SpendOk actionId cost newBalance)).
Proof.
  intros cid cost.
  destruct (DATABASE_URL e) eqn:Hdb.
  2:{ left. exists 501, "Credit system requires database configuration".
      unfold spend_credits. rewrite Hdb. cbn.
      split; [reflexivity | left; auto]. }
  destruct (Z.eq_dec cid 0) as [Hz|Hnz].
  { left. exists 400, "circle_member_id and action_type are required".
    unfold spend_credits. rewrite Hdb. fold cid. rewrite Hz. cbn.
    split; [reflexivity | right; left; auto]. }
  destruct (string_dec (sr_action_type req) "") as [Hs|Hns].
  { left. exists 400, "circle_member_id and action_type are required".
    unfold spend_credits. rewrite Hdb, Hs. cbn. rewrite orb_true_r.
    split; [reflexivity | right; left; auto]. }
  rewrite (spend_credits_valid e req d Hdb Hnz Hns). fold cid cost.
  destruct (select_member_credits cid d) as [[mid bal]|] eqn:Hsel.
  - apply select_member_credits_inv in Hsel as (m & row & Hm & Hrow & -> & ->).
    destruct (Z_lt_le_dec (credits_balance row) cost) as [Hlt|Hle].
    + left. exists 402, insufficient_credits. split.
      * unfold spend_transaction.
        rewrite (select_member_credits_some _ _ _ _ Hm Hrow).
        apply Z.ltb_lt in Hlt. rewrite Hlt. reflexivity.
      * right. right. right. split; [reflexivity|]. exists m, row.
        repeat split; auto.
    + right. exists m, row.
      rewrite (spend_transaction_commits _ _ _ _ _ _ _ Hm Hrow Hle).
      repeat split; auto.
  - left. exists 404, record_not_found. split.
    + unfold spend_transaction. rewrite Hsel. reflexivity.
    + right. right. left. auto.
Qed.

(** X2: a spend request that is accepted did debit an existing account that
    could afford it: the cost (1 when the request names none) was at most the
    balance, the answer and the stored balance are both the old balance minus
    the cost, [last_refreshed_at] is untouched, exactly one action row is
    appended, carrying the returned id, and neither the directory nor any
    other account changes. *)
Theorem spend_accepted_effects e req d d' actionId spent remaining :
  spend_credits e req d = (d', SpendOk actionId spent remaining) ->
  exists m row,
    members d !! sr_circle_member_id req = Some m /\
    member_credits d !! m_id m = Some row /\
    spent = default 1 (sr_credits_cost req) /\
    spent <= credits_balance row /\
    remaining = credits_balance row - spent /\
    member_credits d' !! m_id m = Some (CreditsRow remaining (last_refreshed_at row)) /\
    actionId = app_actions_id_seq d /\
    app_actions d' =
      app_actions d ++
        [ActionRow actionId (m_id m) (sr_action_type req) spent (sr_metadata req) true] /\
    members d' = members d /\
    (forall id, id <> m_id m -> member_credits d' !! id = member_credits d !! id).
Proof.
  intros Hcall.
  destruct (spend_credits_outcome e req d)
    as [(st & msg & Heq & _) | (m & row & _ & _ & _ & Hm & Hrow & Hle & Heq)].
  - rewrite Heq in Hcall. discriminate.
  - cbv zeta in Heq. rewrite Heq in Hcall. injection Hcall as <- <- <- <-.
    exists m, row. cbn [member_credits app_actions members].
    repeat split; auto.
    + apply lookup_insert_eq.
    + intros id Hne. apply lookup_insert_ne. congruence.
Qed.

Lemma spend_accepted_effects_witness :
  spend_credits Sample.env0 (Sample.spend 4) (Sample.db_with 9 0)
  = (fst (spend_credits Sample.env0 (Sample.spend 4) (Sample.db_with 9 0)),
     SpendOk 1 4 5) /\
  exists m row,
    members (Sample.db_with 9 0) !! 501 = Some m /\
    member_credits (Sample.db_with 9 0) !! m_id m = Some row /\
    5 = credits_balance row - 4.
Proof.
  assert (H : spend_credits Sample.env0 (Sample.spend 4) (Sample.db_with 9 0)
              = (fst (spend_credits Sample.env0 (Sample.spend 4) (Sample.db_with 9 0)),
                 SpendOk 1 4 5))
    by (vm_compute; reflexivity).
  split; [exact H|].
  destruct (spend_accepted_effects _ _ _ _ _ _ _ H)
    as (m & row & Hm & Hrow & _ & _ & Hrem & _).
  exists m, row. auto.
Defined.

(** ** Spending as seen by the view [member_summary] and by the statistics *)

Lemma sum_balances_comm (j1 j2 : Z) (z1 z2 : credits_row) (y : Z) :
  credits_balance z1 + (credits_balance z2 + y)
  = credits_balance z2 + (credits_balance z1 + y).
Proof. lia. Qed.

Lemma sum_balances_insert_fresh (mc : gmap Z credits_row) k new :
  mc !! k = None ->
  sum_balances (<[k := new]> mc) = credits_balance new + sum_balances mc.
Proof.
  intros Hk. unfold sum_balances.
  rewrite map_fold_insert_L; [reflexivity | | exact Hk].
  intros. apply sum_balances_comm; assumption.
Qed.

Lemma sum_balances_insert_existing (mc : gmap Z credits_row) k old new :
  mc !! k = Some old ->
  sum_balances (<[k := new]> mc)
  = sum_balances mc - credits_balance old + credits_balance new.
Proof.
  intros Hk.
  rewrite <- insert_delete_eq.
  rewrite sum_balances_insert_fresh by apply lookup_delete_eq.
  unfold sum_balances at 2.
  rewrite (map_fold_delete_L _ _ k old mc); [fold (sum_balances (delete k mc)); lia | | exact Hk].
  intros. apply sum_balances_comm; assumption.
Qed.

Lemma total_credits_spent_app_one id d d' a :
  app_actions d' = app_actions d ++ [a] ->
  total_credits_spent id d'
  = total_credits_spent id d
    + (if decide (a_member_id a = id /\ a_success a = true) then a_credits_cost a else 0).
Proof.
  intros Happ. unfold total_credits_spent. rewrite Happ.
  rewrite filter_app, fmap_app, foldr_app.
  generalize (filter (fun a0 => a_member_id a0 = id /\ a_success a0 = true) (app_actions d)).
  intros l.
  assert (Hone : foldr Z.add 0
                   (a_credits_cost <$>
                      filter (fun a0 => a_member_id a0 = id /\ a_success a0 = true) [a])
                 = if decide (a_member_id a = id /\ a_success a = true)
                   then a_credits_cost a else 0).
  { destruct (decide (a_member_id a = id /\ a_success a = true)) as [Hy|Hn].
    - rewrite filter_cons_True by exact Hy. cbn. lia.
    - rewrite filter_cons_False by exact Hn. reflexivity. }
  rewrite Hone.
  generalize (if decide (a_member_id a = id /\ a_success a = true)
              then a_credits_cost a else 0).
  intros z. induction l as [|x l IH]; cbn; [lia|].
  cbn in IH. rewrite IH. lia.
Qed.

(** X4: spending conserves, for every member, the sum of the two figures the
    view [member_summary] shows: the credit balance and the total credits
    spent.  Whatever the request and whether or not it is accepted, each
    member's [credits_balance + total_credits_spent] is the same before and
    after the call. *)
Theorem spend_conserves_balance_plus_spent e req d cid s :
  member_summary cid d = Some s ->
  exists s',
    member_summary cid (fst (spend_credits e req d)) = Some s' /\
    s_member s' = s_member s /\
    s_credits_balance s' + s_total_credits_spent s'
    = s_credits_balance s + s_total_credits_spent s.
Proof.
  unfold member_summary.
  destruct (members d !! cid) as [m0|] eqn:Hm0; cbn [mbind option_bind]; [|discriminate].
  intros [= <-].
  destruct (spend_credits_outcome e req d)
    as [(st & msg & Heq & _) | (m & row & _ & _ & _ & Hm & Hrow & Hle & Heq)].
  - rewrite Heq. cbn [fst]. rewrite Hm0. cbn [mbind option_bind].
    eexists. split; [reflexivity|]. split; reflexivity.
  - cbv zeta in Heq. rewrite Heq. cbn [fst members]. rewrite Hm0.
    cbn [mbind option_bind].
    eexists. split; [reflexivity|]. split; [reflexivity|].
    cbn [s_credits_balance s_total_credits_spent member_credits].
    erewrite (total_credits_spent_app_one (m_id m0) d) by (cbn [app_actions]; reflexivity).
    cbn [a_member_id a_success a_credits_cost].
    destruct (decide (m_id m = m_id m0)) as [Hsame|Hother].
    + rewrite <- Hsame. rewrite lookup_insert_eq, Hrow.
      rewrite decide_True by auto.
      generalize (default 1 (sr_credits_cost req)). intros cost.
      generalize (total_credits_spent (m_id m) d). intros spent.
      simpl. lia.
    + rewrite lookup_insert_ne by exact Hother.
      rewrite decide_False by (intros [H _]; contradiction).
      lia.
Qed.

Lemma spend_conserves_balance_plus_spent_witness :
  exists s',
    member_summary 501 (fst (spend_credits Sample.env0 (Sample.spend 4) (Sample.db_with 9 0)))
    = Some s' /\
    s_member s' = Sample.alice_row /\
    s_credits_balance s' + s_total_credits_spent s' = 9 + 0.
Proof.
  exact (spend_conserves_balance_plus_spent Sample.env0 (Sample.spend 4)
           (Sample.db_with 9 0) 501
           (SummaryRow Sample.alice_row 9 (Some 0) 0 0) eq_refl).
Defined.

(** X5: what the admin statistics show of a spend request.  An accepted
    request lowers the total of all balances by exactly the credits spent and
    adds one logged action; a refused request leaves all three figures as
    they were.  The number of members never changes. *)
Theorem spend_in_the_statistics e req d :
  admin_stats (fst (spend_credits e req d)) =
  match snd (spend_credits e req d) with
  | SpendOk _ spent _ =>
      Stats (total_members (admin_stats d))
            (total_credits (admin_stats d) - spent)
            (S (total_actions_logged (admin_stats d)))
  | SpendError _ _ => admin_stats d
  end.
Proof.
  destruct (spend_credits_outcome e req d)
    as [(st & msg & Heq & _) | (m & row & _ & _ & _ & Hm & Hrow & Hle & Heq)].
  - rewrite Heq. reflexivity.
  - cbv zeta in Heq. rewrite Heq. cbn [fst snd].
    unfold admin_stats.
    cbn [members member_credits app_actions total_members total_credits
         total_actions_logged].
    rewrite (sum_balances_insert_existing _ _ row) by exact Hrow.
    rewrite length_app. cbn [length credits_balance].
    f_equal; lia.
Qed.

(** ** Concurrent spend requests: what every interleaving guarantees *)

(** X6: no update is lost.  However the statements of any number of spend
    requests against one account interleave, the committed balance is the
    starting balance minus the costs of exactly the requests that were
    answered with success, each counted with the cost it asked for; the
    requests themselves are never altered. *)
Theorem concurrent_spends_no_lost_update e d cid m row reqs schedule :
  members d !! cid = Some m ->
  member_credits d !! m_id m = Some row ->
  Forall (fun r => sr_circle_member_id r = cid) reqs ->
  let s := Concurrent.run e schedule (Concurrent.init d reqs) in
  fst <$> Concurrent.threads s = reqs /\
  balance_of (Concurrent.committed s) (m_id m)
  = Some (credits_balance row - Concurrent.spent_total (Concurrent.threads s)) /\
  (forall i req aid spent remaining,
      Concurrent.threads s !! i
      = Some (req, Concurrent.Done (SpendOk aid spent remaining)) ->
      spent = Concurrent.cost_of req).
Proof.
  intros Hm Hrow Hreqs s.
  destruct (ConcurrentFacts.reachable_balance e d cid m row reqs schedule Hm Hrow Hreqs)
    as (b & Hb & Hsum & _ & Hdone).
  fold s in Hb, Hsum, Hdone.
  split; [|split].
  - unfold s. rewrite ConcurrentFacts.run_requests.
    unfold Concurrent.init. cbn [Concurrent.threads].
    rewrite <- list_fmap_compose. apply list_fmap_id.
  - rewrite Hb, Hsum. reflexivity.
  - exact Hdone.
Qed.

Lemma concurrent_spends_no_lost_update_witness :
  let s := Concurrent.run Sample.env0 [0; 1; 1; 0; 1; 0; 1; 1; 0; 0; 1; 0; 0; 1; 1; 0]%nat
             (Concurrent.init (Sample.db_with 5 0) [Sample.spend 3; Sample.spend 4]) in
  fst <$> Concurrent.threads s = [Sample.spend 3; Sample.spend 4] /\
  balance_of (Concurrent.committed s) 1
  = Some (5 - Concurrent.spent_total (Concurrent.threads s)) /\
  (forall i req aid spent remaining,
      Concurrent.threads s !! i
      = Some (req, Concurrent.Done (SpendOk aid spent remaining)) ->
      spent = Concurrent.cost_of req).
Proof.
  apply (concurrent_spends_no_lost_update Sample.env0 (Sample.db_with 5 0) 501
           Sample.alice_row (CreditsRow 5 0)).
  - reflexivity.
  - reflexivity.
  - repeat constructor.
Defined.

(** X7: mutual exclusion.  Among spend requests against one account, at any
    point of any interleaving, at most one request is between its
    [SELECT ... FOR UPDATE] and its [COMMIT] or [ROLLBACK]: while one request
    is there, no other is. *)
Theorem concurrent_spends_mutual_exclusion e d cid m row reqs schedule :
  members d !! cid = Some m ->
  member_credits d !! m_id m = Some row ->
  Forall (fun r => sr_circle_member_id r = cid) reqs ->
  let s := Concurrent.run e schedule (Concurrent.init d reqs) in
  forall i j ti tj,
    Concurrent.threads s !! i = Some ti ->
    Concurrent.threads s !! j = Some tj ->
    Concurrent.holding (snd ti) = true ->
    i <> j ->
    Concurrent.holding (snd tj) = false.
Proof.
  intros Hm Hrow Hreqs s i j ti tj Hi Hj Hhi Hne.
  destruct (Concurrent.holding (snd tj)) eqn:Hhj; [|reflexivity].
  exfalso. apply Hne.
  destruct (ConcurrentFacts.run_preserves_inv e cid m (credits_balance row) schedule _
              (ConcurrentFacts.init_inv d cid m row reqs Hm Hrow Hreqs))
    as (_ & b & refreshed & _ & _ & _ & Hall).
  fold s in Hall.
  pose proof (ConcurrentFacts.thread_ok_holds_lock _ _ _ _ _ _ Hhi (Hall i ti Hi)) as Li.
  pose proof (ConcurrentFacts.thread_ok_holds_lock _ _ _ _ _ _ Hhj (Hall j tj Hj)) as Lj.
  congruence.
Qed.

Lemma concurrent_spends_mutual_exclusion_witness :
  let s := Concurrent.run Sample.env0 [0; 1; 1; 0; 1; 0; 1]%nat
             (Concurrent.init (Sample.db_with 5 0) [Sample.spend 3; Sample.spend 4]) in
  Concurrent.threads s !! 1%nat = Some (Sample.spend 4, Concurrent.AtInsertAction 1 1) /\
  Concurrent.threads s !! 0%nat = Some (Sample.spend 3, Concurrent.AtSelect) /\
  Concurrent.holding (snd (Sample.spend 3, Concurrent.AtSelect)) = false.
Proof.
  intros s.
  assert (H1 : Concurrent.threads s !! 1%nat
               = Some (Sample.spend 4, Concurrent.AtInsertAction 1 1))
    by (vm_compute; reflexivity).
  assert (H0 : Concurrent.threads s !! 0%nat = Some (Sample.spend 3, Concurrent.AtSelect))
    by (vm_compute; reflexivity).
  assert (Hreqs : Forall (fun r => sr_circle_member_id r = 501)
                    [Sample.spend 3; Sample.spend 4]) by (repeat constructor).
  assert (Hne : 1%nat <> 0%nat) by discriminate.
  split; [exact H1|]. split; [exact H0|].
  exact (concurrent_spends_mutual_exclusion Sample.env0 (Sample.db_with 5 0) 501
           Sample.alice_row (CreditsRow 5 0) [Sample.spend 3; Sample.spend 4]
           [0; 1; 1; 0; 1; 0; 1]%nat eq_refl eq_refl Hreqs 1%nat 0%nat _ _
           H1 H0 eq_refl Hne).
Defined.

(** *** A request on its own *)

Lemma run_app e s1 : forall s2 s,
  Concurrent.run e (s1 ++ s2) s = Concurrent.run e s2 (Concurrent.run e s1 s).
Proof.
  induction s1 as [|i s1 IH]; intros s2 s; [reflexivity|].
  cbn [app Concurrent.run]. apply IH.
Qed.

Lemma run_single_other e i rest t d locks :
  i <> 0%nat ->
  Concurrent.run e (i :: rest) (Concurrent.System d locks [t])
  = Concurrent.run e rest (Concurrent.System d locks [t]).
Proof.
  intros Hi. cbn [Concurrent.run]. f_equal. unfold Concurrent.step.
  cbn [Concurrent.threads].
  destruct i as [|i]; [contradiction|]. reflexivity.
Qed.

Lemma run_single_turns e schedule : forall req p d locks,
  Concurrent.run e schedule (Concurrent.System d locks [(req, p)])
  = Concurrent.run e (filter (fun i => i = 0%nat) schedule)
      (Concurrent.System d locks [(req, p)]).
Proof.
  induction schedule as [|i rest IH]; intros req p d locks; [reflexivity|].
  destruct (decide (i = 0%nat)) as [->|Hi].
  - rewrite filter_cons_True by reflexivity.
    rewrite !run_single_cons.
    destruct (Concurrent.step_thread e 0 req p d locks) as [[[d' locks'] p']|];
      apply IH.
  - rewrite filter_cons_False by exact Hi.
    rewrite run_single_other by exact Hi. apply IH.
Qed.

Lemma filter_zero_replicate (schedule : list nat) :
  filter (fun i => i = 0%nat) schedule
  = replicate (length (filter (fun i => i = 0%nat) schedule)) 0%nat.
Proof.
  induction schedule as [|i rest IH]; [reflexivity|].
  destruct (decide (i = 0%nat)) as [->|Hi].
  - rewrite filter_cons_True by reflexivity. cbn [length replicate].
    f_equal. exact IH.
  - rewrite filter_cons_False by exact Hi. exact IH.
Qed.

(** X8: the statement-by-statement model agrees with the handler.  A spend
    request with no other request in flight, given at least its eight turns
    (turns offered to requests that do not exist are lost), leaves exactly the
    database and the answer of [spend_credits], and no row lock behind. *)
Theorem lone_request_runs_spend_credits e req d schedule :
  (8 <= length (filter (fun i => i = 0%nat) schedule))%nat ->
  let s := Concurrent.run e schedule (Concurrent.init d [req]) in
  Concurrent.committed s = fst (spend_credits e req d) /\
  Concurrent.threads s = [(req, Concurrent.Done (snd (spend_credits e req d)))] /\
  Concurrent.row_locks s = ∅.
Proof.
  intros Hturns s.
  pose proof (lone_request_is_spend_credits e req d) as Hlone.
  cbv zeta in Hlone.
  remember (Concurrent.run e (replicate 8 0%nat) (Concurrent.init d [req])) as s8 eqn:Hs8.
  assert (Hs : s = Concurrent.run e
                     (replicate (length (filter (fun i => i = 0%nat) schedule) - 8) 0%nat)
                     s8).
  { unfold s, Concurrent.init.
    change ((fun r => (r, Concurrent.AtStart)) <$> [req])
      with [(req, Concurrent.AtStart)].
    rewrite run_single_turns.
    pose proof (filter_zero_replicate schedule) as Hf.
    set (n := length (filter (fun i => i = 0%nat) schedule)) in *.
    rewrite Hf.
    replace n with (8 + (n - 8))%nat at 1 by lia.
    rewrite replicate_add, run_app. rewrite Hs8. reflexivity. }
  destruct Hlone as (Hc & Ht & Hl).
  destruct s8 as [d8 locks8 ts8].
  cbn [Concurrent.committed Concurrent.threads Concurrent.row_locks] in Hc, Ht, Hl.
  subst d8 ts8 locks8.
  rewrite run_single_done in Hs.
  - rewrite Hs. repeat split; reflexivity.
  - clear. induction (_ - 8)%nat; constructor; auto.
Qed.

Lemma lone_request_runs_spend_credits_witness :
  let s := Concurrent.run Sample.env0 [0; 3; 0; 0; 1; 0; 0; 0; 0; 0; 2; 0]%nat
             (Concurrent.init (Sample.db_with 9 0) [Sample.spend 4]) in
  Concurrent.committed s = fst (spend_credits Sample.env0 (Sample.spend 4) (Sample.db_with 9 0)) /\
  Concurrent.threads s
  = [(Sample.spend 4,
      Concurrent.Done (snd (spend_credits Sample.env0 (Sample.spend 4) (Sample.db_with 9 0))))] /\
  Concurrent.row_locks s = ∅.
Proof.
  apply (lone_request_runs_spend_credits Sample.env0 (Sample.spend 4) (Sample.db_with 9 0)
           [0; 3; 0; 0; 1; 0; 0; 0; 0; 0; 2; 0]%nat).
  vm_compute. lia.
Defined.

(** *** Progress *)

Lemma step_inv e i s s' :
  Concurrent.step e i s = Some s' ->
  exists req p d locks p',
    Concurrent.threads s !! i = Some (req, p) /\
    Concurrent.step_thread e i req p (Concurrent.committed s) (Concurrent.row_locks s)
    = Some (d, locks, p') /\
    s' = Concurrent.System d locks (<[i := (req, p')]> (Concurrent.threads s)).
Proof.
  unfold Concurrent.step.
  destruct (Concurrent.threads s !! i) as [[req p]|] eqn:Hi; [|discriminate].
  cbn [mbind option_bind].
  destruct (Concurrent.step_thread e i req p (Concurrent.committed s)
              (Concurrent.row_locks s)) as [[[d locks] p']|] eqn:Hst; [|discriminate].
  cbn [mbind option_bind]. intros [= <-]. eauto 10.
Qed.

Lemma step_of_thread e i s req p d locks p' :
  Concurrent.threads s !! i = Some (req, p) ->
  Concurrent.step_thread e i req p (Concurrent.committed s) (Concurrent.row_locks s)
  = Some (d, locks, p') ->
  Concurrent.step e i s
  = Some (Concurrent.System d locks (<[i := (req, p')]> (Concurrent.threads s))).
Proof.
  intros Hi Hst. unfold Concurrent.step. rewrite Hi. cbn [mbind option_bind].
  rewrite Hst. reflexivity.
Qed.

(** What one statement does to the lock table: it stays as it is while the
    request stays where it is with respect to its lock, gains the lock the
    request takes, or loses the one it gives back. *)
Lemma step_thread_locks e i req p d locks d' locks' p' :
  Concurrent.step_thread e i req p d locks = Some (d', locks', p') ->
  (locks' = locks /\ lock_held p' = lock_held p) \/
  (exists memberId, lock_held p = None /\ locks !! memberId = None /\
                    locks' = <[memberId := i]> locks /\ lock_held p' = Some memberId) \/
  (exists memberId, lock_held p = Some memberId /\
                    locks' = delete memberId locks /\ lock_held p' = None).
Proof.
  destruct p as [ | | | mid bal | mid nb | mid nb aid | mid nb aid | msg locked | resp ];
    cbn [Concurrent.step_thread].
  - destruct (negb (DATABASE_URL e)); [intros [= <- <- <-]; left; auto|].
    destruct (_ || _)%bool; intros [= <- <- <-]; left; auto.
  - intros [= <- <- <-]. left; auto.
  - destruct (select_member_credits _ d) as [[mid bal]|];
      [|intros [= <- <- <-]; left; auto].
    destruct (locks !! mid) eqn:Hl; [discriminate|].
    destruct (bal <? Concurrent.cost_of req); intros [= <- <- <-];
      right; left; exists mid; auto.
  - intros [= <- <- <-]. left; auto.
  - intros [= <- <- <-]. left; auto.
  - intros [= <- <- <-]. left; auto.
  - intros [= <- <- <-]. right; right. exists mid. auto.
  - intros [= <- <- <-]. destruct locked as [mid|].
    + right; right. exists mid. auto.
    + left; auto.
  - discriminate.
Qed.

Lemma step_preserves_locks_owned e i s s' :
  locks_owned s -> Concurrent.step e i s = Some s' -> locks_owned s'.
Proof.
  intros Hown Hstep.
  apply step_inv in Hstep as (req & p & d & locks & p' & Hi & Hst & ->).
  assert (Hlt : (i < length (Concurrent.threads s))%nat)
    by (eapply lookup_lt_Some; exact Hi).
  intros mid j. cbn [Concurrent.row_locks Concurrent.threads].
  assert (Hother : forall mid0, Concurrent.row_locks s !! mid0 = Some j ->
                     (j = i -> lock_held p = Some mid0) /\
                     (j <> i -> exists req0 p0,
                         <[i := (req, p')]> (Concurrent.threads s) !! j = Some (req0, p0) /\
                         lock_held p0 = Some mid0)).
  { intros mid0 Hl. destruct (Hown mid0 j Hl) as (req0 & p0 & Hj & Hh).
    split.
    - intros ->. rewrite Hi in Hj. injection Hj as <- <-. exact Hh.
    - intros Hne. exists req0, p0. rewrite list_lookup_insert_ne by congruence. auto. }
  destruct (step_thread_locks _ _ _ _ _ _ _ _ _ Hst)
    as [[-> Hh] | [(m0 & Hnone & Hfree & -> & Hh) | (m0 & Hsome & -> & Hh)]].
  - intros Hl. destruct (Hother mid Hl) as [Hsame Hdiff].
    destruct (decide (j = i)) as [->|Hne]; [|auto].
    exists req, p'. rewrite list_lookup_insert_eq by exact Hlt.
    split; [reflexivity|]. rewrite Hh. auto.
  - destruct (decide (mid = m0)) as [->|Hm].
    + rewrite lookup_insert_eq. intros [= <-].
      exists req, p'. rewrite list_lookup_insert_eq by exact Hlt. auto.
    + rewrite lookup_insert_ne by congruence. intros Hl.
      destruct (Hother mid Hl) as [Hsame Hdiff].
      destruct (decide (j = i)) as [->|Hne]; [|auto].
      rewrite Hsame in Hnone by reflexivity. discriminate.
  - destruct (decide (mid = m0)) as [->|Hm].
    + rewrite lookup_delete_eq. discriminate.
    + rewrite lookup_delete_ne by congruence. intros Hl.
      destruct (Hother mid Hl) as [Hsame Hdiff].
      destruct (decide (j = i)) as [->|Hne]; [|auto].
      rewrite Hsame in Hsome by reflexivity. congruence.
Qed.

Lemma run_preserves_locks_owned e schedule : forall s,
  locks_owned s -> locks_owned (Concurrent.run e schedule s).
Proof.
  induction schedule as [|i rest IH]; intros s Hown; [exact Hown|].
  cbn [Concurrent.run]. apply IH.
  destruct (Concurrent.step e i s) as [s'|] eqn:Hstep; cbn [default].
  - eapply step_preserves_locks_owned; eassumption.
  - exact Hown.
Qed.

Lemma init_locks_owned d reqs : locks_owned (Concurrent.init d reqs).
Proof.
  intros mid i. cbn [Concurrent.init Concurrent.row_locks].
  rewrite lookup_empty. discriminate.
Qed.

(** A request inside its critical section can always run its next statement. *)
Lemma holder_can_step e i req p d locks memberId :
  lock_held p = Some memberId ->
  is_Some (Concurrent.step_thread e i req p d locks).
Proof.
  destruct p as [ | | | mid bal | mid nb | mid nb aid | mid nb aid | msg locked | resp ];
    cbn [lock_held Concurrent.step_thread]; try discriminate; intros _;
    try destruct (nextval_app_actions d) as [d1 aid']; eauto.
Qed.

(** While some request has not been answered, some request can move. *)
Lemma some_request_can_step e s i req p :
  locks_owned s ->
  Concurrent.threads s !! i = Some (req, p) ->
  (forall response, p <> Concurrent.Done response) ->
  exists j s', Concurrent.step e j s = Some s'.
Proof.
  intros Hown Hi Hnot.
  assert (Hgo : forall j reqj pj,
             Concurrent.threads s !! j = Some (reqj, pj) ->
             is_Some (Concurrent.step_thread e j reqj pj (Concurrent.committed s)
                        (Concurrent.row_locks s)) ->
             exists j s', Concurrent.step e j s = Some s').
  { intros j reqj pj Hj [[[d' locks'] p'] Hst].
    exists j. eexists. eapply step_of_thread; eassumption. }
  destruct (Concurrent.step_thread e i req p (Concurrent.committed s)
              (Concurrent.row_locks s)) as [r|] eqn:Hst.
  { apply (Hgo i req p Hi). rewrite Hst. eauto. }
  destruct p as [ | | | mid bal | mid nb | mid nb aid | mid nb aid | msg locked | resp ];
    cbn [Concurrent.step_thread] in Hst; try discriminate.
  - destruct (negb (DATABASE_URL e)); [discriminate|].
    destruct (_ || _)%bool; discriminate.
  - destruct (select_member_credits _ _) as [[mid bal]|]; [|discriminate].
    destruct (Concurrent.row_locks s !! mid) as [j|] eqn:Hl.
    + destruct (Hown mid j Hl) as (reqj & pj & Hj & Hheld).
      apply (Hgo j reqj pj Hj). eapply holder_can_step. exact Hheld.
    + destruct (bal <? Concurrent.cost_of req); discriminate.
  - exfalso. apply (Hnot resp). reflexivity.
Qed.

Lemma work_left_insert ts i (t t' : spend_request * Concurrent.pc) :
  ts !! i = Some t ->
  (work_left (<[i := t']> ts) + statements_left (snd t)
   = work_left ts + statements_left (snd t'))%nat.
Proof.
  intros Hi.
  assert (Hlt : (i < length ts)%nat) by (eapply lookup_lt_Some; exact Hi).
  assert (Happ : forall l1 l2, work_left (l1 ++ l2) = (work_left l1 + work_left l2)%nat).
  { intros l1 l2. unfold work_left. rewrite fmap_app, foldr_app.
    generalize ((fun t0 : spend_request * Concurrent.pc => statements_left (snd t0)) <$> l2).
    intros l. induction l1 as [|x l1 IH]; [reflexivity|].
    rewrite fmap_cons. cbn [foldr]. rewrite IH. lia. }
  rewrite insert_take_drop by exact Hlt.
  rewrite <- (take_drop_middle ts i t Hi) at 3.
  rewrite !Happ.
  change (work_left (t' :: drop (S i) ts))
    with (statements_left (snd t') + work_left (drop (S i) ts))%nat.
  change (work_left (t :: drop (S i) ts))
    with (statements_left (snd t) + work_left (drop (S i) ts))%nat.
  lia.
Qed.

Lemma step_thread_statements_left e i req p d locks d' locks' p' :
  Concurrent.step_thread e i req p d locks = Some (d', locks', p') ->
  (statements_left p' < statements_left p)%nat.
Proof.
  destruct p as [ | | | mid bal | mid nb | mid nb aid | mid nb aid | msg locked | resp ];
    cbn [Concurrent.step_thread].
  - destruct (negb (DATABASE_URL e)); [intros [= <- <- <-]; cbn; lia|].
    destruct (_ || _)%bool; intros [= <- <- <-]; cbn; lia.
  - intros [= <- <- <-]. cbn; lia.
  - destruct (select_member_credits _ d) as [[mid bal]|];
      [|intros [= <- <- <-]; cbn; lia].
    destruct (locks !! mid); [discriminate|].
    destruct (bal <? Concurrent.cost_of req); intros [= <- <- <-]; cbn; lia.
  - intros [= <- <- <-]. cbn; lia.
  - intros [= <- <- <-]. cbn; lia.
  - intros [= <- <- <-]. cbn; lia.
  - intros [= <- <- <-]. cbn; lia.
  - intros [= <- <- <-]. cbn; lia.
  - discriminate.
Qed.

Lemma step_work_left e i s s' :
  Concurrent.step e i s = Some s' ->
  (work_left (Concurrent.threads s') < work_left (Concurrent.threads s))%nat.
Proof.
  intros Hstep.
  apply step_inv in Hstep as (req & p & d & locks & p' & Hi & Hst & ->).
  cbn [Concurrent.threads].
  pose proof (work_left_insert _ _ _ (req, p') Hi) as Hw. cbn [snd] in Hw.
  pose proof (step_thread_statements_left _ _ _ _ _ _ _ _ _ Hst). lia.
Qed.

Lemma run_work_left e schedule : forall s,
  (work_left (Concurrent.threads (Concurrent.run e schedule s))
   <= work_left (Concurrent.threads s))%nat.
Proof.
  induction schedule as [|i rest IH]; intros s; [reflexivity|].
  cbn [Concurrent.run]. etransitivity; [apply IH|].
  destruct (Concurrent.step e i s) as [s'|] eqn:Hstep; cbn [default]; [|reflexivity].
  unfold id. apply step_work_left in Hstep. lia.
Qed.

Lemma work_left_init d reqs :
  work_left (Concurrent.threads (Concurrent.init d reqs)) = (8 * length reqs)%nat.
Proof.
  unfold Concurrent.init. cbn [Concurrent.threads].
  induction reqs as [|r reqs IH]; [reflexivity|].
  rewrite fmap_cons.
  change (work_left ((r, Concurrent.AtStart) :: ((fun r0 => (r0, Concurrent.AtStart)) <$> reqs)))
    with (8 + work_left ((fun r0 => (r0, Concurrent.AtStart)) <$> reqs))%nat.
  rewrite IH. cbn [length]. lia.
Qed.

Lemma work_left_zero ts i req p :
  work_left ts = 0%nat -> ts !! i = Some (req, p) ->
  exists response, p = Concurrent.Done response.
Proof.
  revert i. induction ts as [|t ts IH]; intros i Hz Hi.
  - rewrite lookup_nil in Hi. discriminate.
  - change (work_left (t :: ts)) with (statements_left (snd t) + work_left ts)%nat in Hz.
    destruct i as [|i].
    + cbn in Hi. injection Hi as ->. cbn [snd] in Hz.
      destruct p; cbn in Hz; try lia. eauto.
    + cbn in Hi. apply (IH i); [lia | exact Hi].
Qed.

Lemma work_left_pos ts :
  work_left ts <> 0%nat ->
  exists i req p, ts !! i = Some (req, p) /\
                  forall response, p <> Concurrent.Done response.
Proof.
  induction ts as [|[req p] ts IH]; intros Hnz; [contradiction Hnz; reflexivity|].
  change (work_left ((req, p) :: ts)) with (statements_left p + work_left ts)%nat in Hnz.
  destruct (Nat.eq_dec (statements_left p) 0%nat) as [Hp|Hp].
  - destruct IH as (i & req' & p' & Hi & Hn); [lia|].
    exists (S i), req', p'. auto.
  - exists 0%nat, req, p. split; [reflexivity|].
    intros response ->. apply Hp. reflexivity.
Qed.

Lemma can_finish e n : forall s,
  locks_owned s ->
  (work_left (Concurrent.threads s) <= n)%nat ->
  exists rest, (length rest <= n)%nat /\ all_answered (Concurrent.run e rest s).
Proof.
  induction n as [|n IH]; intros s Hown Hw.
  - exists []. split; [reflexivity|]. intros i req p Hi.
    apply (work_left_zero (Concurrent.threads s) i req p); [lia | exact Hi].
  - destruct (Nat.eq_dec (work_left (Concurrent.threads s)) 0%nat) as [Hz|Hnz].
    + exists []. split; [cbn; lia|]. intros i req p Hi.
      eapply work_left_zero; eassumption.
    + destruct (work_left_pos _ Hnz) as (i & req & p & Hi & Hnot).
      destruct (some_request_can_step e s i req p Hown Hi Hnot) as (j & s' & Hstep).
      destruct (IH s') as (rest & Hlen & Hall).
      * eapply step_preserves_locks_owned; eassumption.
      * apply step_work_left in Hstep. lia.
      * exists (j :: rest). split; [cbn [length]; lia|].
        cbn [Concurrent.run]. rewrite Hstep. exact Hall.
Qed.

(** X9: concurrent spend requests never deadlock and can always be brought
    to an end.  Whatever the requests (against one account or several) and
    however their statements have interleaved so far, either every request
    has been answered or some request can run its next statement; and from
    there a continuation of at most eight statements per request exists after
    which every request has been answered. *)
Theorem concurrent_spends_can_always_finish e d reqs schedule :
  let s := Concurrent.run e schedule (Concurrent.init d reqs) in
  (all_answered s \/ exists i s', Concurrent.step e i s = Some s') /\
  exists rest,
    (length rest <= 8 * length reqs)%nat /\
    all_answered (Concurrent.run e (schedule ++ rest) (Concurrent.init d reqs)).
Proof.
  intros s.
  assert (Hown : locks_owned s)
    by (apply run_preserves_locks_owned, init_locks_owned).
  assert (Hw : (work_left (Concurrent.threads s) <= 8 * length reqs)%nat).
  { rewrite <- (work_left_init d reqs). apply run_work_left. }
  split.
  - destruct (Nat.eq_dec (work_left (Concurrent.threads s)) 0%nat) as [Hz|Hnz].
    + left. intros i req p Hi. eapply work_left_zero; eassumption.
    + right. destruct (work_left_pos _ Hnz) as (i & req & p & Hi & Hnot).
      eapply some_request_can_step; eassumption.
  - destruct (can_finish e _ s Hown Hw) as (rest & Hlen & Hall).
    exists rest. split; [exact Hlen|]. rewrite run_app. exact Hall.
Qed.

(** ** POST /api/admin/refresh-credits for any member of the directory *)

Lemma or_default_zero v : Js.or_default v 0 = default 0 v.
Proof.
  destruct v as [n|]; [|reflexivity]. cbn.
  destruct (n =? 0) eqn:E; [|reflexivity].
  apply Z.eqb_eq in E. auto.
Qed.

(** The handler spelled out: [prev] is the balance it reads (0 without an
    account), [b1] the balance after the bonus stage, [b2] after the refresh
    stage. *)
Lemma admin_refresh_credits_eq e now email cid bonus (force : bool) d m :
  members d !! cid = Some m ->
  let mid := m_id m in
  let acct := member_credits d !! mid in
  let prev := default 0 (credits_balance <$> acct) in
  let adds := 0 <? bonus in
  let b1 := if adds then prev + bonus else prev in
  let monthly := if default false (m_is_paid m)
                 then monthly_credits_paid e else monthly_credits_free e in
  let b2 := if force then prev + bonus + monthly else b1 in
  admin_refresh_credits e now email cid bonus force d =
  (Db (members d)
      (match acct with
       | Some old =>
           <[mid := CreditsRow b2 (if force then now else last_refreshed_at old)]>
             (member_credits d)
       | None => member_credits d
       end)
      (app_actions d)
      (credit_history d
         ++ (if adds
             then option_list
                    (match acct with
                     | Some old =>
                         log_credit_change TG_UPDATE mid old
                           (CreditsRow b1 (last_refreshed_at old))
                     | None => None
                     end)
                  ++ [HistoryRow mid bonus admin_bonus b1 None
                        ("Manual credit bonus added by admin " ++ email)]
             else [])
         ++ (if force
             then option_list
                    (match acct with
                     | Some old =>
                         log_credit_change TG_UPDATE mid
                           (CreditsRow b1 (last_refreshed_at old)) (CreditsRow b2 now)
                     | None => None
                     end)
                  ++ [HistoryRow mid monthly admin_refresh b2 None
                        ("Manual monthly refresh by admin " ++ email)]
             else []))
      (processed_purchase_tags d) (members_id_seq d) (app_actions_id_seq d),
   AdminOk prev
     ((if adds then bonus else 0) + (if force then monthly else 0))
     (match acct with Some _ => b2 | None => 0 end)
     ((if adds then [AddedBonus bonus] else [])
        ++ (if force then [AddedMonthlyRefresh monthly] else []))).
Proof.
  intros Hm mid acct prev adds b1 monthly b2.
  unfold admin_refresh_credits. rewrite Hm. fold mid. fold acct.
  rewrite !or_default_zero. fold prev. cbn [default]. unfold id. fold monthly. fold adds.
  destruct acct as [old|] eqn:Hacct; subst acct.
  - assert (Hold : CreditsRow (credits_balance old) (last_refreshed_at old) = old)
      by (destruct old; reflexivity).
    assert (Hprev : prev = credits_balance old) by reflexivity.
    destruct adds eqn:Hadds; subst b1.
    + rewrite (update_member_credits_some _ _ None _ _ Hacct). db_proj.
      cbn [default].
      destruct force; subst b2.
      * rewrite (update_member_credits_some _ _ (Some now) _
                   (CreditsRow (prev + bonus) (last_refreshed_at old)))
          by (db_proj; apply lookup_insert_eq).
        db_proj. rewrite lookup_insert_eq, insert_insert_eq, or_default_zero.
        cbn [default fmap option_fmap option_map credits_balance]. unfold id.
        rewrite <- !app_assoc. reflexivity.
      * db_proj. rewrite lookup_insert_eq, or_default_zero.
        cbn [fmap option_fmap option_map credits_balance default].
        rewrite !app_nil_r, <- !app_assoc, Z.add_0_r. reflexivity.
    + destruct force; subst b2.
      * rewrite (update_member_credits_some _ _ (Some now) _ _ Hacct).
        db_proj. rewrite lookup_insert_eq, or_default_zero.
        cbn [default fmap option_fmap option_map credits_balance app]. unfold id.
        rewrite Hprev, Hold, <- !app_assoc. reflexivity.
      * rewrite Hacct, or_default_zero.
        cbn [fmap option_fmap option_map credits_balance default app].
        rewrite !app_nil_r, Hprev, Hold.
        rewrite insert_id by exact Hacct. rewrite db_eta. reflexivity.
  - destruct adds eqn:Hadds; subst b1.
    + rewrite (update_member_credits_none _ _ None _ Hacct). db_proj.
      destruct force; subst b2.
      * rewrite update_member_credits_none by (db_proj; exact Hacct).
        db_proj. rewrite Hacct, or_default_zero.
        cbn [default fmap option_fmap option_map option_list app].
        rewrite <- !app_assoc. reflexivity.
      * db_proj. rewrite Hacct, or_default_zero.
        cbn [default fmap option_fmap option_map option_list app].
        rewrite !app_nil_r, Z.add_0_r. reflexivity.
    + destruct force; subst b2.
      * rewrite (update_member_credits_none _ _ (Some now) _ Hacct).
        db_proj. rewrite Hacct, or_default_zero.
        cbn [default fmap option_fmap option_map option_list app].
        reflexivity.
      * rewrite Hacct, or_default_zero.
        cbn [default fmap option_fmap option_map option_list app].
        rewrite !app_nil_r, db_eta. reflexivity.
Qed.

(** ** The effect of one request on the tables *)

Lemma sum_change_amounts_cons h l :
  sum_change_amounts (h :: l) = ch_change_amount h + sum_change_amounts l.
Proof. reflexivity. Qed.

Lemma trigger_sum_app l1 l2 : trigger_sum (l1 ++ l2) = trigger_sum l1 + trigger_sum l2.
Proof. unfold trigger_sum. rewrite filter_app. apply sum_change_amounts_app. Qed.

Lemma trigger_sum_nil : trigger_sum [] = 0.
Proof. reflexivity. Qed.

Lemma trigger_sum_cons h l :
  trigger_sum (h :: l)
  = (if written_by_trigger h then ch_change_amount h else 0) + trigger_sum l.
Proof.
  unfold trigger_sum.
  destruct (written_by_trigger h) eqn:E.
  - rewrite filter_cons_True by exact E. apply sum_change_amounts_cons.
  - rewrite filter_cons_False by (rewrite E; discriminate). lia.
Qed.

Lemma block_nil mid : block mid 0 [].
Proof. repeat split; constructor. Qed.

Lemma block_app mid d1 d2 l1 l2 :
  block mid d1 l1 -> block mid d2 l2 -> block mid (d1 + d2) (l1 ++ l2).
Proof.
  intros (A1 & B1 & C1) (A2 & B2 & C2). repeat split.
  - apply Forall_app; auto.
  - rewrite trigger_sum_app. lia.
  - apply Forall_app; auto.
Qed.

Lemma block_eq mid d1 d2 l : block mid d1 l -> d1 = d2 -> block mid d2 l.
Proof. intros H <-. exact H. Qed.

Lemma block_trigger_update mid old new :
  block mid (credits_balance new - credits_balance old)
    (option_list (log_credit_change TG_UPDATE mid old new)).
Proof.
  unfold log_credit_change.
  destruct (credits_balance old =? credits_balance new) eqn:E; simpl.
  - apply Z.eqb_eq in E. eapply block_eq; [apply block_nil | lia].
  - repeat split.
    + repeat constructor.
    + rewrite trigger_sum_cons. cbn. lia.
    + repeat constructor. cbn.
      destruct (credits_balance old <? credits_balance new); discriminate.
Qed.

Lemma block_trigger_insert mid new old :
  block mid (credits_balance new)
    (option_list (log_credit_change TG_INSERT mid old new)).
Proof.
  repeat split.
  - repeat constructor.
  - simpl. rewrite trigger_sum_cons. cbn. lia.
  - repeat constructor. discriminate.
Qed.

(** A row a handler writes. *)
Lemma block_handler_row mid h :
  ch_member_id h = mid -> written_by_trigger h = false ->
  ch_change_type h <> action_cost -> block mid 0 [h].
Proof.
  intros Hm Hw Ht. repeat split.
  - repeat constructor. exact Hm.
  - rewrite trigger_sum_cons, Hw. reflexivity.
  - repeat constructor. exact Ht.
Qed.

Lemma block_initial_grant_row e is_paid mid : block mid 0 [initial_grant_row e is_paid mid].
Proof.
  apply block_handler_row; [reflexivity | | discriminate].
  destruct is_paid; reflexivity.
Qed.

Lemma block_upgrade_bonus_row e mid b : block mid 0 [upgrade_bonus_row e mid b].
Proof. apply block_handler_row; [reflexivity | reflexivity | discriminate]. Qed.

Lemma block_monthly_refresh_row e is_paid mid b :
  block mid 0 [monthly_refresh_row e is_paid mid b].
Proof. apply block_handler_row; [reflexivity | reflexivity | discriminate]. Qed.

Lemma block_purchase_rows mid b ps : block mid 0 (purchase_rows mid b ps).
Proof.
  unfold purchase_rows. induction ps as [|p ps IH]; [apply block_nil|].
  rewrite fmap_cons.
  change 0 with (0 + 0).
  apply (block_app mid 0 0 [_] _); [|exact IH].
  apply block_handler_row; [reflexivity | reflexivity | discriminate].
Qed.

Lemma block_if mid (c : bool) delta l :
  block mid delta l -> block mid (if c then delta else 0) (if c then l else []).
Proof. destruct c; [auto | intros _; apply block_nil]. Qed.

Lemma purchases_total_nonneg ps :
  Forall (fun p => 1 <= p_credits p) ps -> 0 <= purchases_total ps.
Proof.
  unfold purchases_total. induction 1 as [|p ps Hp _ IH]; [reflexivity|].
  rewrite fmap_cons. cbn [foldr]. lia.
Qed.

Lemma footprint_of_block e r mid d d' hs ptr :
  credit_history d' = credit_history d ++ hs ->
  app_actions d' = app_actions d ->
  processed_purchase_tags d' = processed_purchase_tags d ++ ptr ->
  (forall id, id <> mid -> member_credits d' !! id = member_credits d !! id) ->
  block mid (default 0 (balance_of d' mid) - default 0 (balance_of d mid)) hs ->
  (forall cid m, members d !! cid = Some m ->
     exists m', members d' !! cid = Some m' /\ m_id m' = m_id m /\
                m_first_seen_at m' = m_first_seen_at m) ->
  (env_ok e -> request_ok r ->
   (forall row, member_credits d !! mid = Some row -> 0 <= credits_balance row) ->
   forall row, member_credits d' !! mid = Some row -> 0 <= credits_balance row) ->
  Forall (fun p => ppt_member_id p = mid) ptr ->
  footprint e r mid d d'.
Proof.
  intros Hh Ha Hp Hframe (Hmem & Hsum & Htype) Hmembers Hnn Hptr.
  exists hs, [], ptr. rewrite app_nil_r.
  repeat split; auto; try solve [constructor].
  intros h Hin Ht. exfalso.
  rewrite List.Forall_forall in Htype.
  apply (Htype h); [apply list_elem_of_In; exact Hin | exact Ht].
Qed.

Lemma footprint_refl e r mid d : footprint e r mid d d.
Proof.
  apply (footprint_of_block e r mid d d [] []).
  - rewrite app_nil_r; reflexivity.
  - reflexivity.
  - rewrite app_nil_r; reflexivity.
  - auto.
  - eapply block_eq; [apply block_nil | lia].
  - eauto.
  - auto.
  - constructor.
Qed.

Ltac solve_block :=
  repeat first
    [ apply block_nil
    | apply block_trigger_update
    | apply block_trigger_insert
    | apply block_initial_grant_row
    | apply block_upgrade_bonus_row
    | apply block_monthly_refresh_row
    | apply block_purchase_rows
    | apply block_if
    | apply block_app ].

Lemma purchase_tag_rows_member mid ps :
  Forall (fun p => ppt_member_id p = mid) (purchase_tag_rows mid ps).
Proof.
  unfold purchase_tag_rows. induction ps as [|p ps IH]; constructor; auto.
Qed.

Lemma members_upserted e ev d mid first_seen :
  (forall m, members d !! md_id (ev_member ev) = Some m ->
             mid = m_id m /\ first_seen = m_first_seen_at m) ->
  forall cid m, members d !! cid = Some m ->
    exists m', <[md_id (ev_member ev) := upserted_row e ev mid first_seen]> (members d) !! cid
               = Some m' /\
               m_id m' = m_id m /\ m_first_seen_at m' = m_first_seen_at m.
Proof.
  intros Hsame cid m Hm.
  destruct (decide (cid = md_id (ev_member ev))) as [->|Hne].
  - rewrite lookup_insert_eq. eexists. split; [reflexivity|].
    destruct (Hsame m Hm) as [-> ->]. split; reflexivity.
  - rewrite lookup_insert_ne by congruence. eauto.
Qed.

Lemma auth_footprint e ev d :
  exists mid, footprint e (PostAuth ev) mid d (fst (auth_database_integration e ev d)).
Proof.
  destruct (auth_cases e ev d) as [H | [H | [H | H]]].
  - exists 0. rewrite H. apply footprint_refl.
  - exists 0. rewrite H.
    apply (footprint_of_block _ _ _ _ _ [] []); cbn [credit_history app_actions
      processed_purchase_tags member_credits members]; rewrite ?app_nil_r; auto;
      try solve [constructor].
    + eapply block_eq; [apply block_nil|]. unfold balance_of. cbn [member_credits]. lia.
    + eauto.
  - destruct H as (Hid & Hdb & Hemail & Hbranch).
    rewrite (auth_grant_eq e ev d Hid Hdb Hemail Hbranch). cbn [fst].
    set (mid := match members d !! md_id (ev_member ev) with
                | Some m => m_id m
                | None => members_id_seq d
                end).
    set (first_seen := match members d !! md_id (ev_member ev) with
                       | Some m => m_first_seen_at m
                       | None => ev_now ev
                       end).
    set (ps := detect_purchase_tags (md_tags (ev_member ev))).
    set (settles := (negb (settlement_fails ev ps) && (0 <? length ps)%nat)%bool).
    set (b2 := if currentIsPaid e (ev_member ev)
               then initial_credits_paid e else initial_credits_free e).
    assert (Hps : 0 <= purchases_total ps)
      by apply purchases_total_nonneg, detect_purchase_tags_credits.
    exists mid.
    eapply footprint_of_block; cbn [credit_history app_actions processed_purchase_tags
                                    member_credits members].
    + reflexivity.
    + reflexivity.
    + reflexivity.
    + intros id Hne. apply lookup_insert_ne. congruence.
    + unfold balance_of. cbn [member_credits]. rewrite lookup_insert_eq.
      cbn [fmap option_fmap option_map default credits_balance].
      destruct (member_credits d !! mid) as [old|] eqn:Hold;
        cbn [fmap option_fmap option_map default].
      * eapply block_eq; [solve_block|].
        unfold id. cbn [credits_balance]. destruct settles; lia.
      * eapply block_eq; [solve_block|].
        unfold id. cbn [credits_balance]. destruct settles; lia.
    + apply members_upserted. intros m Hm. subst mid first_seen.
      rewrite Hm. auto.
    + intros (Hfree & _ & _) _ _ row. rewrite lookup_insert_eq. intros [= <-].
      cbn [credits_balance].
      assert (0 <= b2) by (subst b2; destruct (currentIsPaid e (ev_member ev)); lia).
      destruct settles; lia.
    + destruct settles; [apply purchase_tag_rows_member | constructor].
  - destruct H as (m & rec & Hid & Hdb & Hm & Hemail & Hrec & Hold).
    rewrite (auth_returning_eq e ev d m rec Hid Hdb Hm Hemail Hrec Hold). cbn [fst].
    set (ps := detect_purchase_tags (md_tags (ev_member ev))).
    set (settles := (negb (settlement_fails ev ps) && (0 <? length ps)%nat)%bool).
    set (fires := (negb (previousPaidStatus d (md_id (ev_member ev)))
                   && currentIsPaid e (ev_member ev))%bool).
    set (due := last_refreshed_at rec <? oneMonthAgo (ev_now ev)).
    assert (Hps : 0 <= purchases_total ps)
      by apply purchases_total_nonneg, detect_purchase_tags_credits.
    exists (m_id m).
    eapply footprint_of_block; cbn [credit_history app_actions processed_purchase_tags
                                    member_credits members].
    + reflexivity.
    + reflexivity.
    + reflexivity.
    + intros id Hne. apply lookup_insert_ne. congruence.
    + unfold balance_of. cbn [member_credits]. rewrite lookup_insert_eq, Hrec.
      cbn [fmap option_fmap option_map default credits_balance].
      eapply block_eq; [solve_block|].
      unfold id, Js.or_default. cbn [credits_balance last_refreshed_at].
      destruct fires, due, settles;
        repeat match goal with |- context [if ?c =? 0 then _ else _] =>
                 destruct (Z.eqb_spec c 0) end; lia.
    + apply members_upserted. intros m0 Hm0. rewrite Hm in Hm0.
      injection Hm0 as <-. auto.
    + intros (Hfree & Hmf & Hmp) _ Hnn row. rewrite lookup_insert_eq. intros [= <-].
      cbn [credits_balance].
      pose proof (Hnn rec Hrec) as Hrec0.
      assert (0 <= (if currentIsPaid e (ev_member ev)
                    then monthly_credits_paid e else monthly_credits_free e))
        by (destruct (currentIsPaid e (ev_member ev)); lia).
      unfold Js.or_default.
      destruct fires, due, settles;
        repeat match goal with |- context [if ?c =? 0 then _ else _] =>
                 destruct (Z.eqb_spec c 0) end; lia.
    + destruct settles; [apply purchase_tag_rows_member | constructor].
Qed.

Lemma spend_footprint e req d :
  exists mid, footprint e (PostCreditsSpend req) mid d (fst (spend_credits e req d)).
Proof.
  destruct (spend_credits_outcome e req d)
    as [(st & msg & Heq & _) | (m & row & _ & _ & _ & Hm & Hrow & Hle & Heq)].
  - exists 0. rewrite Heq. apply footprint_refl.
  - cbv zeta in Heq. rewrite Heq. cbn [fst]. exists (m_id m).
    eexists _, _, []. cbn [credit_history app_actions processed_purchase_tags
                              member_credits members].
    split; [reflexivity|]. split; [reflexivity|].
    split; [symmetry; apply app_nil_r|].
    split; [intros id Hne; apply lookup_insert_ne; congruence|].
    split; [|split; [|split; [|split; [|split; [|split]]]]].
    + apply Forall_app. split.
      * apply block_trigger_update.
      * repeat constructor.
    + rewrite trigger_sum_app, trigger_sum_cons, trigger_sum_nil.
      destruct (block_trigger_update (m_id m) row
                  (CreditsRow (credits_balance row - default 1 (sr_credits_cost req))
                     (last_refreshed_at row))) as (_ & -> & _).
      unfold balance_of. cbn [member_credits]. rewrite lookup_insert_eq, Hrow.
      generalize (default 1 (sr_credits_cost req)). intros cost.
      change (written_by_trigger
                (HistoryRow (m_id m) (- cost) action_cost (credits_balance row - cost)
                   (Some (app_actions_id_seq d))
                   ("Credits spent on " ++ sr_action_type req))) with false.
      simpl. lia.
    + intros h Hin Ht.
      apply elem_of_app in Hin as [Hin | Hin].
      * exfalso.
        destruct (block_trigger_update (m_id m) row
                    (CreditsRow (credits_balance row - default 1 (sr_credits_cost req))
                       (last_refreshed_at row))) as (_ & _ & Hty).
        rewrite List.Forall_forall in Hty.
        apply (Hty h); [apply list_elem_of_In; exact Hin | exact Ht].
      * apply list_elem_of_singleton in Hin as ->.
        eexists. split; [apply list_elem_of_singleton; reflexivity|].
        cbn. repeat split; lia.
    + eauto.
    + intros _ _ Hnn r. rewrite lookup_insert_eq. intros [= <-].
      cbn [credits_balance]. lia.
    + repeat constructor.
    + constructor.
Qed.

Lemma admin_footprint e now email cid bonus force d :
  exists mid,
    footprint e (PostAdminRefreshCredits now email cid bonus force) mid d
      (fst (admin_refresh_credits e now email cid bonus force d)).
Proof.
  destruct (members d !! cid) as [m|] eqn:Hm.
  2:{ exists 0. unfold admin_refresh_credits. rewrite Hm. apply footprint_refl. }
  rewrite (admin_refresh_credits_eq e now email cid bonus force d m Hm). cbn [fst].
  exists (m_id m).
  eapply footprint_of_block; cbn [credit_history app_actions processed_purchase_tags
                                  member_credits members].
  - reflexivity.
  - reflexivity.
  - rewrite app_nil_r. reflexivity.
  - intros id Hne. destruct (member_credits d !! m_id m); [|reflexivity].
    apply lookup_insert_ne. congruence.
  - unfold balance_of. cbn [member_credits].
    destruct (member_credits d !! m_id m) as [old|] eqn:Hacct.
    + rewrite lookup_insert_eq.
      cbn [fmap option_fmap option_map default credits_balance].
      eapply block_eq.
      * apply block_app; [apply block_if | apply block_if];
          (apply block_app;
           [apply block_trigger_update
           | apply block_handler_row; [reflexivity | reflexivity | discriminate]]).
      * unfold id. cbn [credits_balance]. destruct (0 <? bonus), force; lia.
    + rewrite Hacct.
      eapply block_eq.
      * apply block_app; [apply block_if | apply block_if];
          (apply block_app;
           [apply block_nil
           | apply block_handler_row; [reflexivity | reflexivity | discriminate]]).
      * destruct (0 <? bonus), force; cbn; lia.
  - eauto.
  - intros (_ & Hmf & Hmp) Hbonus Hnn row. cbn [request_ok] in Hbonus.
    destruct (member_credits d !! m_id m) as [old|] eqn:Hacct; [|congruence].
    rewrite lookup_insert_eq. intros [= <-]. cbn [credits_balance].
    pose proof (Hnn old eq_refl) as Hold.
    cbn [fmap option_fmap option_map default].
    assert (0 <= (if default false (m_is_paid m)
                  then monthly_credits_paid e else monthly_credits_free e))
      by (destruct (default false (m_is_paid m)); lia).
    destruct (0 <? bonus), force; lia.
  - constructor.
Qed.

Lemma handle_footprint e r d : exists mid, footprint e r mid d (handle e r d).
Proof.
  destruct r as [ev | req | now email cid bonus force]; cbn [handle].
  - apply auth_footprint.
  - apply spend_footprint.
  - apply admin_footprint.
Qed.

(** ** Any sequence of requests *)

Lemma serve_cons e r rs d : serve e (r :: rs) d = serve e rs (handle e r d).
Proof. reflexivity. Qed.

Lemma filter_member_all mid (hs : list history_row) :
  Forall (fun h => ch_member_id h = mid) hs ->
  filter (fun h => ch_member_id h = mid) hs = hs.
Proof.
  induction 1 as [|h hs Hh _ IH]; [reflexivity|].
  rewrite filter_cons_True by exact Hh. f_equal. exact IH.
Qed.

Lemma filter_member_none mid id (hs : list history_row) :
  id <> mid ->
  Forall (fun h => ch_member_id h = mid) hs ->
  filter (fun h => ch_member_id h = id) hs = [].
Proof.
  intros Hne. induction 1 as [|h hs Hh _ IH]; [reflexivity|].
  rewrite filter_cons_False by congruence. exact IH.
Qed.

(** X10: the three logs are append-only.  Whatever sequence of sign-ins,
    spend requests and admin credit operations the server handles, the credit
    history, the action log and the processed-purchase log it ends with each
    start with the rows they had before, unchanged and in the same order. *)
Theorem served_logs_only_grow e rs d :
  credit_history d `prefix_of` credit_history (serve e rs d) /\
  app_actions d `prefix_of` app_actions (serve e rs d) /\
  processed_purchase_tags d `prefix_of` processed_purchase_tags (serve e rs d).
Proof.
  revert d. induction rs as [|r rs IH]; intros d.
  - repeat split; reflexivity.
  - rewrite serve_cons.
    destruct (IH (handle e r d)) as (H1 & H2 & H3).
    destruct (handle_footprint e r d)
      as (mid & hs & acts & ptr & Hh & Ha & Hp & _).
    repeat split.
    + etransitivity; [|exact H1]. rewrite Hh. apply prefix_app_r. reflexivity.
    + etransitivity; [|exact H2]. rewrite Ha. apply prefix_app_r. reflexivity.
    + etransitivity; [|exact H3]. rewrite Hp. apply prefix_app_r. reflexivity.
Qed.

Lemma footprint_ledger_exact e r mid d d' :
  footprint e r mid d d' -> ledger_exact d -> ledger_exact d'.
Proof.
  intros (hs & acts & ptr & Hh & _ & _ & Hframe & Hmem & Hsum & _) Hled id.
  unfold trigger_total, history_of. rewrite Hh, filter_app, filter_app.
  rewrite sum_change_amounts_app.
  pose proof (Hled id) as Hid. unfold trigger_total, history_of in Hid.
  rewrite <- Hid.
  destruct (decide (id = mid)) as [->|Hne].
  - rewrite (filter_member_all mid hs Hmem).
    fold (trigger_sum hs). rewrite Hsum. lia.
  - rewrite (filter_member_none mid id hs Hne Hmem).
    unfold balance_of. rewrite (Hframe id Hne). cbn. lia.
Qed.

(** X11: the rows the trigger writes are an exact ledger.  If every
    account's balance equals the sum of the change amounts the trigger
    [log_member_credits_changes] has logged for it (as in an empty database),
    the same holds after any sequence of sign-ins, spend requests and admin
    credit operations: the handlers' own history rows come on top of that
    ledger, never instead of it. *)
Theorem trigger_rows_are_an_exact_ledger e rs d :
  ledger_exact d -> ledger_exact (serve e rs d).
Proof.
  revert d. induction rs as [|r rs IH]; intros d Hled; [exact Hled|].
  rewrite serve_cons. apply IH.
  destruct (handle_footprint e r d) as (mid & Hfp).
  eapply footprint_ledger_exact; eassumption.
Qed.

(** X12: no account goes into debt.  With credit amounts that are not
    negative and a paid initial grant at least as large as the free one, and
    as long as no admin request carries a negative bonus, every balance that
    was at least 0 is still at least 0 after any sequence of requests; spend
    requests need no condition. *)
Theorem served_balances_never_negative e rs d :
  env_ok e -> Forall request_ok rs ->
  balances_nonneg d -> balances_nonneg (serve e rs d).
Proof.
  intros He Hrs. revert d.
  induction Hrs as [|r rs Hr _ IH]; intros d Hnn; [exact Hnn|].
  rewrite serve_cons. apply IH.
  destruct (handle_footprint e r d)
    as (mid & hs & acts & ptr & _ & _ & _ & Hframe & _ & _ & _ & _ & Hkeep & _).
  intros id row Hrow.
  destruct (decide (id = mid)) as [->|Hne].
  - apply (Hkeep He Hr (Hnn mid) row Hrow).
  - rewrite (Hframe id Hne) in Hrow. apply (Hnn id row Hrow).
Qed.

(** X13: a member keeps their identity.  Once a Circle member id is in the
    directory, no sequence of requests removes it, changes the database id it
    maps to (and with it the credit account it owns), or moves its
    [first_seen_at]. *)
Theorem served_member_identity_is_stable e rs d cid m :
  members d !! cid = Some m ->
  exists m', members (serve e rs d) !! cid = Some m' /\
             m_id m' = m_id m /\ m_first_seen_at m' = m_first_seen_at m.
Proof.
  revert d m. induction rs as [|r rs IH]; intros d m Hm; [eauto|].
  rewrite serve_cons.
  destruct (handle_footprint e r d)
    as (mid & hs & acts & ptr & _ & _ & _ & _ & _ & _ & _ & Hmembers & _).
  destruct (Hmembers cid m Hm) as (m1 & Hm1 & Hid1 & Hfs1).
  destruct (IH _ m1 Hm1) as (m' & Hm' & Hid & Hfs).
  exists m'. split; [exact Hm'|]. split; congruence.
Qed.

Lemma footprint_debits_backed e r mid d d' :
  footprint e r mid d d' -> debits_backed d -> debits_backed d'.
Proof.
  intros (hs & acts & ptr & Hh & Ha & _ & _ & _ & _ & Hnew & _) Hold h Hin Ht.
  rewrite Hh in Hin. rewrite Ha.
  apply elem_of_app in Hin as [Hin | Hin].
  - destruct (Hold h Hin Ht) as (a & Hain & Hfacts).
    exists a. split; [apply elem_of_app; left; exact Hain | exact Hfacts].
  - destruct (Hnew h Hin Ht) as (a & Hain & Hfacts).
    exists a. split; [apply elem_of_app; right; exact Hain | exact Hfacts].
Qed.

(** X14: every debit is backed by an action.  If each [action_cost] row of
    the credit history references a successful action row of the same member
    whose cost is the amount deducted, that is still so after any sequence of
    requests: no handler writes an [action_cost] row without its action, and
    the trigger never writes one. *)
Theorem served_debits_are_backed_by_actions e rs d :
  debits_backed d -> debits_backed (serve e rs d).
Proof.
  revert d. induction rs as [|r rs IH]; intros d Hd; [exact Hd|].
  rewrite serve_cons. apply IH.
  destruct (handle_footprint e r d) as (mid & Hfp).
  eapply footprint_debits_backed; eassumption.
Qed.

Lemma trigger_rows_are_an_exact_ledger_witness :
  ledger_exact Sample.empty_db /\
  ledger_exact
    (serve Sample.env0
       [PostAuth (Sample.sign_in Sample.t0 ["$10"] None);
        PostCreditsSpend (Sample.spend 4);
        PostAdminRefreshCredits Sample.t0 "root@example.com" 501 5 true]
       Sample.empty_db).
Proof.
  assert (H : ledger_exact Sample.empty_db) by (intros id; reflexivity).
  split; [exact H|].
  exact (trigger_rows_are_an_exact_ledger Sample.env0 _ Sample.empty_db H).
Defined.

Lemma served_balances_never_negative_witness :
  balances_nonneg
    (serve Sample.env0
       [PostAuth (Sample.sign_in Sample.t0 ["$10"] None);
        PostCreditsSpend (Sample.spend 4);
        PostAdminRefreshCredits Sample.t0 "root@example.com" 501 5 true]
       Sample.empty_db).
Proof.
  apply served_balances_never_negative.
  - unfold env_ok. vm_compute. intuition discriminate.
  - repeat constructor. cbn. lia.
  - intros id row H. vm_compute in H. discriminate.
Defined.

Lemma served_member_identity_is_stable_witness :
  exists m',
    members
      (serve Sample.env0
         [PostAuth (Sample.sign_in Sample.t0 ["vip"] None);
          PostCreditsSpend (Sample.spend 4)]
         (Sample.db_with 9 0)) !! 501 = Some m' /\
    m_id m' = 1 /\ m_first_seen_at m' = 0.
Proof.
  exact (served_member_identity_is_stable Sample.env0
           [PostAuth (Sample.sign_in Sample.t0 ["vip"] None);
            PostCreditsSpend (Sample.spend 4)]
           (Sample.db_with 9 0) 501 Sample.alice_row eq_refl).
Defined.

Lemma served_debits_are_backed_by_actions_witness :
  debits_backed
    (serve Sample.env0
       [PostAuth (Sample.sign_in Sample.t0 [] None);
        PostCreditsSpend (Sample.spend 4);
        PostCreditsSpend (Sample.spend 3)]
       Sample.empty_db).
Proof.
  apply served_debits_are_backed_by_actions.
  intros h Hin. vm_compute in Hin. apply elem_of_nil in Hin. contradiction.
Defined.

(** X15: an admin credit operation on a member who has an account.  The
    answer reports the balance read as [previous_balance] and the stored
    balance as [current_balance]; [credits_added] is the bonus (when
    positive) plus the monthly amount (when a refresh is forced), and
    [last_refreshed_at] moves to now exactly when a refresh is forced.  The
    three figures add up unless a refresh is forced together with a negative
    bonus: the refresh applies that bonus to the balance although it was
    never added. *)
Theorem admin_refresh_with_account e now email cid bonus (force : bool) d m old :
  members d !! cid = Some m ->
  member_credits d !! m_id m = Some old ->
  let monthly := if default false (m_is_paid m)
                 then monthly_credits_paid e else monthly_credits_free e in
  let added := (if 0 <? bonus then bonus else 0) + (if force then monthly else 0) in
  let current := credits_balance old + added
                 + (if force && (bonus <? 0) then bonus else 0) in
  snd (admin_refresh_credits e now email cid bonus force d)
  = AdminOk (credits_balance old) added current
      ((if 0 <? bonus then [AddedBonus bonus] else [])
         ++ (if force then [AddedMonthlyRefresh monthly] else [])) /\
  member_credits (fst (admin_refresh_credits e now email cid bonus force d)) !! m_id m
  = Some (CreditsRow current (if force then now else last_refreshed_at old)).
Proof.
  intros Hm Hold monthly added current.
  rewrite (admin_refresh_credits_eq e now email cid bonus force d m Hm).
  cbn [fst snd member_credits]. rewrite Hold, lookup_insert_eq.
  cbn [fmap option_fmap option_map default]. fold monthly.
  subst current added. unfold id.
  destruct (Z.ltb_spec 0 bonus), (Z.ltb_spec bonus 0), force; cbn [andb];
    (split; [f_equal; lia | do 2 f_equal; lia]).
Qed.

Lemma admin_refresh_with_account_witness :
  snd (admin_refresh_credits Sample.env0 Sample.t0 "root@example.com" 501 (-7) true
         (Sample.db_with 9 0))
  = AdminOk 9 10 12 [AddedMonthlyRefresh 10] /\
  member_credits
    (fst (admin_refresh_credits Sample.env0 Sample.t0 "root@example.com" 501 (-7) true
            (Sample.db_with 9 0))) !! 1
  = Some (CreditsRow 12 Sample.t0).
Proof.
  exact (admin_refresh_with_account Sample.env0 Sample.t0 "root@example.com" 501 (-7) true
           (Sample.db_with 9 0) Sample.alice_row (CreditsRow 9 0) eq_refl eq_refl).
Defined.

(** ** POST /api/auth: what a sign-in leaves behind *)

(** The two ways an event ends without touching the ledger, with their
    answers. *)
Lemma auth_skipped_eq e ev d :
  md_id (ev_member ev) = 0 \/ DATABASE_URL e = false ->
  auth_database_integration e ev d
  = (d, AuthResult None (if DATABASE_URL e then None else Some 0) None [] [] false).
Proof.
  intros Hskip. unfold auth_database_integration.
  destruct (DATABASE_URL e) eqn:Hdb.
  - destruct Hskip as [Hz | Hf]; [|discriminate].
    rewrite Hz. reflexivity.
  - rewrite andb_false_r. reflexivity.
Qed.

Lemma auth_conflict_eq e ev d :
  md_id (ev_member ev) <> 0 -> DATABASE_URL e = true ->
  email_taken d (md_id (ev_member ev)) (md_email (ev_member ev)) = true ->
  auth_database_integration e ev d
  = (Db (members d) (member_credits d) (app_actions d) (credit_history d)
        (processed_purchase_tags d) (members_id_seq d + 1) (app_actions_id_seq d),
     db_error_result).
Proof.
  intros Hid Hdb Hemail. unfold auth_database_integration.
  apply Z.eqb_neq in Hid. rewrite Hid, Hdb. cbn [negb andb].
  unfold upsert_member. rewrite Hemail. reflexivity.
Qed.

(** Every event, with the conditions of its branch. *)
Lemma auth_outcome (e : env) (ev : auth_event) (d : db) :
  let md := ev_member ev in
  let cid := md_id md in
  (md_id md = 0 \/ DATABASE_URL e = false) \/
  (md_id md <> 0 /\ DATABASE_URL e = true /\ email_taken d cid (md_email md) = true) \/
  (md_id md <> 0 /\ DATABASE_URL e = true /\
   email_taken d cid (md_email md) = false /\
   (member_credits d !! match members d !! cid with
                        | Some m => m_id m
                        | None => members_id_seq d
                        end = None \/
    (ev_now ev - match members d !! cid with
                 | Some m => m_first_seen_at m
                 | None => ev_now ev
                 end <? 30000) = true)) \/
  (exists m rec,
     md_id md <> 0 /\ DATABASE_URL e = true /\
     members d !! cid = Some m /\
     email_taken d cid (md_email md) = false /\
     member_credits d !! m_id m = Some rec /\
     30000 <= ev_now ev - m_first_seen_at m).
Proof.
  intros md cid.
  destruct (Z.eq_dec (md_id md) 0) as [Hz|Hnz]; [auto|].
  destruct (DATABASE_URL e) eqn:Hdb; [|auto].
  destruct (email_taken d cid (md_email md)) eqn:Hemail; [auto|].
  right. right.
  destruct (members d !! cid) as [m|] eqn:Hm.
  - destruct (member_credits d !! m_id m) as [rec|] eqn:Hrec.
    + destruct (ev_now ev - m_first_seen_at m <? 30000) eqn:Hnew.
      * left. repeat split; auto.
      * right. exists m, rec. apply Z.ltb_ge in Hnew. repeat split; auto.
    + left. repeat split; auto.
  - left. repeat split; auto. right. apply Z.ltb_lt. lia.
Qed.



Lemma of_type_purchase_rows mid b ps :
  of_type purchase_credit (purchase_rows mid b ps) = purchase_rows mid b ps.
Proof.
  unfold of_type, purchase_rows. induction ps as [|p ps IH]; [reflexivity|].
  rewrite fmap_cons, filter_cons_True by reflexivity. f_equal. exact IH.
Qed.

Lemma of_type_if t (c : bool) l :
  of_type t (if c then l else []) = if c then of_type t l else [].
Proof. destruct c; reflexivity. Qed.

Lemma of_type_trigger_insert t mid old new :
  t <> initial_grant ->
  of_type t (option_list (log_credit_change TG_INSERT mid old new)) = [].
Proof.
  intros Ht. simpl. unfold of_type.
  rewrite filter_cons_False by (cbn; congruence). reflexivity.
Qed.

(** The purchase rows of an event: what the last stage appends to the
    history is all the event appends of type [purchase_credit]. *)
Lemma purchase_credit_rows_of_grant e is_paid mid (settles : bool) A T P :
  of_type purchase_credit A = [] ->
  of_type purchase_credit T = [] ->
  of_type purchase_credit
    (A ++ [initial_grant_row e is_paid mid] ++ (if settles then T ++ P else []))
  = if settles then of_type purchase_credit P else [].
Proof.
  intros HA HT. rewrite !of_type_app, HA, of_type_if, of_type_app, HT.
  unfold of_type at 1. rewrite filter_cons_False by (cbn; congruence).
  destruct settles; reflexivity.
Qed.

(** Purchase tags are settled all together or not at all, the settlement
    being on one session.  For every sign-in, either nothing of a purchase is recorded (no tag reported as
    processed, no row added to [processed_purchase_tags], no
    [purchase_credit] row in the history, no tag queued for removal), or all
    the purchase tags the member carries are: the answer lists every one of
    them, [processed_purchase_tags] and the history receive one row per tag
    in the order of the tags, each history row showing the balance of the
    answer, and the tags queued for removal are those of this settlement.
    The second happens exactly when the member carries a purchase tag, no
    statement of the settlement fails and the sign-in got as far as a
    database id. *)
Lemma auth_purchases_all_or_nothing e ev d :
  let d' := fst (auth_database_integration e ev d) in
  let r := snd (auth_database_integration e ev d) in
  let ps := detect_purchase_tags (md_tags (ev_member ev)) in
  (r_processed_purchase_tags r = [] /\
   purchase_tags_appended d d' = [] /\
   of_type purchase_credit (history_appended d d') = [] /\
   r_deleted_tag_ids r = [] /\
   (ps = [] \/ settlement_fails ev ps = true \/ r_db_id r = None)) \/
  (exists mid b,
     ps <> [] /\ settlement_fails ev ps = false /\
     r_db_id r = Some mid /\ r_credits_balance r = Some b /\
     r_processed_purchase_tags r = p_tag <$> ps /\
     purchase_tags_appended d d' = purchase_tag_rows mid ps /\
     of_type purchase_credit (history_appended d d') = purchase_rows mid b ps /\
     r_deleted_tag_ids r = tags_to_delete (ev_admin_tag_id ev) ps).
Proof.
  intros d' r ps. subst d' r.
  destruct (auth_outcome e ev d) as [H | [H | [H | H]]].
  - left. rewrite (auth_skipped_eq e ev d H). cbn [fst snd].
    unfold purchase_tags_appended, history_appended. rewrite !drop_all.
    repeat split; try reflexivity. right. right. reflexivity.
  - left. destruct H as (H1 & H2 & H3).
    rewrite (auth_conflict_eq e ev d H1 H2 H3). cbn [fst snd].
    unfold purchase_tags_appended, history_appended.
    cbn [processed_purchase_tags credit_history]. rewrite !drop_all.
    repeat split; try reflexivity. right. right. reflexivity.
  - destruct H as (Hnz & Hdb & Hemail & Hbranch).
    rewrite (auth_grant_eq e ev d Hnz Hdb Hemail Hbranch). cbn [fst snd].
    unfold purchase_tags_appended, history_appended.
    cbn [processed_purchase_tags credit_history r_processed_purchase_tags
         r_deleted_tag_ids r_db_id r_credits_balance].
    rewrite !drop_app_length.
    rewrite purchase_credit_rows_of_grant.
    2:{ destruct (member_credits d !! _).
        - apply of_type_trigger_update; discriminate.
        - apply of_type_trigger_insert; discriminate. }
    2:{ apply of_type_trigger_update; discriminate. }
    rewrite of_type_purchase_rows. fold ps.
    destruct (negb (settlement_fails ev ps) && (0 <? length ps)%nat)%bool eqn:Hs.
    + right. eexists _, _.
      apply andb_prop in Hs as Hs'. destruct Hs' as [Hf Hl].
      apply negb_true_iff in Hf.
      split; [intros Hnil; rewrite Hnil in Hl; discriminate|].
      split; [exact Hf|]. repeat split; reflexivity.
    + left. repeat split; try reflexivity.
      apply andb_false_iff in Hs as [Hf|Hl].
      * right. left. apply negb_false_iff in Hf. exact Hf.
      * left. apply Nat.ltb_ge in Hl. apply nil_length_inv. lia.
  - destruct H as (m & rec & Hnz & Hdb & Hm & Hemail & Hrec & Hold).
    rewrite (auth_returning_eq e ev d m rec Hnz Hdb Hm Hemail Hrec Hold). cbn [fst snd].
    unfold purchase_tags_appended, history_appended.
    cbn [processed_purchase_tags credit_history r_processed_purchase_tags
         r_deleted_tag_ids r_db_id r_credits_balance].
    rewrite !drop_app_length. fold ps.
    rewrite !of_type_app, !of_type_if, !of_type_app.
    rewrite !of_type_trigger_update by discriminate.
    rewrite of_type_purchase_rows.
    assert (Hb : forall b, of_type purchase_credit [upgrade_bonus_row e (m_id m) b] = [])
      by reflexivity.
    assert (Hr : forall p b, of_type purchase_credit [monthly_refresh_row e p (m_id m) b] = [])
      by reflexivity.
    rewrite Hb, Hr.
    assert (Hnone : forall (c1 c2 : bool) (l : list history_row),
               (if c1 then [] ++ [] else []) ++ (if c2 then [] ++ [] else []) ++ l = l)
      by (intros [] [] l; reflexivity).
    rewrite Hnone.
    destruct (negb (settlement_fails ev ps) && (0 <? length ps)%nat)%bool eqn:Hs.
    + right. eexists _, _.
      apply andb_prop in Hs as Hs'. destruct Hs' as [Hf Hl].
      apply negb_true_iff in Hf.
      split; [intros Hnil; rewrite Hnil in Hl; discriminate|].
      split; [exact Hf|]. repeat split; reflexivity.
    + left. repeat split; try reflexivity.
      apply andb_false_iff in Hs as [Hf|Hl].
      * right. left. apply negb_false_iff in Hf. exact Hf.
      * left. apply Nat.ltb_ge in Hl. apply nil_length_inv. lia.
Qed.



(** X19: the table [processed_purchase_tags] is written and never read.
    Replace its contents by anything: the answer of a sign-in, the accounts,
    the history and the rows the event adds to the table itself are the same.
    In particular a purchase tag that is still on the member is credited
    again at the next sign-in, whatever the table says about it. *)
Theorem processed_purchase_tags_are_never_read e ev d ptr :
  let d2 := Db (members d) (member_credits d) (app_actions d) (credit_history d)
               ptr (members_id_seq d) (app_actions_id_seq d) in
  snd (auth_database_integration e ev d2) = snd (auth_database_integration e ev d) /\
  members (fst (auth_database_integration e ev d2))
  = members (fst (auth_database_integration e ev d)) /\
  member_credits (fst (auth_database_integration e ev d2))
  = member_credits (fst (auth_database_integration e ev d)) /\
  credit_history (fst (auth_database_integration e ev d2))
  = credit_history (fst (auth_database_integration e ev d)) /\
  purchase_tags_appended d2 (fst (auth_database_integration e ev d2))
  = purchase_tags_appended d (fst (auth_database_integration e ev d)).
Proof.
  intros d2.
  destruct (auth_outcome e ev d) as [H | [H | [H | H]]].
  - rewrite (auth_skipped_eq e ev d H), (auth_skipped_eq e ev d2 H).
    cbn [fst snd]. unfold purchase_tags_appended. rewrite !drop_all.
    repeat split; reflexivity.
  - destruct H as (H1 & H2 & H3).
    rewrite (auth_conflict_eq e ev d H1 H2 H3), (auth_conflict_eq e ev d2 H1 H2 H3).
    cbn [fst snd]. unfold purchase_tags_appended.
    cbn [processed_purchase_tags]. rewrite !drop_all.
    repeat split; reflexivity.
  - destruct H as (Hnz & Hdb & Hemail & Hbranch).
    rewrite (auth_grant_eq e ev d Hnz Hdb Hemail Hbranch).
    rewrite (auth_grant_eq e ev d2 Hnz Hdb Hemail Hbranch).
    cbn [fst snd]. unfold purchase_tags_appended.
    cbn [processed_purchase_tags members member_credits credit_history
         members_id_seq]. rewrite !drop_app_length.
    repeat split; reflexivity.
  - destruct H as (m & rec & Hnz & Hdb & Hm & Hemail & Hrec & Hold).
    rewrite (auth_returning_eq e ev d m rec Hnz Hdb Hm Hemail Hrec Hold).
    rewrite (auth_returning_eq e ev d2 m rec Hnz Hdb Hm Hemail Hrec Hold).
    cbn [fst snd]. unfold purchase_tags_appended.
    cbn [processed_purchase_tags members member_credits credit_history
         members_id_seq]. rewrite !drop_app_length.
    repeat split; reflexivity.
Qed.


(** ** The refresh gate on the calendar *)

Lemma oneMonthAgo_split now :
  oneMonthAgo now
  = month_back (JsDate.Day now) * JsDate.msPerDay + JsDate.TimeWithinDay now.
Proof.
  unfold oneMonthAgo, JsDate.setMonth, JsDate.getMonth, JsDate.getFullYear,
    JsDate.getDate, month_back.
  destruct (JsDate.civil_from_days (JsDate.Day now)) as [[y m] d]. reflexivity.
Qed.

Lemma month_back_in_range_spec n : forall day0 day,
  month_back_in_range n day0 = true ->
  day0 <= day < day0 + Z.of_nat n ->
  28 <= day - month_back day <= 31.
Proof.
  induction n as [|n IH]; intros day0 day Hall Hday; [lia|].
  cbn [month_back_in_range] in Hall. cbv zeta in Hall.
  apply andb_prop in Hall as [Hhere Hrest].
  apply andb_prop in Hhere as [Hlo Hhi].
  destruct (Z.eq_dec day day0) as [->|Hne].
  - apply Z.leb_le in Hlo, Hhi. lia.
  - apply (IH (day0 + 1)); [exact Hrest | lia].
Qed.

(** Every day from 1 January 1970 up to 1 January 2100. *)
Lemma month_back_1970_2100 : month_back_in_range (Z.to_nat 47482) 0 = true.
Proof. vm_compute. reflexivity. Qed.

(** X21: how far back the refresh gate reaches.  For every instant from 1970
    to 2100, one calendar month before now (as [Date.setMonth] computes it) is
    the same time of day between 28 and 31 days earlier.  So the monthly
    refresh is never due within 28 days of the last one, and is always due
    once more than 31 days have passed. *)
Theorem monthly_refresh_window now last :
  0 <= now < 4102444800000 ->
  28 * JsDate.msPerDay <= now - oneMonthAgo now <= 31 * JsDate.msPerDay /\
  ((last <? oneMonthAgo now) = true -> 28 * JsDate.msPerDay < now - last) /\
  (31 * JsDate.msPerDay < now - last -> (last <? oneMonthAgo now) = true).
Proof.
  intros Hnow.
  assert (Hday : 0 <= JsDate.Day now < 0 + Z.of_nat (Z.to_nat 47482)).
  { rewrite Z2Nat.id by lia. unfold JsDate.Day, JsDate.msPerDay. split.
    - apply Z.div_pos; lia.
    - apply Z.div_lt_upper_bound; lia. }
  pose proof (month_back_in_range_spec _ _ _ month_back_1970_2100 Hday) as Hback.
  assert (Hsplit : now = JsDate.Day now * JsDate.msPerDay + JsDate.TimeWithinDay now).
  { unfold JsDate.Day, JsDate.TimeWithinDay, JsDate.msPerDay.
    pose proof (Z.div_mod now 86400000). lia. }
  rewrite oneMonthAgo_split.
  assert (Hdiff : now - (month_back (JsDate.Day now) * JsDate.msPerDay
                         + JsDate.TimeWithinDay now)
                  = (JsDate.Day now - month_back (JsDate.Day now)) * JsDate.msPerDay)
    by lia.
  unfold JsDate.msPerDay in *.
  split; [lia|]. split.
  - intros Hdue. apply Z.ltb_lt in Hdue. lia.
  - intros Hlate. apply Z.ltb_lt. lia.
Qed.

Lemma monthly_refresh_window_witness :
  28 * JsDate.msPerDay <= Sample.t0 - oneMonthAgo Sample.t0 <= 31 * JsDate.msPerDay /\
  ((0 <? oneMonthAgo Sample.t0) = true -> 28 * JsDate.msPerDay < Sample.t0 - 0) /\
  (31 * JsDate.msPerDay < Sample.t0 - 0 -> (0 <? oneMonthAgo Sample.t0) = true).
Proof.
  apply (monthly_refresh_window Sample.t0 0). vm_compute. split; [discriminate | reflexivity].
Defined.

(** ** Admin tokens *)

Lemma substring_all s : String.substring 0 (String.length s) s = s.
Proof. induction s as [|c s IH]; [reflexivity|]. cbn. rewrite IH. reflexivity. Qed.

Lemma remove_first_bearer token : remove_first "Bearer " ("Bearer " ++ token) = token.
Proof.
  assert (Hp : String.prefix "Bearer " ("Bearer " ++ token) = true).
  { cbn. destruct token; reflexivity. }
  destruct token as [|c token].
  - reflexivity.
  - change (remove_first "Bearer " ("Bearer " ++ String c token))
      with (if String.prefix "Bearer " ("Bearer " ++ String c token)
            then String.substring (String.length "Bearer ")
                   (String.length ("Bearer " ++ String c token) - String.length "Bearer ")
                   ("Bearer " ++ String c token)
            else String "B" (remove_first "Bearer " ("earer " ++ String c token))).
    rewrite Hp. simpl. f_equal. apply substring_all.
Qed.

(** The token of a request that carries [token] as query parameter, or in an
    [Authorization: Bearer] header without a query parameter. *)
Lemma request_token_carried token :
  token <> "" ->
  request_token (Some token) None = Some token /\
  request_token None (Some ("Bearer " ++ token)%string) = Some token.
Proof.
  intros Hne. unfold request_token. split.
  - destruct token; [contradiction|reflexivity].
  - change (truthy None) with (@None string). cbv iota.
    change (truthy (Some ("Bearer " ++ token)%string))
      with (Some ("Bearer " ++ token)%string).
    change (remove_first "Bearer " <$> Some ("Bearer " ++ token)%string)
      with (Some (remove_first "Bearer " ("Bearer " ++ token))).
    rewrite remove_first_bearer. destruct token; [contradiction|reflexivity].
Qed.

Lemma generate_token_issued e now rnd cid d ts ts' token expiresAt :
  generate_token e now rnd cid d ts = (ts', TokenIssued token expiresAt) ->
  exists m,
    cid <> 0 /\ DATABASE_URL e = true /\
    members d !! cid = Some m /\ m_is_admin m = true /\
    token = rnd /\ expiresAt = now + 900000 /\
    ts' = cleanupExpiredTokens now
            (<[rnd := TokenData cid (m_name m) (m_email m) (now + 900000) now]> ts).
Proof.
  unfold generate_token.
  destruct (Z.eqb_spec cid 0) as [|Hnz]; [discriminate|].
  destruct (DATABASE_URL e); cbn [negb]; [|discriminate].
  destruct (members d !! cid) as [m|]; [|discriminate].
  destruct (m_is_admin m) eqn:Hadm; [|discriminate].
  intros [= <- <- <-]. exists m. repeat split; auto.
Qed.

(** X22: an admin token is good for exactly 15 minutes.  A token issued at
    [now] is accepted, with the name and email of the admin it was issued
    to, by every check made no later than [now] plus 900000 ms, whether it
    comes as query parameter or as [Authorization: Bearer] header, and the
    check leaves the token store as it is; a check made later answers 401,
    removes the token, and from then on the token is unknown. *)
Theorem admin_token_valid_for_15_minutes e now rnd cid d ts ts' token expiresAt later :
  generate_token e now rnd cid d ts = (ts', TokenIssued token expiresAt) ->
  token <> "" ->
  expiresAt = now + 900000 /\
  (later <= expiresAt ->
   exists adminUser,
     checkAdminToken e later (Some token) None ts' = (ts', TokenAccepted adminUser) /\
     checkAdminToken e later None (Some ("Bearer " ++ token)%string) ts'
     = (ts', TokenAccepted adminUser) /\
     td_circle_member_id adminUser = cid /\
     (exists m, members d !! cid = Some m /\ m_is_admin m = true /\
                td_name adminUser = m_name m /\ td_email adminUser = m_email m)) /\
  (expiresAt < later ->
   checkAdminToken e later (Some token) None ts'
   = (delete token ts', TokenRejected 401 "Token expired") /\
   forall t, checkAdminToken e t (Some token) None (delete token ts')
             = (delete token ts', TokenRejected 401 "Invalid token")).
Proof.
  intros Hgen Hne.
  apply generate_token_issued in Hgen
    as (m & Hnz & Hdb & Hm & Hadm & -> & -> & ->).
  destruct (request_token_carried rnd Hne) as [Hq Hh].
  assert (Hstored :
    cleanupExpiredTokens now
      (<[rnd := TokenData cid (m_name m) (m_email m) (now + 900000) now]> ts) !! rnd
    = Some (TokenData cid (m_name m) (m_email m) (now + 900000) now)).
  { unfold cleanupExpiredTokens. apply map_lookup_filter_Some. split.
    - apply lookup_insert_eq.
    - cbn. apply Z.ltb_ge. lia. }
  split; [reflexivity|]. split.
  - intros Hin. eexists. unfold checkAdminToken.
    rewrite Hdb, Hq, Hh, Hstored. cbn [negb td_expiresAt].
    assert (Hok : (now + 900000 <? later) = false) by (apply Z.ltb_ge; lia).
    rewrite Hok. split; [reflexivity|]. split; [reflexivity|].
    split; [reflexivity|]. exists m. auto.
  - intros Hout. unfold checkAdminToken.
    rewrite Hdb, Hq, Hstored. cbn [negb td_expiresAt].
    assert (Hexp : (now + 900000 <? later) = true) by (apply Z.ltb_lt; lia).
    rewrite Hexp. split; [reflexivity|].
    intros t. rewrite lookup_delete_eq. reflexivity.
Qed.

Lemma admin_token_valid_for_15_minutes_witness :
  let d := Db {[ 7 := MemberRow 3 "root@example.com" "Root" true false (Some true)
                        (Some []) 0 0 ]} ∅ [] [] [] 4 1 in
  let ts' := fst (generate_token Sample.env0 Sample.t0 "a3f1" 7 d ∅) in
  exists adminUser,
    checkAdminToken Sample.env0 (Sample.t0 + 900000) (Some "a3f1") None ts'
    = (ts', TokenAccepted adminUser) /\
    checkAdminToken Sample.env0 (Sample.t0 + 900000) None (Some "Bearer a3f1") ts'
    = (ts', TokenAccepted adminUser) /\
    td_circle_member_id adminUser = 7.
Proof.
  intros d ts'.
  assert (Hgen : generate_token Sample.env0 Sample.t0 "a3f1" 7 d ∅
                 = (ts', TokenIssued "a3f1" (Sample.t0 + 900000))) by reflexivity.
  assert (Hne : "a3f1" <> "") by discriminate.
  destruct (admin_token_valid_for_15_minutes Sample.env0 Sample.t0 "a3f1" 7 d ∅ ts'
              "a3f1" (Sample.t0 + 900000) (Sample.t0 + 900000) Hgen Hne)
    as (_ & Hin & _).
  destruct (Hin (Z.le_refl _)) as (adminUser & H1 & H2 & H3 & _).
  exists adminUser. auto.
Defined.

(** Only an administrator gets a token, and a refusal changes nothing.
    A token is issued only to a member of the directory whose [is_admin] is
    true; it is the random value drawn, it expires 15 minutes after now, and
    it is stored under the member's id, name and email.  Every other request
    is refused with 400 (no member id), 501 (no database) or 403 (unknown
    member or not an administrator) and leaves the token store untouched. *)
Lemma admin_token_only_for_admins e now rnd cid d ts :
  match snd (generate_token e now rnd cid d ts) with
  | TokenIssued token expiresAt =>
      exists m, members d !! cid = Some m /\ m_is_admin m = true /\
                token = rnd /\ expiresAt = now + 900000 /\
                fst (generate_token e now rnd cid d ts) !! token
                = Some (TokenData cid (m_name m) (m_email m) expiresAt now)
  | TokenRefused status =>
      fst (generate_token e now rnd cid d ts) = ts /\
      ((status = 400 /\ cid = 0) \/
       (status = 501 /\ DATABASE_URL e = false) \/
       (status = 403 /\
        (members d !! cid = None \/
         exists m, members d !! cid = Some m /\ m_is_admin m = false)))
  end.
Proof.
  unfold generate_token.
  destruct (Z.eqb_spec cid 0) as [Hz|Hnz]; [cbn; auto|].
  destruct (DATABASE_URL e) eqn:Hdb; cbn [negb]; [|cbn; auto].
  destruct (members d !! cid) as [m|] eqn:Hm; [|cbn; auto 6].
  destruct (m_is_admin m) eqn:Hadm; [|cbn; eauto 8].
  cbn [fst snd]. exists m. repeat split; auto.
  unfold cleanupExpiredTokens. apply map_lookup_filter_Some. split.
  - apply lookup_insert_eq.
  - cbn. apply Z.ltb_ge. lia.
Qed.

(** X23: issuing a token sweeps the store.  After a token is issued at
    [now], no token of the store has expired before [now], and apart from the
    new token the store holds exactly the tokens it held before that had not
    expired, with their data unchanged. *)
Theorem issuing_a_token_sweeps_expired_ones e now rnd cid d ts ts' token expiresAt :
  generate_token e now rnd cid d ts = (ts', TokenIssued token expiresAt) ->
  (forall t data, ts' !! t = Some data -> now <= td_expiresAt data) /\
  (forall t data, t <> token ->
     (ts' !! t = Some data <-> ts !! t = Some data /\ now <= td_expiresAt data)).
Proof.
  intros Hgen.
  apply generate_token_issued in Hgen
    as (m & Hnz & Hdb & Hm & Hadm & -> & -> & ->).
  unfold cleanupExpiredTokens. split.
  - intros t data Ht. apply map_lookup_filter_Some in Ht as [_ Hkeep].
    cbn in Hkeep. apply Z.ltb_ge in Hkeep. exact Hkeep.
  - intros t data Hne. rewrite map_lookup_filter_Some.
    rewrite lookup_insert_ne by congruence. cbn [snd].
    rewrite Z.ltb_ge. reflexivity.
Qed.

Lemma issuing_a_token_sweeps_expired_ones_witness :
  let d := Db {[ 7 := MemberRow 3 "root@example.com" "Root" true false (Some true)
                        (Some []) 0 0 ]} ∅ [] [] [] 4 1 in
  let ts : gmap string token_data :=
    {[ "old" := TokenData 7 "Root" "root@example.com" 5 0;
       "live" := TokenData 7 "Root" "root@example.com" (Sample.t0 + 1) 0 ]} in
  let ts' := fst (generate_token Sample.env0 Sample.t0 "a3f1" 7 d ts) in
  (forall t data, ts' !! t = Some data -> Sample.t0 <= td_expiresAt data) /\
  (forall t data, t <> "a3f1" ->
     (ts' !! t = Some data <-> ts !! t = Some data /\ Sample.t0 <= td_expiresAt data)).
Proof.
  intros d ts ts'.
  apply (issuing_a_token_sweeps_expired_ones Sample.env0 Sample.t0 "a3f1" 7 d ts ts'
           "a3f1" (Sample.t0 + 900000)).
  reflexivity.
Defined.

(** ** Paid status from tags *)

Lemma prefix_spec p : forall s,
  String.prefix p s = true <-> exists post, s = (p ++ post)%string.
Proof.
  induction p as [|c p IH]; intros s.
  - split; [intros _; exists s; reflexivity | intros _; destruct s; reflexivity].
  - destruct s as [|c' s]; cbn.
    + split; [discriminate | intros [post H]; discriminate].
    + destruct (Ascii.ascii_dec c c') as [->|Hne].
      * rewrite IH. split; intros [post H]; exists post.
        -- rewrite H. reflexivity.
        -- change (String c' s = String c' (p ++ post)%string) in H.
           injection H as H. exact H.
      * split; [discriminate|]. intros [post H].
        change (String c' s = String c (p ++ post)%string) in H.
        injection H as H1 H2. congruence.
Qed.

Lemma includes_unfold s sub :
  Js.includes s sub
  = String.prefix sub s
    || match s with
       | String _ r => Js.includes r sub
       | EmptyString => false
       end.
Proof. destruct s; reflexivity. Qed.

Lemma includes_spec sub : forall s,
  Js.includes s sub = true <-> exists pre post, s = (pre ++ sub ++ post)%string.
Proof.
  intros s. split.
  - induction s as [|c s IH]; rewrite includes_unfold; intros H;
      apply orb_prop in H as [H | H].
    + apply prefix_spec in H as [post ->]. exists "", post. reflexivity.
    + discriminate.
    + apply prefix_spec in H as [post ->]. exists "", post. reflexivity.
    + destruct (IH H) as (pre & post & ->). exists (String c pre), post. reflexivity.
  - intros (pre & post & ->). induction pre as [|c pre IH].
    + rewrite includes_unfold.
      assert (Hp : String.prefix sub ("" ++ sub ++ post) = true)
        by (apply prefix_spec; exists post; reflexivity).
      rewrite Hp. reflexivity.
    + rewrite includes_unfold.
      change (String c pre ++ sub ++ post)%string
        with (String c (pre ++ sub ++ post)%string).
      cbv iota. rewrite IH. apply orb_true_r.
Qed.

(** X24: a member is paid when any tag contains any configured keyword.
    [is_paid_member] answers true exactly when some tag, lower-cased, has
    some keyword of the configuration as a substring, at any position: the
    match is neither anchored nor restricted to whole words. *)
Theorem paid_by_any_substring (paidMemberTags tags : list string) :
  is_paid_member paidMemberTags tags = true <->
  exists tag paidTag before after,
    tag ∈ tags /\ paidTag ∈ paidMemberTags /\
    Js.toLowerCase tag = (before ++ paidTag ++ after)%string.
Proof.
  unfold is_paid_member. rewrite existsb_exists. split.
  - intros (tag & Htag & Hkw). apply existsb_exists in Hkw as (kw & Hkw & Hinc).
    apply includes_spec in Hinc as (pre & post & Heq).
    exists tag, kw, pre, post. repeat split; auto; apply list_elem_of_In; assumption.
  - intros (tag & kw & pre & post & Htag & Hkw & Heq).
    exists tag. split; [apply list_elem_of_In; exact Htag|].
    apply existsb_exists. exists kw. split; [apply list_elem_of_In; exact Hkw|].
    apply includes_spec. eauto.
Qed.

Lemma split_comma_nonempty s : split_comma s <> [].
Proof.
  destruct s as [|c s]; cbn; [discriminate|].
  destruct (Ascii.eqb c ","); [discriminate|].
  destruct (split_comma s); discriminate.
Qed.

Lemma split_comma_trailing s :
  split_comma (s ++ ",") = split_comma s ++ [""].
Proof.
  induction s as [|c s IH]; [reflexivity|].
  change (String c s ++ ",")%string with (String c (s ++ ",")%string).
  cbn [split_comma]. rewrite IH.
  destruct (Ascii.eqb c ","); [reflexivity|].
  pose proof (split_comma_nonempty s).
  destruct (split_comma s) as [|p ps]; [contradiction|reflexivity].
Qed.

(** X25: a stray comma in [PAID_MEMBER_TAGS] makes every tagged member paid.
    A value that ends with a comma parses to a keyword list that contains the
    empty keyword, and the empty keyword is a substring of every tag: with
    such a configuration every member who carries at least one tag is
    classified as paid, whatever the tags are. *)
Theorem trailing_comma_makes_everyone_paid (s : string) (tags : list string) :
  tags <> [] ->
  "" ∈ parse_paid_member_tags (Some (s ++ ",")%string) /\
  is_paid_member (parse_paid_member_tags (Some (s ++ ",")%string)) tags = true.
Proof.
  intros Htags.
  assert (Hin : "" ∈ parse_paid_member_tags (Some (s ++ ",")%string)).
  { unfold parse_paid_member_tags.
    destruct (s ++ ",")%string as [|c r] eqn:Hs.
    - destruct s; discriminate.
    - rewrite <- Hs, split_comma_trailing, fmap_app.
      apply elem_of_app. right. apply list_elem_of_singleton. reflexivity. }
  split; [exact Hin|].
  destruct tags as [|tag tags]; [contradiction|].
  unfold is_paid_member. apply existsb_exists.
  exists tag. split; [left; reflexivity|].
  apply existsb_exists. exists "". split; [apply list_elem_of_In; exact Hin|].
  rewrite includes_unfold.
  assert (Hp : String.prefix "" (Js.toLowerCase tag) = true)
    by (destruct (Js.toLowerCase tag); reflexivity).
  rewrite Hp. reflexivity.
Qed.

Lemma trailing_comma_makes_everyone_paid_witness :
  "" ∈ parse_paid_member_tags (Some "vip,pro,") /\
  is_paid_member (parse_paid_member_tags (Some "vip,pro,")) ["newcomer"] = true.
Proof.
  apply (trailing_comma_makes_everyone_paid "vip,pro" ["newcomer"]). discriminate.
Defined.

(** A settlement that fails on one session is silent and costs the member
    exactly the purchases.  When a statement of the purchase settlement throws, the
    sign-in still answers with the member's id and without [db_error]; it
    reports no processed tag and queues no tag for removal (the tags stay on
    the member), writes no row to [processed_purchase_tags], and keeps
    everything the earlier stages did: the directory is the same as after the
    same event without the fault, and the balance answered and stored is the
    balance of that event minus the total of the purchase tags. *)
Lemma auth_failed_settlement e ev d mid :
  let ps := detect_purchase_tags (md_tags (ev_member ev)) in
  settlement_fails ev ps = true ->
  r_db_id (snd (auth_database_integration e ev d)) = Some mid ->
  let ev0 := AuthEvent (ev_now ev) (ev_member ev) (ev_admin_tag_id ev) None in
  let d' := fst (auth_database_integration e ev d) in
  let r := snd (auth_database_integration e ev d) in
  r_db_error r = false /\
  r_processed_purchase_tags r = [] /\
  r_deleted_tag_ids r = [] /\
  purchase_tags_appended d d' = [] /\
  members d' = members (fst (auth_database_integration e ev0 d)) /\
  exists b,
    r_credits_balance r = Some b /\
    balance_of d' mid = Some b /\
    r_credits_balance (snd (auth_database_integration e ev0 d))
    = Some (b + purchases_total ps).
Proof.
  intros ps Hfails Hid ev0 d' r. subst d' r.
  assert (Hok : settlement_fails ev0 ps = false) by reflexivity.
  destruct (auth_outcome e ev d) as [H | [H | [H | H]]].
  - rewrite (auth_skipped_eq e ev d H) in Hid. discriminate.
  - destruct H as (H1 & H2 & H3).
    rewrite (auth_conflict_eq e ev d H1 H2 H3) in Hid. discriminate.
  - destruct H as (Hnz & Hdb & Hemail & Hbranch).
    rewrite (auth_grant_eq e ev d Hnz Hdb Hemail Hbranch) in *.
    rewrite (auth_grant_eq e ev0 d Hnz Hdb Hemail Hbranch).
    cbn [fst snd r_db_id r_db_error r_processed_purchase_tags r_deleted_tag_ids
         r_credits_balance members ev_now ev_member ev_admin_tag_id] in *.
    injection Hid as <-.
    change (ev_member ev0) with (ev_member ev).
    fold ps. rewrite Hfails, Hok. cbn [negb andb].
    unfold purchase_tags_appended, balance_of.
    cbn [processed_purchase_tags member_credits].
    rewrite app_nil_r, drop_all, lookup_insert_eq.
    repeat split; try reflexivity.
    eexists. split; [reflexivity|]. split; [reflexivity|].
    f_equal. destruct ps; [cbn; lia | reflexivity].
  - destruct H as (m & rec & Hnz & Hdb & Hm & Hemail & Hrec & Hold).
    rewrite (auth_returning_eq e ev d m rec Hnz Hdb Hm Hemail Hrec Hold) in *.
    rewrite (auth_returning_eq e ev0 d m rec Hnz Hdb Hm Hemail Hrec Hold).
    cbn [fst snd r_db_id r_db_error r_processed_purchase_tags r_deleted_tag_ids
         r_credits_balance members ev_now ev_member ev_admin_tag_id] in *.
    injection Hid as <-.
    change (ev_member ev0) with (ev_member ev).
    fold ps. rewrite Hfails, Hok. cbn [negb andb].
    unfold purchase_tags_appended, balance_of.
    cbn [processed_purchase_tags member_credits].
    rewrite app_nil_r, drop_all, lookup_insert_eq.
    repeat split; try reflexivity.
    eexists. split; [reflexivity|]. split; [reflexivity|].
    f_equal. destruct ps; [cbn; lia | reflexivity].
Qed.

(** X27: one request, one member.  Every request (sign-in, spend, admin
    credit operation) leaves the accounts of all members but one exactly as
    they were, and every row it adds to the credit history, to the action log
    and to the processed-purchase log belongs to that one member. *)
Theorem a_request_touches_one_member e r d :
  let d' := handle e r d in
  exists mid,
    (forall id, id <> mid -> member_credits d' !! id = member_credits d !! id) /\
    Forall (fun h => ch_member_id h = mid) (history_appended d d') /\
    Forall (fun a => a_member_id a = mid) (actions_appended d d') /\
    Forall (fun p => ppt_member_id p = mid) (purchase_tags_appended d d').
Proof.
  intros d'. subst d'.
  destruct (handle_footprint e r d)
    as (mid & hs & acts & ptr & Hh & Ha & Hp & Hframe & Hhs & _ & _ & _ & _ & Hacts & Hptr).
  exists mid. unfold history_appended, actions_appended, purchase_tags_appended.
  rewrite Hh, Ha, Hp, !drop_app_length. auto.
Qed.

(** * The spend endpoint with the column types enforced *)

(** ** The messages of the database and their status *)

Lemma string_app_cons (c : ascii) (s t : string) :
  (String c s ++ t)%string = String c (s ++ t)%string.
Proof. reflexivity. Qed.

Lemma string_app_assoc (s t u : string) :
  ((s ++ t) ++ u)%string = (s ++ (t ++ u))%string.
Proof.
  induction s as [|c s IH]; [reflexivity|].
  rewrite !string_app_cons, IH. reflexivity.
Qed.

Lemma list_ascii_of_string_app (s t : string) :
  list_ascii_of_string (s ++ t)%string
  = list_ascii_of_string s ++ list_ascii_of_string t.
Proof.
  induction s as [|c s IH]; [reflexivity|].
  rewrite string_app_cons. cbn [list_ascii_of_string]. rewrite IH. reflexivity.
Qed.

Lemma pretty_N_char_not_n (x : N) : pretty_N_char x <> "n"%char.
Proof. unfold pretty_N_char. repeat case_match; discriminate. Qed.

Lemma pretty_N_go_lacks_n (x : N) : forall s,
  ~ In "n"%char (list_ascii_of_string s) ->
  ~ In "n"%char (list_ascii_of_string (pretty_N_go x s)).
Proof.
  induction (N.lt_wf_0 x) as [x _ IH]. intros s Hs.
  destruct (N.eq_dec x 0%N) as [->|Hx].
  - rewrite pretty_N_go_0. exact Hs.
  - rewrite pretty_N_go_step by lia. apply IH.
    + apply N.div_lt; lia.
    + cbn [list_ascii_of_string In].
      intros [H|H]; [exact (pretty_N_char_not_n _ H) | exact (Hs H)].
Qed.

Lemma pretty_positive_lacks_n (x : positive) :
  ~ In "n"%char (list_ascii_of_string (pretty x)).
Proof.
  unfold pretty, pretty_positive, pretty, pretty_N.
  destruct (decide (N.pos x = 0%N)); [discriminate|].
  apply pretty_N_go_lacks_n. cbn. tauto.
Qed.

Lemma pretty_Z_lacks_n (z : Z) : ~ In "n"%char (list_ascii_of_string (pretty z)).
Proof.
  destruct z as [|x|x].
  - cbn. intros [H|[]]. discriminate.
  - apply pretty_positive_lacks_n.
  - change (pretty (Z.neg x)) with (String "-" (pretty x)).
    cbn [list_ascii_of_string In].
    intros [H|H]; [discriminate | exact (pretty_positive_lacks_n x H)].
Qed.

(** A stretch of text without the first character of [sub] holds no start
    of an occurrence of [sub]. *)
Lemma includes_skips (h : ascii) (t mid post : string) :
  ~ In h (list_ascii_of_string mid) ->
  Js.includes (mid ++ post) (String h t) = Js.includes post (String h t).
Proof.
  induction mid as [|c mid IH]; intros Hmid; [reflexivity|].
  rewrite string_app_cons, includes_unfold.
  cbn [list_ascii_of_string In] in Hmid.
  rewrite IH by tauto.
  cbn [String.prefix].
  destruct (ascii_dec h c) as [->|_]; [tauto | reflexivity].
Qed.

Lemma spend_status_code_out_of_range (n : Z) (type : string) :
  type = "integer" \/ type = "bigint" ->
  spend_status_code (out_of_range n type) = 500.
Proof.
  intros Htype. unfold spend_status_code, out_of_range.
  match goal with
  | |- context [String.eqb ?m "Insufficient credits"] =>
      destruct (String.eqb_spec m "Insufficient credits") as [H|_]
  end.
  { rewrite string_app_cons in H. discriminate. }
  change ("value " ++ dquote ++ pretty n ++ dquote ++ " is out of range for type " ++ type)%string
    with (("value " ++ dquote) ++ (pretty n ++ (dquote ++ " is out of range for type " ++ type)))%string.
  rewrite includes_skips by (vm_compute; intuition discriminate).
  rewrite includes_skips by apply pretty_Z_lacks_n.
  destruct Htype as [-> | ->]; reflexivity.
Qed.

(** ** The transaction, statement by statement *)

Lemma trigger_overflow_spend balance cost :
  trigger_overflow balance (balance - cost)
  = if fits_INT (- cost) then None else Some "integer out of range".
Proof.
  unfold trigger_overflow.
  destruct (Z.eq_dec cost 0) as [->|Hc].
  - rewrite Z.sub_0_r, Z.eqb_refl. reflexivity.
  - replace (balance =? balance - cost) with false by (symmetry; apply Z.eqb_neq; lia).
    replace (balance - cost - balance) with (- cost) by lia.
    cbn [negb andb]. destruct (fits_INT (- cost)); reflexivity.
Qed.

Lemma assign_VARCHAR_short n s :
  (String.length s <= n)%nat -> assign_VARCHAR n s = inr s.
Proof.
  intros H. unfold assign_VARCHAR. apply Nat.leb_le in H. rewrite H. reflexivity.
Qed.

Lemma assign_VARCHAR_50_refused action message :
  assign_VARCHAR 50 action = inl message -> spend_status_code message = 500.
Proof.
  unfold assign_VARCHAR.
  destruct (String.length action <=? 50)%nat; [discriminate|].
  destruct (forallb _ _); [discriminate|].
  intros [= <-]. vm_compute. reflexivity.
Qed.


(** With nothing refused from outside, the values in range and the action
    type short enough, the transaction commits what the handler wrote. *)
Lemma spend_transaction_typed_commits cid action_type cost metadata d m row stored :
  fits_BIGINT cid = true ->
  members d !! cid = Some m ->
  member_credits d !! m_id m = Some row ->
  cost <= credits_balance row ->
  fits_INT (credits_balance row - cost) = true ->
  fits_INT cost = true ->
  fits_INT (- cost) = true ->
  assign_VARCHAR 50 action_type = inr stored ->
  let newBalance := credits_balance row - cost in
  let new := CreditsRow newBalance (last_refreshed_at row) in
  let actionId := app_actions_id_seq d in
  spend_transaction_typed none_refused cid action_type cost metadata d =
  (Db (members d) (<[m_id m := new]> (member_credits d))
      (app_actions d ++ [ActionRow actionId (m_id m) stored cost metadata true])
      (credit_history d
         ++ option_list (log_credit_change TG_UPDATE (m_id m) row new)
         ++ [HistoryRow (m_id m) (- cost) action_cost newBalance (Some actionId)
               ("Credits spent on " ++ action_type)])
      (processed_purchase_tags d) (members_id_seq d) (app_actions_id_seq d + 1),
   inr (actionId, newBalance)).
Proof.
  intros Hbig Hm Hrow Hle Hnew Hcost Hneg Hstored newBalance new actionId.
  unfold spend_transaction_typed, none_refused. cbn [or_else].
  unfold bind_BIGINT. rewrite Hbig.
  rewrite (select_member_credits_some _ _ _ _ Hm Hrow).
  assert (Hge : (credits_balance row <? cost) = false) by (apply Z.ltb_ge; lia).
  rewrite Hge, trigger_overflow_spend.
  unfold bind_INT. rewrite Hnew, Hneg, Hcost, Hstored. cbn [or_else].
  unfold deduct_credits.
  rewrite (update_member_credits_some _ _ None _ _ Hrow). simpl.
  unfold log_action_cost, insert_credit_history. simpl.
  rewrite <- app_assoc. reflexivity.
Qed.

(** Every way the transaction is left with an error: the tables are as they
    were, the sequence of [app_actions] has moved by at most one, and the
    error is the one of a statement refused from outside, one of the two the
    handler throws, or one of a value the columns do not take. *)
Lemma spend_transaction_typed_error refused cid action_type cost metadata d d' message :
  spend_transaction_typed refused cid action_type cost metadata d = (d', inl message) ->
  (d' = d \/ d' = fst (nextval_app_actions d)) /\
  ((exists k, (1 <= k <= 7)%nat /\ refused k = Some message) \/
   (message = record_not_found /\ select_member_credits cid d = None) \/
   (message = insufficient_credits /\
    exists mid balance,
      select_member_credits cid d = Some (mid, balance) /\ balance < cost) \/
   (spend_status_code message = 500 /\
    (fits_BIGINT cid = false \/
     exists mid balance,
       select_member_credits cid d = Some (mid, balance) /\ cost <= balance /\
       spend_accepted action_type cost balance = false))).
Proof.
  unfold spend_transaction_typed.
  assert (Hleaf : forall d0 msg,
    (d0 = d \/ d0 = fst (nextval_app_actions d)) ->
    ((exists k, (1 <= k <= 6)%nat /\ refused k = Some msg) \/
     (msg = record_not_found /\ select_member_credits cid d = None) \/
     (msg = insufficient_credits /\
      exists mid balance,
        select_member_credits cid d = Some (mid, balance) /\ balance < cost) \/
     (spend_status_code msg = 500 /\
      (fits_BIGINT cid = false \/
       exists mid balance,
         select_member_credits cid d = Some (mid, balance) /\ cost <= balance /\
         spend_accepted action_type cost balance = false))) ->
    (d0, @inl string (Z * Z) (default msg (refused 7%nat))) = (d', inl message) ->
    (d' = d \/ d' = fst (nextval_app_actions d)) /\
    ((exists k, (1 <= k <= 7)%nat /\ refused k = Some message) \/
     (message = record_not_found /\ select_member_credits cid d = None) \/
     (message = insufficient_credits /\
      exists mid balance,
        select_member_credits cid d = Some (mid, balance) /\ balance < cost) \/
     (spend_status_code message = 500 /\
      (fits_BIGINT cid = false \/
       exists mid balance,
         select_member_credits cid d = Some (mid, balance) /\ cost <= balance /\
         spend_accepted action_type cost balance = false)))).
  { intros d0 msg Hd0 Hwhy [= <- Hmsg]. split; [exact Hd0|].
    destruct (refused 7%nat) as [m7|] eqn:H7; cbn [default] in Hmsg; unfold id in Hmsg;
      subst message.
    - left. exists 7%nat. split; [lia | exact H7].
    - destruct Hwhy as [(k & Hk & Hr) | Hwhy]; [|right; exact Hwhy].
      left. exists k. split; [lia | exact Hr]. }
  destruct (refused 1%nat) as [m1|] eqn:H1.
  { apply Hleaf; [auto|]. left. exists 1%nat. split; [lia | exact H1]. }
  destruct (refused 2%nat) as [m2|] eqn:H2; cbn [or_else].
  { apply Hleaf; [auto|]. left. exists 2%nat. split; [lia | exact H2]. }
  destruct (bind_BIGINT cid) as [mb|] eqn:Hb.
  { assert (Hbig : fits_BIGINT cid = false /\ mb = out_of_range cid "bigint").
    { unfold bind_BIGINT in Hb.
      destruct (fits_BIGINT cid); [discriminate | injection Hb; auto]. }
    destruct Hbig as [Hbig ->].
    apply Hleaf; [auto|]. right. right. right.
    split; [apply spend_status_code_out_of_range; auto | auto]. }
  destruct (select_member_credits cid d) as [[mid balance]|] eqn:Hsel.
  2:{ apply Hleaf; [auto|]. right. left. auto. }
  destruct (balance <? cost) eqn:Hlt.
  { apply Hleaf; [auto|]. right. right. left. split; [reflexivity|].
    exists mid, balance. split; [reflexivity | apply Z.ltb_lt; exact Hlt]. }
  apply Z.ltb_ge in Hlt.
  assert (Hno : forall msg,
            spend_status_code msg = 500 ->
            spend_accepted action_type cost balance = false ->
            spend_status_code msg = 500 /\
            (fits_BIGINT cid = false \/
             exists mid0 balance0,
               Some (mid, balance) = Some (mid0, balance0) /\ cost <= balance0 /\
               spend_accepted action_type cost balance0 = false)).
  { intros msg Hs Ha. split; [exact Hs|]. right. exists mid, balance. auto. }
  destruct (refused 3%nat) as [m3|] eqn:H3; cbn [or_else].
  { apply Hleaf; [auto|]. left. exists 3%nat. split; [lia | exact H3]. }
  rewrite trigger_overflow_spend.
  unfold bind_INT at 1. destruct (fits_INT (balance - cost)) eqn:Hnew; cbn [or_else].
  2:{ apply Hleaf; [auto|]. right. right. right. apply Hno.
      - apply spend_status_code_out_of_range; auto.
      - unfold spend_accepted. rewrite Hnew. reflexivity. }
  destruct (fits_INT (- cost)) eqn:Hneg.
  2:{ apply Hleaf; [auto|]. right. right. right. apply Hno.
      - reflexivity.
      - unfold spend_accepted. rewrite Hneg, andb_false_r. reflexivity. }
  destruct (refused 4%nat) as [m4|] eqn:H4; cbn [or_else].
  { apply Hleaf; [auto|]. left. exists 4%nat. split; [lia | exact H4]. }
  unfold bind_INT at 1. destruct (fits_INT cost) eqn:Hcost.
  2:{ apply Hleaf; [auto|]. right. right. right. apply Hno.
      - apply spend_status_code_out_of_range; auto.
      - unfold spend_accepted. rewrite Hcost, andb_false_r. reflexivity. }
  destruct (assign_VARCHAR 50 action_type) as [mv|stored] eqn:Hv.
  { apply Hleaf; [auto|]. right. right. right. apply Hno.
    - eapply assign_VARCHAR_50_refused; exact Hv.
    - unfold spend_accepted. rewrite Hv, andb_false_r. reflexivity. }
  cbn [nextval_app_actions].
  destruct (refused 5%nat) as [m5|] eqn:H5; cbn [or_else].
  { apply Hleaf; [auto|]. left. exists 5%nat. split; [lia | exact H5]. }
  unfold bind_INT. rewrite Hneg.
  destruct (refused 6%nat) as [m6|] eqn:H6.
  { apply Hleaf; [auto|]. left. exists 6%nat. split; [lia | exact H6]. }
  discriminate.
Qed.

Lemma spend_transaction_typed_refuses cid action_type cost metadata d m row :
  fits_BIGINT cid = true ->
  members d !! cid = Some m ->
  member_credits d !! m_id m = Some row ->
  cost <= credits_balance row ->
  spend_accepted action_type cost (credits_balance row) = false ->
  exists message,
    spend_transaction_typed none_refused cid action_type cost metadata d
    = (d, inl message) /\
    spend_status_code message = 500 /\
    (fits_INT (credits_balance row - cost) = false ->
     message = out_of_range (credits_balance row - cost) "integer").
Proof.
  intros Hbig Hm Hrow Hle Hno.
  unfold spend_transaction_typed, none_refused. cbn [or_else default].
  unfold bind_BIGINT. rewrite Hbig.
  rewrite (select_member_credits_some _ _ _ _ Hm Hrow).
  assert (Hge : (credits_balance row <? cost) = false) by (apply Z.ltb_ge; lia).
  rewrite Hge, trigger_overflow_spend. unfold id.
  unfold bind_INT at 1.
  destruct (fits_INT (credits_balance row - cost)) eqn:Hnew; cbn [or_else].
  2:{ eexists. split; [reflexivity|].
      split; [apply spend_status_code_out_of_range; auto | reflexivity]. }
  destruct (fits_INT (- cost)) eqn:Hneg.
  2:{ eexists. split; [reflexivity|]. split; [reflexivity | discriminate]. }
  unfold bind_INT at 1. destruct (fits_INT cost) eqn:Hcost.
  2:{ eexists. split; [reflexivity|].
      split; [apply spend_status_code_out_of_range; auto | discriminate]. }
  destruct (assign_VARCHAR 50 action_type) as [mv|stored] eqn:Hv.
  { eexists. split; [reflexivity|].
    split; [eapply assign_VARCHAR_50_refused; exact Hv | discriminate]. }
  exfalso. unfold spend_accepted in Hno. rewrite Hnew, Hcost, Hneg, Hv in Hno.
  discriminate.
Qed.

Lemma spend_credits_typed_valid refused e req d :
  DATABASE_URL e = true ->
  sr_circle_member_id req <> 0 ->
  sr_action_type req <> "" ->
  refused 0%nat = None ->
  spend_credits_typed refused e req d =
  match spend_transaction_typed refused (sr_circle_member_id req) (sr_action_type req)
          (default 1 (sr_credits_cost req)) (sr_metadata req) d with
  | (d', inr (actionId, newBalance)) =>
      (d', SpendOk actionId (default 1 (sr_credits_cost req)) newBalance)
  | (d', inl message) => (d', SpendError (spend_status_code message) message)
  end.
Proof.
  intros Hdb Hid Hact H0. unfold spend_credits_typed. rewrite Hdb. simpl.
  apply Z.eqb_neq in Hid. rewrite Hid.
  apply String.eqb_neq in Hact. rewrite Hact, H0. reflexivity.
Qed.

(** Where every value fits and the action type is at most 50 characters
    long, the handler with the column types enforced is the handler without
    them. *)
Lemma spend_credits_typed_fits e req d m row :
  DATABASE_URL e = true ->
  sr_circle_member_id req <> 0 ->
  sr_action_type req <> "" ->
  fits_BIGINT (sr_circle_member_id req) = true ->
  members d !! sr_circle_member_id req = Some m ->
  member_credits d !! m_id m = Some row ->
  let cost := default 1 (sr_credits_cost req) in
  fits_INT (credits_balance row - cost) = true ->
  fits_INT cost = true ->
  fits_INT (- cost) = true ->
  (String.length (sr_action_type req) <= 50)%nat ->
  spend_credits_typed none_refused e req d = spend_credits e req d.
Proof.
  intros Hdb Hid Hact Hbig Hm Hrow cost Hnew Hcost Hneg Hlen.
  rewrite spend_credits_typed_valid, spend_credits_valid by (try assumption; reflexivity).
  fold cost.
  destruct (Z_lt_le_dec (credits_balance row) cost) as [Hlt|Hle].
  - unfold spend_transaction_typed, spend_transaction, none_refused. cbn [or_else default].
    unfold bind_BIGINT. rewrite Hbig.
    rewrite (select_member_credits_some _ _ _ _ Hm Hrow).
    apply Z.ltb_lt in Hlt. rewrite Hlt. reflexivity.
  - rewrite (spend_transaction_typed_commits _ _ _ _ _ m row (sr_action_type req))
      by (try assumption; apply assign_VARCHAR_short; assumption).
    rewrite (spend_transaction_commits _ _ _ _ _ _ _ Hm Hrow Hle).
    reflexivity.
Qed.

(** ** Refusals *)

(** X1: a spend request that is refused leaves every table as it was,
    whatever the reason; at most the sequence of [app_actions] has handed out
    a value.  The status is 501 (no database configured), 400 (member id or
    action type missing), 404 (no member with that id, or a member without a
    credit account), 402 (the account holds less than the cost), 500 when a
    value does not fit its column (the member id in [BIGINT]; the new
    balance, the cost or its negation in [INT]; the action type in
    [VARCHAR(50)]), and, when the database or the connection refuses a
    statement for a reason of its own, the status its message gives. *)
Theorem spend_refused_changes_no_table refused e req d d' status message :
  spend_credits_typed refused e req d = (d', SpendError status message) ->
  let cid := sr_circle_member_id req in
  let cost := default 1 (sr_credits_cost req) in
  (d' = d \/ d' = fst (nextval_app_actions d)) /\
  ((status = 501 /\ DATABASE_URL e = false) \/
   (status = 400 /\ (cid = 0 \/ sr_action_type req = "")) \/
   (status = 404 /\ message = record_not_found /\
    (members d !! cid = None \/
     exists m, members d !! cid = Some m /\ member_credits d !! m_id m = None)) \/
   (status = 402 /\ message = insufficient_credits /\
    exists m row,
      members d !! cid = Some m /\ member_credits d !! m_id m = Some row /\
      credits_balance row < cost) \/
   (status = 500 /\
    (fits_BIGINT cid = false \/
     exists m row,
       members d !! cid = Some m /\ member_credits d !! m_id m = Some row /\
       cost <= credits_balance row /\
       spend_accepted (sr_action_type req) cost (credits_balance row) = false)) \/
   (status = spend_status_code message /\
    exists k, (k <= 7)%nat /\ refused k = Some message)).
Proof.
  intros Hcall cid cost. unfold spend_credits_typed in Hcall.
  destruct (DATABASE_URL e) eqn:Hdb; cbn [negb] in Hcall.
  2:{ injection Hcall as <- <- <-. split; [auto|]. left. auto. }
  destruct ((sr_circle_member_id req =? 0) || String.eqb (sr_action_type req) "")%bool
    eqn:Hreq.
  { injection Hcall as <- <- <-. split; [auto|]. right. left. split; [reflexivity|].
    apply orb_prop in Hreq as [H|H].
    - left. apply Z.eqb_eq. exact H.
    - right. apply String.eqb_eq. exact H. }
  destruct (refused 0%nat) as [m0|] eqn:H0.
  { injection Hcall as <- <- <-. split; [auto|]. do 5 right.
    split; [reflexivity|]. exists 0%nat. split; [lia | exact H0]. }
  fold cid cost in Hcall.
  destruct (spend_transaction_typed refused cid (sr_action_type req) cost
              (sr_metadata req) d) as [d0 [msg|[actionId newBalance]]] eqn:Htx;
    [|discriminate].
  injection Hcall as <- <- <-.
  apply spend_transaction_typed_error in Htx as [Hd Hwhy]. split; [exact Hd|].
  destruct Hwhy as [(k & Hk & Hr) | [[-> Hsel] | [[-> Hsel] | [Hs Hwhy]]]].
  - do 5 right. split; [reflexivity|]. exists k. split; [lia | exact Hr].
  - right. right. left. split; [reflexivity|]. split; [reflexivity|].
    apply select_member_credits_none_iff. exact Hsel.
  - right. right. right. left. split; [reflexivity|]. split; [reflexivity|].
    destruct Hsel as (mid & balance & Hsel & Hlt).
    apply select_member_credits_inv in Hsel as (m & row & Hm & Hrow & -> & ->).
    exists m, row. auto.
  - do 4 right. left. split; [exact Hs|].
    destruct Hwhy as [Hbig | (mid & balance & Hsel & Hle & Hno)]; [left; exact Hbig|].
    right. apply select_member_credits_inv in Hsel as (m & row & Hm & Hrow & -> & ->).
    exists m, row. auto.
Qed.

Lemma spend_refused_changes_no_table_witness :
  spend_credits_typed none_refused Sample.env0 (Sample.spend (-2147483648))
    (Sample.db_with 3 0)
  = (Sample.db_with 3 0, SpendError 500 (out_of_range 2147483651 "integer")) /\
  exists m row,
    members (Sample.db_with 3 0) !! 501 = Some m /\
    member_credits (Sample.db_with 3 0) !! m_id m = Some row /\
    -2147483648 <= credits_balance row /\
    spend_accepted "generate_image" (-2147483648) (credits_balance row) = false.
Proof.
  assert (H : spend_credits_typed none_refused Sample.env0 (Sample.spend (-2147483648))
                (Sample.db_with 3 0)
              = (Sample.db_with 3 0, SpendError 500 (out_of_range 2147483651 "integer")))
    by (vm_compute; reflexivity).
  split; [exact H|].
  destruct (spend_refused_changes_no_table _ _ _ _ _ _ _ H)
    as [_ [[Hs _] | [[Hs _] | [[Hs _] | [[Hs _] | [[_ Hwhy] | [_ (k & _ & Hk)]]]]]]];
    try discriminate.
  destruct Hwhy as [Hbig | Hwhy]; [discriminate | exact Hwhy].
Defined.

(** X3: the endpoint puts no lower bound on the cost.  A request with a
    negative cost against an account that is not in debt is accepted and the
    balance grows by the absolute value of the cost, as long as the new
    balance is still an [INT]; beyond that the [UPDATE] is refused, the
    answer is 500 and nothing is written. *)
Theorem spend_negative_cost_raises_balance_within_INT e req d m row cost :
  DATABASE_URL e = true ->
  sr_circle_member_id req <> 0 ->
  fits_BIGINT (sr_circle_member_id req) = true ->
  sr_action_type req <> "" ->
  (String.length (sr_action_type req) <= 50)%nat ->
  members d !! sr_circle_member_id req = Some m ->
  member_credits d !! m_id m = Some row ->
  sr_credits_cost req = Some cost ->
  cost < 0 ->
  0 <= credits_balance row ->
  (credits_balance row - cost <= 2147483647 ->
   snd (spend_credits_typed none_refused e req d)
   = SpendOk (app_actions_id_seq d) cost (credits_balance row + Z.abs cost) /\
   balance_of (fst (spend_credits_typed none_refused e req d)) (m_id m)
   = Some (credits_balance row + Z.abs cost)) /\
  (2147483647 < credits_balance row - cost ->
   spend_credits_typed none_refused e req d
   = (d, SpendError 500 (out_of_range (credits_balance row - cost) "integer"))).
Proof.
  intros Hdb Hid Hbig Hact Hlen Hm Hrow Hcost Hneg Hpos.
  rewrite spend_credits_typed_valid by (try assumption; reflexivity).
  rewrite Hcost. cbn [default]. unfold id.
  split.
  - intros Hmax.
    rewrite (spend_transaction_typed_commits _ _ _ _ _ m row (sr_action_type req));
      try assumption; try lia.
    + cbn [fst snd]. unfold balance_of. cbn [member_credits].
      rewrite lookup_insert_eq. cbn [fmap option_fmap option_map credits_balance].
      replace (credits_balance row - cost) with (credits_balance row + Z.abs cost) by lia.
      split; reflexivity.
    + unfold fits_INT. apply andb_true_iff. split; apply Z.leb_le; lia.
    + unfold fits_INT. apply andb_true_iff. split; apply Z.leb_le; lia.
    + unfold fits_INT. apply andb_true_iff. split; apply Z.leb_le; lia.
    + apply assign_VARCHAR_short. exact Hlen.
  - intros Hover.
    assert (Hnew : fits_INT (credits_balance row - cost) = false).
    { unfold fits_INT. apply andb_false_iff. right. apply Z.leb_gt. lia. }
    destruct (spend_transaction_typed_refuses (sr_circle_member_id req)
                (sr_action_type req) cost (sr_metadata req) d m row Hbig Hm Hrow)
      as (message & -> & Hs & Hmsg).
    + lia.
    + unfold spend_accepted. rewrite Hnew. reflexivity.
    + rewrite Hs, (Hmsg Hnew). reflexivity.
Qed.

Lemma spend_negative_cost_raises_balance_within_INT_witness :
  (snd (spend_credits_typed none_refused Sample.env0 (Sample.spend (-1000))
          (Sample.db_with 3 0))
   = SpendOk 1 (-1000) (3 + Z.abs (-1000)) /\
   balance_of (fst (spend_credits_typed none_refused Sample.env0 (Sample.spend (-1000))
                      (Sample.db_with 3 0))) 1
   = Some (3 + Z.abs (-1000))) /\
  spend_credits_typed none_refused Sample.env0 (Sample.spend (-2147483648))
    (Sample.db_with 3 0)
  = (Sample.db_with 3 0, SpendError 500 (out_of_range (3 - -2147483648) "integer")).
Proof.
  split.
  - apply (spend_negative_cost_raises_balance_within_INT Sample.env0
             (Sample.spend (-1000)) (Sample.db_with 3 0) Sample.alice_row
             (CreditsRow 3 0) (-1000));
      try reflexivity; try discriminate; cbn; lia.
  - apply (spend_negative_cost_raises_balance_within_INT Sample.env0
             (Sample.spend (-2147483648)) (Sample.db_with 3 0) Sample.alice_row
             (CreditsRow 3 0) (-2147483648));
      try reflexivity; try discriminate; cbn; lia.
Defined.




(** * The purchase settlement and the sessions of the pool *)

Lemma settlement_statements_writes mid nb ps :
  settlement_statements mid nb ps = settlement_writes mid nb ps ++ [fun d => d].
Proof. reflexivity. Qed.

Lemma pool_eta p : Pool (committed p) (in_progress p) = p.
Proof. destruct p; reflexivity. Qed.

(** On one session with its transaction open, the statements run as
    [run_statements] runs them on the committed state with the pending
    writes applied: [COMMIT] publishes them, a failure aborts the
    transaction and publishes nothing. *)
Lemma run_queries_one_session client c fault :
  (forall k, client k = c) ->
  forall ss k ws d ip,
    run_queries client fault k ((Q_WRITE <$> ss) ++ [Q_COMMIT])
      (Pool d (<[c := Active ws]> ip))
    = match run_statements fault k (ss ++ [fun d => d])
              (foldl (fun d w => w d) d ws) with
      | Some d' => (Pool d' (delete c ip), true)
      | None => (Pool d (<[c := Aborted]> ip), false)
      end.
Proof.
  intros Hc ss. induction ss as [|s ss IH]; intros k ws d ip.
  - cbn [fmap list_fmap app run_queries run_statements]. rewrite Hc.
    unfold aborted_refuses. cbn [in_progress]. rewrite lookup_insert_eq, orb_false_r.
    destruct (bool_decide (fault = Some k)).
    + unfold pool_refuse. cbn [in_progress committed].
      rewrite lookup_insert_eq, insert_insert_eq. reflexivity.
    + unfold pool_query. cbn [in_progress committed].
      rewrite lookup_insert_eq, delete_insert_eq. reflexivity.
  - cbn [fmap list_fmap app run_queries run_statements]. rewrite Hc.
    unfold aborted_refuses. cbn [in_progress]. rewrite lookup_insert_eq, orb_false_r.
    destruct (bool_decide (fault = Some k)).
    + unfold pool_refuse. cbn [in_progress committed].
      rewrite lookup_insert_eq, insert_insert_eq. reflexivity.
    + unfold pool_query at 1. cbn [in_progress committed].
      rewrite lookup_insert_eq, insert_insert_eq.
      change (Q_WRITE <$> ss) with (list_fmap _ _ Q_WRITE ss) in IH.
      rewrite IH, foldl_app. reflexivity.
Qed.

(** When every statement of the settlement reaches the same session, and
    that session has no transaction in progress, the settlement through the
    pool is [settle_purchases]: what is committed is what [settle_purchases]
    returns, and the session is left without a transaction. *)
Lemma settle_purchases_one_session client c ev mid ps cr p :
  (forall k, client k = c) ->
  in_progress p !! c = None ->
  settle_purchases_pooled client ev mid ps cr p =
  let '(d', cr', processed, deleted) := settle_purchases ev mid ps cr (committed p) in
  (Pool d' (in_progress p), cr', processed, deleted).
Proof.
  intros Hc Hfree. unfold settle_purchases_pooled, settle_purchases.
  destruct (0 <? foldr Z.add 0 (p_credits <$> ps)); [|rewrite pool_eta; reflexivity].
  rewrite !Hc.
  unfold aborted_refuses. rewrite Hfree, orb_false_r.
  destruct (bool_decide (ev_fault ev = Some 0%nat)).
  { unfold pool_refuse. rewrite Hfree, pool_eta. reflexivity. }
  assert (Hbegin : pool_query c Q_BEGIN p
                   = Pool (committed p) (<[c := Active []]> (in_progress p)))
    by (unfold pool_query; rewrite Hfree; reflexivity).
  rewrite Hbegin.
  destruct cr as [row|].
  - rewrite (run_queries_one_session client c _ Hc), settlement_statements_writes.
    cbn [foldl].
    destruct (run_statements _ _ _ _) as [d'|].
    + rewrite (delete_id _ _ Hfree). reflexivity.
    + unfold pool_query. cbn [committed in_progress].
      rewrite delete_insert_eq, (delete_id _ _ Hfree). reflexivity.
  - unfold pool_query. cbn [committed in_progress].
    rewrite delete_insert_eq, (delete_id _ _ Hfree). reflexivity.
Qed.

Lemma process_purchase_tags_one_session client c ev mid cr p :
  (forall k, client k = c) ->
  in_progress p !! c = None ->
  process_purchase_tags_pooled client ev mid cr p =
  let '(d', cr', processed, deleted) := process_purchase_tags ev mid cr (committed p) in
  (Pool d' (in_progress p), cr', processed, deleted).
Proof.
  intros Hc Hfree. unfold process_purchase_tags_pooled, process_purchase_tags.
  destruct (0 <? length _)%nat.
  - apply (settle_purchases_one_session client c); assumption.
  - rewrite pool_eta. reflexivity.
Qed.

(** The sign-in whose settlement stays on one session is
    [auth_database_integration], and leaves no transaction behind. *)
Lemma auth_database_integration_one_session client c e ev d :
  (forall k, client k = c) ->
  auth_database_integration_pooled client e ev d
  = (Pool (fst (auth_database_integration e ev d)) ∅,
     snd (auth_database_integration e ev d)).
Proof.
  intros Hc. unfold auth_database_integration_pooled, auth_database_integration.
  destruct (negb (md_id (ev_member ev) =? 0) && DATABASE_URL e)%bool.
  2:{ destruct (negb (DATABASE_URL e)); reflexivity. }
  destruct (upsert_member _ _ _ _) as [d1 [[dbMemberId firstSeenAt]|]]; [|reflexivity].
  destruct (reconcile_credits _ _ _ _ _ _ _ _ _) as [d2 creditsResult].
  rewrite (process_purchase_tags_one_session client c) by (auto; apply lookup_empty).
  cbn [committed in_progress].
  destruct (process_purchase_tags _ _ _ _) as [[[d3 cr'] processed] deleted].
  destruct cr'; reflexivity.
Qed.

(** C3: the settlement does not keep its statements on one session, and it
    is all-or-nothing only while they stay on one.  Alice, holding 3
    credits, signs in carrying "$10" and "$25".  With every statement on one
    session the failure of the fourth statement leaves the database as it
    was.  With [BEGIN] on one client of the pool and the rest on another, the
    same failure leaves the balance at 38 and the audit row of "$10" committed, no
    [purchase] row in the history, an answer that reports the old balance and
    no processed tag, and the first session inside a transaction; the
    [ROLLBACK] undoes nothing.  With [BEGIN] and the [UPDATE] on one client
    and the rest on another, and no failure at all, the two audit rows and
    the two [purchase] rows (10 and 25, showing balance 38) are committed and
    the answer reports 38, but the balance is still 3: the [UPDATE] waits in
    a transaction that the [COMMIT] never reaches. *)
Theorem settle_10_and_25_across_sessions :
  let d := Sample.db_with 3 0 in
  let cr := CreditsRow 3 0 in
  let failing := Sample.sign_in Sample.t0 ["$10"; "$25"] (Some 3%nat) in
  let sound := Sample.sign_in Sample.t0 ["$10"; "$25"] None in
  let one_session := fun _ : nat => 0%nat in
  let begin_apart := fun k : nat => match k with 0%nat => 0%nat | _ => 1%nat end in
  let update_apart :=
    fun k : nat => match k with 0%nat | 1%nat => 0%nat | _ => 1%nat end in
  detect_purchase_tags (md_tags (ev_member failing))
    = [Purchase "$10" 10; Purchase "$25" 25] /\
  process_purchase_tags_pooled one_session failing 1 (Some cr) (Pool d ∅)
    = (Pool d ∅, Some cr, [], []) /\
  (let '(p', creditsResult, processed, deleted) :=
     process_purchase_tags_pooled begin_apart failing 1 (Some cr) (Pool d ∅) in
   balance_of (committed p') 1 = Some 38 /\
   processed_purchase_tags (committed p') = [PptRow 1 "$10" 10] /\
   credit_history (committed p')
     = [HistoryRow 1 35 credit_addition 38 None
          "Automatic log from credit balance change"] /\
   committed p' <> d /\
   in_progress p' = {[ 0%nat := Active [] ]} /\
   creditsResult = Some cr /\ processed = [] /\ deleted = []) /\
  (let '(p', creditsResult, processed, deleted) :=
     process_purchase_tags_pooled update_apart sound 1 (Some cr) (Pool d ∅) in
   balance_of (committed p') 1 = Some 3 /\
   processed_purchase_tags (committed p')
     = [PptRow 1 "$10" 10; PptRow 1 "$25" 25] /\
   credit_history (committed p')
     = purchase_rows 1 38 [Purchase "$10" 10; Purchase "$25" 25] /\
   ch_change_amount <$> credit_history (committed p') = [10; 25] /\
   (exists w, in_progress p' = {[ 0%nat := Active [w] ]} /\
              balance_of (w (committed p')) 1 = Some 38) /\
   creditsResult = Some (CreditsRow 38 0) /\ processed = ["$10"; "$25"]).
Proof.
  intros d cr failing sound one_session begin_apart update_apart.
  split; [reflexivity|]. split; [vm_compute; reflexivity|]. split.
  - vm_compute. repeat split; try reflexivity. discriminate.
  - vm_compute. repeat split; try reflexivity.
    eexists. split; [reflexivity|]. reflexivity.
Qed.

(** X17: purchase tags are settled all together or not at all when every
    statement of the settlement reaches the same session of the pool.  Then,
    for every sign-in, no transaction is left in progress, and either nothing
    of a purchase is committed or reported (no tag reported as processed, no
    row added to [processed_purchase_tags], no [purchase] row in the
    history, no tag queued for removal), or all the purchase tags the member
    carries are: the answer lists every one of them,
    [processed_purchase_tags] and the history receive one row per tag in the
    order of the tags, each history row showing the balance of the answer,
    and the tags queued for removal are those of this settlement.  The second
    happens exactly when the member carries a tag the loop accepts, no
    statement of the settlement fails and the sign-in got as far as a
    database id. *)
Theorem purchase_tags_all_or_nothing_on_one_session client c e ev d :
  (forall k, client k = c) ->
  let p' := fst (auth_database_integration_pooled client e ev d) in
  let r := snd (auth_database_integration_pooled client e ev d) in
  let d' := committed p' in
  let ps := omap purchase_of_tag (md_tags (ev_member ev)) in
  in_progress p' = ∅ /\
  ((r_processed_purchase_tags r = [] /\
    purchase_tags_appended d d' = [] /\
    of_type purchase_credit (history_appended d d') = [] /\
    r_deleted_tag_ids r = [] /\
    (ps = [] \/ settlement_fails ev ps = true \/ r_db_id r = None)) \/
   (exists mid b,
      ps <> [] /\ settlement_fails ev ps = false /\
      r_db_id r = Some mid /\ r_credits_balance r = Some b /\
      r_processed_purchase_tags r = p_tag <$> ps /\
      purchase_tags_appended d d' = purchase_tag_rows mid ps /\
      of_type purchase_credit (history_appended d d') = purchase_rows mid b ps /\
      r_deleted_tag_ids r = tags_to_delete (ev_admin_tag_id ev) ps)).
Proof.
  intros Hc p' r d' ps. subst p' r d'.
  rewrite (auth_database_integration_one_session client c e ev d Hc).
  cbn [fst snd committed in_progress].
  split; [reflexivity|].
  exact (auth_purchases_all_or_nothing e ev d).
Qed.

Lemma purchase_tags_all_or_nothing_on_one_session_witness :
  let one_session := fun _ : nat => 0%nat in
  let d := Sample.db_with 9 Sample.t0 in
  (let ev := Sample.sign_in Sample.t0 ["$10"; "vip"; "$25"] (Some 3%nat) in
   let p' := fst (auth_database_integration_pooled one_session Sample.env0 ev d) in
   let r := snd (auth_database_integration_pooled one_session Sample.env0 ev d) in
   in_progress p' = ∅ /\
   r_processed_purchase_tags r = [] /\
   purchase_tags_appended d (committed p') = [] /\
   of_type purchase_credit (history_appended d (committed p')) = []) /\
  (let ev := Sample.sign_in Sample.t0 ["$10"; "vip"; "$25"] None in
   let p' := fst (auth_database_integration_pooled one_session Sample.env0 ev d) in
   let r := snd (auth_database_integration_pooled one_session Sample.env0 ev d) in
   in_progress p' = ∅ /\
   r_processed_purchase_tags r = ["$10"; "$25"] /\
   exists mid,
     purchase_tags_appended d (committed p')
     = [PptRow mid "$10" 10; PptRow mid "$25" 25]).
Proof.
  intros one_session d. split.
  - intros ev p' r.
    destruct (purchase_tags_all_or_nothing_on_one_session one_session 0%nat
                Sample.env0 ev d (fun _ => eq_refl))
      as [Hfree [(H1 & H2 & H3 & _) | (mid & b & _ & Hf & _)]].
    + split; [exact Hfree|]. split; [exact H1|]. split; [exact H2 | exact H3].
    + vm_compute in Hf. discriminate.
  - intros ev p' r.
    destruct (purchase_tags_all_or_nothing_on_one_session one_session 0%nat
                Sample.env0 ev d (fun _ => eq_refl))
      as [Hfree [(_ & _ & _ & _ & [H | [H | H]]) | (mid & b & _ & _ & _ & _ & H1 & H2 & _)]];
      try (vm_compute in H; discriminate).
    split; [exact Hfree|]. split; [exact H1|]. exists mid. exact H2.
Defined.

(** X26: a settlement that fails on one session is silent and costs the
    member exactly the purchases.  When every statement of the settlement
    reaches the same session and one of them throws, the [ROLLBACK] ends the
    transaction with nothing of it committed: the sign-in still answers with
    the member's id and without [db_error]; it reports no processed tag and
    queues no tag for removal (the tags stay on the member); no row reaches
    [processed_purchase_tags] and no [purchase] row the history; everything
    the earlier stages did is kept: the directory is the same as after the
    same event without the fault, and the balance answered and stored is the
    balance of that event minus the total of the purchase tags. *)
Theorem failed_settlement_is_silent_on_one_session client c e ev d mid :
  (forall k, client k = c) ->
  let ps := omap purchase_of_tag (md_tags (ev_member ev)) in
  settlement_fails ev ps = true ->
  r_db_id (snd (auth_database_integration_pooled client e ev d)) = Some mid ->
  let ev0 := AuthEvent (ev_now ev) (ev_member ev) (ev_admin_tag_id ev) None in
  let p' := fst (auth_database_integration_pooled client e ev d) in
  let r := snd (auth_database_integration_pooled client e ev d) in
  let p0 := fst (auth_database_integration_pooled client e ev0 d) in
  let r0 := snd (auth_database_integration_pooled client e ev0 d) in
  let d' := committed p' in
  in_progress p' = ∅ /\
  r_db_error r = false /\
  r_processed_purchase_tags r = [] /\
  r_deleted_tag_ids r = [] /\
  purchase_tags_appended d d' = [] /\
  of_type purchase_credit (history_appended d d') = [] /\
  members d' = members (committed p0) /\
  exists b,
    r_credits_balance r = Some b /\
    balance_of d' mid = Some b /\
    r_credits_balance r0 = Some (b + purchases_total ps).
Proof.
  intros Hc ps Hfails Hid ev0 p' r p0 r0 d'. subst p' r p0 r0 d'.
  rewrite (auth_database_integration_one_session client c e ev d Hc) in *.
  rewrite (auth_database_integration_one_session client c e ev0 d Hc).
  cbn [fst snd committed in_progress] in *.
  destruct (auth_failed_settlement e ev d mid Hfails Hid)
    as (Herr & Hproc & Hdel & Hppt & Hmem & b & Hb & Hbal & Hb0).
  split; [reflexivity|]. split; [exact Herr|]. split; [exact Hproc|].
  split; [exact Hdel|]. split; [exact Hppt|]. split.
  - destruct (auth_purchases_all_or_nothing e ev d)
      as [(_ & _ & H & _) | (mid' & b' & _ & Hf & _)]; [exact H|].
    unfold ps, detect_purchase_tags in *. congruence.
  - split; [exact Hmem|]. exists b. auto.
Qed.

Lemma failed_settlement_is_silent_on_one_session_witness :
  let one_session := fun _ : nat => 0%nat in
  let ev := Sample.sign_in Sample.t0 ["$10"; "$25"] (Some 3%nat) in
  let ev0 := Sample.sign_in Sample.t0 ["$10"; "$25"] None in
  let d := Sample.db_with 9 Sample.t0 in
  in_progress (fst (auth_database_integration_pooled one_session Sample.env0 ev d)) = ∅ /\
  r_db_error (snd (auth_database_integration_pooled one_session Sample.env0 ev d)) = false /\
  r_credits_balance (snd (auth_database_integration_pooled one_session Sample.env0 ev d))
  = Some 9 /\
  r_credits_balance (snd (auth_database_integration_pooled one_session Sample.env0 ev0 d))
  = Some (9 + 35).
Proof.
  intros one_session ev ev0 d.
  assert (H1 : settlement_fails ev (omap purchase_of_tag (md_tags (ev_member ev))) = true)
    by (vm_compute; reflexivity).
  assert (H2 : r_db_id (snd (auth_database_integration_pooled one_session Sample.env0 ev d))
               = Some 1) by (vm_compute; reflexivity).
  assert (H3 : r_credits_balance
                 (snd (auth_database_integration_pooled one_session Sample.env0 ev d))
               = Some 9) by (vm_compute; reflexivity).
  destruct (failed_settlement_is_silent_on_one_session one_session 0%nat Sample.env0
              ev d 1 (fun _ => eq_refl) H1 H2)
    as (Hfree & Herr & _ & _ & _ & _ & _ & b & Hb & _ & Hb0).
  split; [exact Hfree|]. split; [exact Herr|]. split; [exact H3|].
  rewrite H3 in Hb. injection Hb as <-. exact Hb0.
Defined.
